(** * PDCP transmit entity ([pdcp_entity_tx])

    A shallow embedding of [pdcp_entity_tx]: the transmit entry point
    [handle_sdu], the data-PDU header writer, the ciphering and integrity
    pipeline, the discard-timer map, the status-report handler and the
    data-recovery procedure, followed by the properties of the entity.

    Conventions.  A [uint32_t] is a [Z] kept in [0, 2^32) by [wrap32]; a byte
    is a [Z] in [0, 256); a [byte_buffer] is the list of its bytes.  The calls
    the entity makes on its collaborators ([lower_dn], [upper_cn], [logger])
    are recorded, in program order, as a list of [event]s.  A function that
    can fail an assertion returns [None] for the entity after it. *)

From Stdlib Require Import String ZArith List Bool Lia Sorted.
Import ListNotations.
Open Scope string_scope.
Open Scope list_scope.
Open Scope Z_scope.

(* ================================================================= *)
(** ** Machine integers and buffers *)

Definition wrap32 (z : Z) : Z := z mod 2 ^ 32.
Definition to_uint8 (z : Z) : Z := z mod 2 ^ 8.

Definition is_uint32 (z : Z) : Prop := 0 <= z < 2 ^ 32.
Definition is_byte (z : Z) : Prop := 0 <= z < 256.

Definition byte_buffer := list Z.

Definition buf_length (b : byte_buffer) : Z := Z.of_nat (length b).

(* ================================================================= *)
(** ** Configuration *)

Inductive pdcp_rb_type := srb | drb.
Inductive pdcp_rlc_mode := um | am.

(** [pdcp_sn_size] has the two enumerators [size12bits] and [size18bits];
    [size_other n] stands for any other value of the underlying integer, the
    one the [default:] branch of [write_data_pdu_header] is written for. *)
Inductive pdcp_sn_size := size12bits | size18bits | size_other (n : Z).

(** The discard timer is a duration in milliseconds or one of two
    sentinels. *)
Inductive pdcp_discard_timer := not_configured | ms (n : Z) | infinity.

Inductive security_direction := uplink | downlink.

Inductive integrity_algorithm := nia0 | nia1 | nia2 | nia3.
Inductive ciphering_algorithm := nea0 | nea1 | nea2 | nea3.

Record pdcp_max_count := {
  notify : Z;
  hard : Z
}.

Record pdcp_config := {
  rb_type : pdcp_rb_type;
  rlc_mode : pdcp_rlc_mode;
  sn_size : pdcp_sn_size;
  discard_timer : pdcp_discard_timer;
  status_report_required : bool;
  max_count : pdcp_max_count
}.

Definition sec_128_as_key := list Z.
Definition sec_mac := list Z.

Record sec_128_as_config := {
  k_128_rrc_int : sec_128_as_key;
  k_128_rrc_enc : sec_128_as_key;
  k_128_up_int : sec_128_as_key;
  k_128_up_enc : sec_128_as_key;
  integ_algo : integrity_algorithm;
  cipher_algo : ciphering_algorithm
}.

(** The algorithms of srsgnb/security (integrity.h, ciphering.h) are not part
    of the entity: they are a bundle of functions of
    (key, count, bearer, direction, message). *)
Record security_lib := {
  security_nia1 : sec_128_as_key -> Z -> Z -> security_direction -> byte_buffer -> sec_mac;
  security_nia2 : sec_128_as_key -> Z -> Z -> security_direction -> byte_buffer -> sec_mac;
  security_nia3 : sec_128_as_key -> Z -> Z -> security_direction -> byte_buffer -> sec_mac;
  security_nea1 : sec_128_as_key -> Z -> Z -> security_direction -> byte_buffer -> byte_buffer;
  security_nea2 : sec_128_as_key -> Z -> Z -> security_direction -> byte_buffer -> byte_buffer;
  security_nea3 : sec_128_as_key -> Z -> Z -> security_direction -> byte_buffer -> byte_buffer
}.

(** The members of the entity that no function of the file writes. *)
Record pdcp_entity_tx_ctx := {
  cfg : pdcp_config;
  sec_cfg : sec_128_as_config;
  lcid : Z;
  direction : security_direction;
  integrity_enabled : bool;
  ciphering_enabled : bool;
  sec : security_lib
}.

(** Modelled from the spec: [is_srb] and [is_drb] are declared in
    pdcp_entity_tx.h, which is not among the sources; the bearer kind is
    either SRB or DRB. *)
Definition is_srb (ctx : pdcp_entity_tx_ctx) : bool :=
  match rb_type (cfg ctx) with srb => true | drb => false end.

Definition is_drb (ctx : pdcp_entity_tx_ctx) : bool :=
  match rb_type (cfg ctx) with srb => false | drb => true end.

Definition sn_size_to_number (s : pdcp_sn_size) : Z :=
  match s with
  | size12bits => 12
  | size18bits => 18
  | size_other n => n
  end.

(** Modelled from the spec: [SN] is declared in pdcp_entity_tx.h, which is
    not among the sources; SN = COUNT mod 2^sn_size. *)
Definition SN (ctx : pdcp_entity_tx_ctx) (count : Z) : Z :=
  count mod 2 ^ sn_size_to_number (sn_size (cfg ctx)).

(* ================================================================= *)
(** ** Collaborator calls *)

Inductive log_level := log_error | log_warning | log_info | log_debug.

Record pdcp_tx_pdu := {
  buf : byte_buffer;
  pdcp_count : option Z
}.

Inductive event :=
| ev_log (lvl : log_level) (fmt : string)
| ev_on_new_pdu (pdu : pdcp_tx_pdu)
| ev_on_discard_pdu (count : Z)
| ev_on_protocol_failure
| ev_on_max_count_reached.

(* ================================================================= *)
(** ** Entity state *)

(** A [unique_timer] of the timer service, set with a duration and the
    [discard_callback] that carries the COUNT. *)
Record unique_timer := {
  timer_id : Z;
  timer_duration : Z;
  timer_discard_count : Z
}.

Record discard_info := {
  info_buf : byte_buffer;
  info_timer : unique_timer
}.

(** [std::map<uint32_t, discard_info>]: the entries in ascending key
    order. *)
Definition discard_map := list (Z * discard_info).

(** Modelled from the spec: the metrics container is declared in a header
    that is not among the sources; it counts SDUs, PDUs, their bytes and
    discard-timer expiries. *)
Record pdcp_tx_metrics := {
  num_sdus : Z;
  num_sdu_bytes : Z;
  num_pdus : Z;
  num_pdu_bytes : Z;
  num_discard_timeouts : Z
}.

Record pdcp_entity_tx := {
  tx_next : Z;
  max_count_overflow : bool;
  max_count_notified : bool;
  discard_timers_map : discard_map;
  metrics : pdcp_tx_metrics;
  timers_created : Z
}.

Definition set_tx_next (st : pdcp_entity_tx) (v : Z) : pdcp_entity_tx :=
  {| tx_next := v;
     max_count_overflow := max_count_overflow st;
     max_count_notified := max_count_notified st;
     discard_timers_map := discard_timers_map st;
     metrics := metrics st;
     timers_created := timers_created st |}.

Definition set_max_count_overflow (st : pdcp_entity_tx) (v : bool) : pdcp_entity_tx :=
  {| tx_next := tx_next st;
     max_count_overflow := v;
     max_count_notified := max_count_notified st;
     discard_timers_map := discard_timers_map st;
     metrics := metrics st;
     timers_created := timers_created st |}.

Definition set_max_count_notified (st : pdcp_entity_tx) (v : bool) : pdcp_entity_tx :=
  {| tx_next := tx_next st;
     max_count_overflow := max_count_overflow st;
     max_count_notified := v;
     discard_timers_map := discard_timers_map st;
     metrics := metrics st;
     timers_created := timers_created st |}.

Definition set_discard_timers_map (st : pdcp_entity_tx) (m : discard_map) : pdcp_entity_tx :=
  {| tx_next := tx_next st;
     max_count_overflow := max_count_overflow st;
     max_count_notified := max_count_notified st;
     discard_timers_map := m;
     metrics := metrics st;
     timers_created := timers_created st |}.

Definition set_metrics (st : pdcp_entity_tx) (m : pdcp_tx_metrics) : pdcp_entity_tx :=
  {| tx_next := tx_next st;
     max_count_overflow := max_count_overflow st;
     max_count_notified := max_count_notified st;
     discard_timers_map := discard_timers_map st;
     metrics := m;
     timers_created := timers_created st |}.

Definition set_timers_created (st : pdcp_entity_tx) (v : Z) : pdcp_entity_tx :=
  {| tx_next := tx_next st;
     max_count_overflow := max_count_overflow st;
     max_count_notified := max_count_notified st;
     discard_timers_map := discard_timers_map st;
     metrics := metrics st;
     timers_created := v |}.

Definition metrics_zero : pdcp_tx_metrics :=
  {| num_sdus := 0; num_sdu_bytes := 0; num_pdus := 0; num_pdu_bytes := 0;
     num_discard_timeouts := 0 |}.

(** The entity as constructed, with [st.tx_next] at [t0]. *)
Definition init_entity (t0 : Z) : pdcp_entity_tx :=
  {| tx_next := t0;
     max_count_overflow := false;
     max_count_notified := false;
     discard_timers_map := [];
     metrics := metrics_zero;
     timers_created := 0 |}.

Definition metrics_add_sdus (st : pdcp_entity_tx) (n bytes : Z) : pdcp_entity_tx :=
  let m := metrics st in
  set_metrics st
    {| num_sdus := num_sdus m + n;
       num_sdu_bytes := num_sdu_bytes m + bytes;
       num_pdus := num_pdus m;
       num_pdu_bytes := num_pdu_bytes m;
       num_discard_timeouts := num_discard_timeouts m |}.

Definition metrics_add_pdus (st : pdcp_entity_tx) (n bytes : Z) : pdcp_entity_tx :=
  let m := metrics st in
  set_metrics st
    {| num_sdus := num_sdus m;
       num_sdu_bytes := num_sdu_bytes m;
       num_pdus := num_pdus m + n;
       num_pdu_bytes := num_pdu_bytes m + bytes;
       num_discard_timeouts := num_discard_timeouts m |}.

Definition metrics_add_discard_timouts (st : pdcp_entity_tx) (n : Z) : pdcp_entity_tx :=
  let m := metrics st in
  set_metrics st
    {| num_sdus := num_sdus m;
       num_sdu_bytes := num_sdu_bytes m;
       num_pdus := num_pdus m;
       num_pdu_bytes := num_pdu_bytes m;
       num_discard_timeouts := num_discard_timeouts m + n |}.

(* ================================================================= *)
(** ** The discard-timer map *)

(** [std::map::insert]: the entry goes to its place in key order; a key
    that is already there keeps its entry. *)
Fixpoint map_insert (k : Z) (v : discard_info) (m : discard_map) : discard_map :=
  match m with
  | [] => [(k, v)]
  | (k', v') :: rest =>
      if k <? k' then (k, v) :: m
      else if k =? k' then m
      else (k', v') :: map_insert k v rest
  end.

(** [std::map::erase(key)]. *)
Fixpoint map_erase (k : Z) (m : discard_map) : discard_map :=
  match m with
  | [] => []
  | (k', v') :: rest =>
      if k =? k' then map_erase k rest else (k', v') :: map_erase k rest
  end.

Definition map_keys (m : discard_map) : list Z := map fst m.

Definition map_mem (k : Z) (m : discard_map) : bool :=
  existsb (Z.eqb k) (map_keys m).

(* ================================================================= *)
(** ** Assertions *)

(** Modelled from the spec: [srsgnb_assert] (srsgnb/support/srsgnb_assert.h)
    is not among the sources.  A failed assertion is a fatal fault, the
    entity does not go on after it: the assertion gives [None]. *)
Definition srsgnb_assert (condition : bool) : option unit :=
  if condition then Some tt else None.

(* ================================================================= *)
(** ** PDU helpers: [write_data_pdu_header] *)

Record pdcp_data_pdu_header := { sn : Z }.

(** [hdr_writer.back() |= v] on a buffer of [uint8_t]. *)
Definition or_back (b : byte_buffer) (v : Z) : byte_buffer :=
  removelast b ++ [to_uint8 (Z.lor (last b 0) v)].

Definition sn_is_18bits (s : pdcp_sn_size) : bool :=
  match s with size18bits => true | _ => false end.

Definition write_data_pdu_header (ctx : pdcp_entity_tx_ctx) (b : byte_buffer)
    (hdr : pdcp_data_pdu_header) : option (byte_buffer * list event) :=
  (* Sanity check: 18bit SRB not allowed *)
  match srsgnb_assert (negb (is_srb ctx && sn_is_18bits (sn_size (cfg ctx)))) with
  | None => None
  | Some _ =>
      (* Set D/C if required *)
      let b := if is_drb ctx then b ++ [0x80] else b ++ [0x00] in
      (* Add SN *)
      match sn_size (cfg ctx) with
      | size12bits =>
          let b := or_back b (Z.shiftr (Z.land (sn hdr) 0x00000f00) 8) in
          let b := b ++ [to_uint8 (Z.land (sn hdr) 0x000000ff)] in
          Some (b, [])
      | size18bits =>
          let b := or_back b (Z.shiftr (Z.land (sn hdr) 0x00030000) 16) in
          let b := b ++ [to_uint8 (Z.shiftr (Z.land (sn hdr) 0x0000ff00) 8)] in
          let b := b ++ [to_uint8 (Z.land (sn hdr) 0x000000ff)] in
          Some (b, [])
      | size_other _ =>
          Some (b, [ev_log log_error "Invalid SN length configuration: {} bits"])
      end
  end.

(* ================================================================= *)
(** ** Ciphering and integrity protection helpers *)

Definition mac_zero : sec_mac := [0; 0; 0; 0].

(** [integrity_generate]: writes the MAC-I into [mac]; the value returned
    is [mac] after the call. *)
Definition integrity_generate (ctx : pdcp_entity_tx_ctx) (mac : sec_mac)
    (b : byte_buffer) (count : Z) : sec_mac * list event :=
  (* If control plane use RRC integrity key. If data use user plane key *)
  let k_int := if is_srb ctx then k_128_rrc_int (sec_cfg ctx)
               else k_128_up_int (sec_cfg ctx) in
  let mac :=
    match integ_algo (sec_cfg ctx) with
    | nia0 => mac
    | nia1 => security_nia1 (sec ctx) k_int count (lcid ctx - 1) (direction ctx) b
    | nia2 => security_nia2 (sec ctx) k_int count (lcid ctx - 1) (direction ctx) b
    | nia3 => security_nia3 (sec ctx) k_int count (lcid ctx - 1) (direction ctx) b
    end in
  (mac,
   [ev_log log_debug "Integrity gen input: COUNT {}, Bearer ID {}, Direction {}";
    ev_log log_debug "Integrity gen key:";
    ev_log log_debug "Integrity gen input message:";
    ev_log log_debug "MAC (generated)"]).

Definition cipher_encrypt (ctx : pdcp_entity_tx_ctx) (msg : byte_buffer)
    (count : Z) : byte_buffer * list event :=
  (* If control plane use RRC integrity key. If data use user plane key *)
  let k_enc := if is_srb ctx then k_128_rrc_enc (sec_cfg ctx)
               else k_128_up_enc (sec_cfg ctx) in
  let ct :=
    match cipher_algo (sec_cfg ctx) with
    | nea0 => [] ++ msg
    | nea1 => security_nea1 (sec ctx) k_enc count (lcid ctx - 1) (direction ctx) msg
    | nea2 => security_nea2 (sec ctx) k_enc count (lcid ctx - 1) (direction ctx) msg
    | nea3 => security_nea3 (sec ctx) k_enc count (lcid ctx - 1) (direction ctx) msg
    end in
  (ct,
   [ev_log log_debug "Cipher encrypt input: COUNT: {}, Bearer ID: {}, Direction {}";
    ev_log log_debug "Cipher encrypt key:";
    ev_log log_debug "Cipher encrypt input msg";
    ev_log log_debug "Cipher encrypt output msg"]).

Definition apply_ciphering_and_integrity_protection (ctx : pdcp_entity_tx_ctx)
    (hdr sdu : byte_buffer) (count : Z) : byte_buffer * list event :=
  (* TS 38.323, section 5.9: Integrity protection *)
  let '(mac, ev_i) :=
    if integrity_enabled ctx
    then integrity_generate ctx mac_zero (([] ++ hdr) ++ sdu) count
    else (mac_zero, []) in
  (* TS 38.323, section 5.8: Ciphering *)
  let '(ct, ev_c) :=
    if ciphering_enabled ctx then
      let b := [] ++ sdu in
      (* Append MAC-I *)
      let b := if is_srb ctx || (is_drb ctx && integrity_enabled ctx)
               then b ++ mac else b in
      cipher_encrypt ctx b count
    else
      let ct := [] ++ sdu in
      (* Append MAC-I *)
      let ct := if is_srb ctx || (is_drb ctx && integrity_enabled ctx)
                then ct ++ mac else ct in
      (ct, []) in
  (* Construct the protected buffer *)
  (([] ++ hdr) ++ ct, ev_i ++ ev_c).

(* ================================================================= *)
(** ** Delivery to the lower layers *)

Definition write_data_pdu_to_lower_layers (ctx : pdcp_entity_tx_ctx)
    (st : pdcp_entity_tx) (count : Z) (b : byte_buffer)
    : pdcp_entity_tx * list event :=
  let st := metrics_add_pdus st 1 (buf_length b) in
  let tx_pdu :=
    {| buf := b;
       (* Set only for data PDUs on DRBs. *)
       pdcp_count := if is_drb ctx then Some count else None |} in
  (st,
   [ev_log log_info "TX Data PDU ({}B), COUNT={}, HFN={}, SN={}, integrity={}, encryption={}";
    ev_on_new_pdu tx_pdu]).

Definition write_control_pdu_to_lower_layers (st : pdcp_entity_tx)
    (b : byte_buffer) : pdcp_entity_tx * list event :=
  let st := metrics_add_pdus st 1 (buf_length b) in
  (* tx_pdu.pdcp_count is not set for control PDUs *)
  let tx_pdu := {| buf := b; pdcp_count := None |} in
  (st, [ev_log log_info "TX Control PDU ({}B)"; ev_on_new_pdu tx_pdu]).

(* ================================================================= *)
(** ** Transmit operation: [handle_sdu] *)

Definition discard_timer_configured (t : pdcp_discard_timer) : bool :=
  match t with
  | ms _ => true
  | not_configured | infinity => false
  end.

(** [static_cast<uint32_t>(cfg.discard_timer)] of a duration; the guard of
    [handle_sdu] keeps the two sentinels away from the cast. *)
Definition discard_timer_to_uint32 (t : pdcp_discard_timer) : Z :=
  match t with
  | ms n => wrap32 n
  | not_configured | infinity => 0
  end.

Definition handle_sdu (ctx : pdcp_entity_tx_ctx) (st : pdcp_entity_tx)
    (sdu : byte_buffer) : list event * option pdcp_entity_tx :=
  let st := metrics_add_sdus st 1 (buf_length sdu) in
  if hard (max_count (cfg ctx)) <=? tx_next st then
    if negb (max_count_overflow st) then
      ([ev_log log_error "Reached maximum COUNT, refusing to transmit further. COUNT={}";
        ev_on_protocol_failure],
       Some (set_max_count_overflow st true))
    else ([], Some st)
  else
    let '(st, ev_n) :=
      if notify (max_count (cfg ctx)) <=? tx_next st then
        if negb (max_count_notified st) then
          (set_max_count_notified st true,
           [ev_log log_warning "Approaching COUNT wrap-around, notifying RRC. COUNT={}";
            ev_on_max_count_reached])
        else (st, [])
      else (st, []) in
    (* Prepare header *)
    let hdr := {| sn := SN ctx (tx_next st) |} in
    (* Pack header *)
    match write_data_pdu_header ctx [] hdr with
    | None => (ev_n, None)
    | Some (header_buf, ev_h) =>
        (* Apply ciphering and integrity protection *)
        let '(protected_buf, ev_p) :=
          apply_ciphering_and_integrity_protection ctx header_buf sdu (tx_next st) in
        (* Start discard timer. If using RLC AM, we store
           the PDU to use later in the data recovery procedure. *)
        let '(st, ev_t) :=
          if discard_timer_configured (discard_timer (cfg ctx)) then
            let timer :=
              {| timer_id := timers_created st;
                 timer_duration := discard_timer_to_uint32 (discard_timer (cfg ctx));
                 timer_discard_count := tx_next st |} in
            let st := set_timers_created st (timers_created st + 1) in
            let info :=
              match rlc_mode (cfg ctx) with
              | um => {| info_buf := []; info_timer := timer |}
              | am => {| info_buf := protected_buf; info_timer := timer |}
              end in
            (set_discard_timers_map st
               (map_insert (tx_next st) info (discard_timers_map st)),
             [ev_log log_debug "Discard timer set for COUNT {}. Timeout: {}ms"])
          else (st, []) in
        (* Write to lower layers *)
        let '(st, ev_w) :=
          write_data_pdu_to_lower_layers ctx st (tx_next st) protected_buf in
        (* Increment TX_NEXT *)
        (ev_n ++ ev_h ++ ev_p ++ ev_t ++ ev_w,
         Some (set_tx_next st (wrap32 (tx_next st + 1))))
    end.

(* ================================================================= *)
(** ** The bit decoder *)

(** Modelled from the spec: [bit_decoder] (srsgnb/support/bit_encoding.h) is
    not among the sources.  The stream is read in network bit order, the most
    significant bit of each byte first.  [unpack val n] reads [n] bits into
    [val], most significant first, and returns whether the stream held them,
    as the loop condition of [handle_status_report] uses it.  What a read
    that fails leaves in [val] is not said by the spec: here [val] is built up
    as the stream is consumed, so the bits that were read stay in it, at the
    places they have in an [n]-bit field, and the stream is left at its
    end. *)
Definition bit_decoder := list bool.

Definition byte_to_bits (b : Z) : list bool :=
  map (fun i => Z.testbit b i) [7; 6; 5; 4; 3; 2; 1; 0].

Definition bit_decoder_init (b : byte_buffer) : bit_decoder :=
  flat_map byte_to_bits b.

Definition bits_to_Z (bits : list bool) : Z :=
  fold_left (fun acc (b : bool) => 2 * acc + (if b then 1 else 0)) bits 0.

Definition unpack (dec : bit_decoder) (n : nat) : bool * Z * bit_decoder :=
  let taken := firstn n dec in
  (Nat.leb n (length dec),
   Z.shiftl (bits_to_Z taken) (Z.of_nat (n - length taken)),
   skipn n dec).

(* ================================================================= *)
(** ** Status-report ingress: [handle_status_report] *)

(** [to_number(pdcp_dc_field::control)] and
    [to_number(pdcp_control_pdu_type::status_report)]: the enumerations are
    not among the sources; both values are 0 (D/C = control (0),
    CPT = status_report (0)). *)
Definition pdcp_dc_field_control : Z := 0.
Definition pdcp_control_pdu_type_status_report : Z := 0.

(** The first loop: discard any SDU with COUNT < FMC. *)
Fixpoint discard_below (fmc : Z) (m : discard_map) : discard_map * list event :=
  match m with
  | [] => ([], [])
  | (c, info) :: rest =>
      let '(m', ev) := discard_below fmc rest in
      if c <? fmc then
        (m', ev_log log_debug "Discarding SDU with COUNT={}"
               :: ev_on_discard_pdu c :: ev)
      else ((c, info) :: m', ev)
  end.

(** The second loop, [while (dec.unpack(bit, 1))]: each turn takes the next
    bit of the stream, and the loop ends when the stream does. *)
Fixpoint evaluate_bitmap (dec : bit_decoder) (fmc : Z) (m : discard_map)
    : discard_map * list event :=
  match dec with
  | [] => (m, [])
  | bit :: dec' =>
      let fmc := wrap32 (fmc + 1) in
      if bit then
        let '(m', ev) := evaluate_bitmap dec' fmc (map_erase fmc m) in
        (m', ev_log log_debug "Discarding SDU with COUNT={}"
               :: ev_on_discard_pdu fmc :: ev)
      else evaluate_bitmap dec' fmc m
  end.

Definition handle_status_report (st : pdcp_entity_tx) (status : byte_buffer)
    : list event * pdcp_entity_tx :=
  let b := status in
  let dec := bit_decoder_init b in
  (* Unpack and check PDU header *)
  let '(_, dc, dec) := unpack dec 1 in
  if negb (dc =? pdcp_dc_field_control) then
    ([ev_log log_warning
        "Cannot handle status report due to invalid D/C field: Expected {}, Got {}"],
     st)
  else
    let '(_, cpt, dec) := unpack dec 3 in
    if negb (cpt =? pdcp_control_pdu_type_status_report) then
      ([ev_log log_warning
          "Cannot handle status report due to invalid control PDU type: Expected {}, Got {}"],
       st)
    else
      let '(_, reserved, dec) := unpack dec 4 in
      if negb (reserved =? 0) then
        ([ev_log log_warning "Ignoring status report because reserved bits are set: {}"],
         st)
      else
        (* Unpack FMC field *)
        let '(_, fmc, dec) := unpack dec 32 in
        (* Discard any SDU with COUNT < FMC *)
        let '(m1, ev1) := discard_below fmc (discard_timers_map st) in
        (* Evaluate bitmap: discard any SDU with the bit in the bitmap set to 1 *)
        let '(m2, ev2) := evaluate_bitmap dec fmc m1 in
        (ev_log log_info "Received PDCP status report with FMC={}" :: ev1 ++ ev2,
         set_discard_timers_map st m2).

(* ================================================================= *)
(** ** Status report and data recovery *)

(** [report] is what [status_provider->compile_status_report()] returns at
    this call. *)
Definition send_status_report (ctx : pdcp_entity_tx_ctx) (st : pdcp_entity_tx)
    (report : byte_buffer) : list event * pdcp_entity_tx :=
  if status_report_required (cfg ctx) then
    let '(st, ev) := write_control_pdu_to_lower_layers st report in
    (ev_log log_info "Status report triggered" :: ev, st)
  else
    ([ev_log log_warning "Status report triggered but not configured"], st).

(** The loop of [data_recovery] over the map, in ascending key order. *)
Fixpoint recover_pdus (ctx : pdcp_entity_tx_ctx) (st : pdcp_entity_tx)
    (entries : discard_map) : list event * pdcp_entity_tx :=
  match entries with
  | [] => ([], st)
  | (c, info) :: rest =>
      let '(st, ev) := write_data_pdu_to_lower_layers ctx st c (info_buf info) in
      let '(ev', st) := recover_pdus ctx st rest in
      (ev ++ ev', st)
  end.

Definition rlc_mode_is_am (m : pdcp_rlc_mode) : bool :=
  match m with am => true | um => false end.

Definition data_recovery (ctx : pdcp_entity_tx_ctx) (st : pdcp_entity_tx)
    (report : byte_buffer) : list event * option pdcp_entity_tx :=
  match srsgnb_assert (is_drb ctx && rlc_mode_is_am (rlc_mode (cfg ctx))) with
  | None => ([], None)
  | Some _ =>
      let '(ev_s, st) :=
        if status_report_required (cfg ctx)
        then send_status_report ctx st report
        else ([], st) in
      let '(ev_r, st) := recover_pdus ctx st (discard_timers_map st) in
      (ev_log log_info "Data recovery requested" :: ev_s ++ ev_r, Some st)
  end.

(* ================================================================= *)
(** ** Timers: the discard timer callback *)

Definition discard_callback (st : pdcp_entity_tx) (discard_count : Z)
    : list event * pdcp_entity_tx :=
  let st := metrics_add_discard_timouts st 1 in
  ([ev_log log_debug "Discard timer expired for PDU with COUNT={}";
    (* Notify the RLC of the discard. *)
    ev_on_discard_pdu discard_count],
   (* Remove timer from map *)
   set_discard_timers_map st (map_erase discard_count (discard_timers_map st))).

(* ================================================================= *)
(** ** Runs of the entity *)

(** What the environment does to the entity: the calls of its API, each with
    its inputs, and the expiry of a discard timer.  The status-report
    operations carry the bytes the status provider compiles at that call. *)
Inductive op :=
| op_handle_sdu (sdu : byte_buffer)
| op_handle_status_report (status : byte_buffer)
| op_send_status_report (report : byte_buffer)
| op_data_recovery (report : byte_buffer)
| op_discard_timer_expired (count : Z).

(** A timer exists only while its entry is in the map, so the expiry of a
    timer that is not there does not occur. *)
Definition step (ctx : pdcp_entity_tx_ctx) (st : pdcp_entity_tx) (o : op)
    : list event * option pdcp_entity_tx :=
  match o with
  | op_handle_sdu sdu => handle_sdu ctx st sdu
  | op_handle_status_report status =>
      let '(ev, st) := handle_status_report st status in (ev, Some st)
  | op_send_status_report report =>
      let '(ev, st) := send_status_report ctx st report in (ev, Some st)
  | op_data_recovery report => data_recovery ctx st report
  | op_discard_timer_expired c =>
      if map_mem c (discard_timers_map st) then
        let '(ev, st) := discard_callback st c in (ev, Some st)
      else ([], Some st)
  end.

Record log_entry := {
  le_op : op;
  le_pre : pdcp_entity_tx;
  le_events : list event;
  le_post : option pdcp_entity_tx
}.

(** The run of a sequence of operations: one entry per operation executed;
    a fault ends the run. *)
Fixpoint run (ctx : pdcp_entity_tx_ctx) (st : pdcp_entity_tx) (ops : list op)
    : list log_entry :=
  match ops with
  | [] => []
  | o :: ops' =>
      let '(ev, r) := step ctx st o in
      {| le_op := o; le_pre := st; le_events := ev; le_post := r |} ::
      match r with
      | Some st' => run ctx st' ops'
      | None => []
      end
  end.

Definition trace_of (log : list log_entry) : list event :=
  flat_map le_events log.

(** The entity after the run, when no fault ended it. *)
Fixpoint final_state (st : pdcp_entity_tx) (log : list log_entry)
    : option pdcp_entity_tx :=
  match log with
  | [] => Some st
  | e :: log' =>
      match le_post e with
      | Some st' => final_state st' log'
      | None => None
      end
  end.

(* ================================================================= *)
(** ** Observations on traces *)

Definition new_pdus (tr : list event) : list pdcp_tx_pdu :=
  flat_map (fun e => match e with ev_on_new_pdu p => [p] | _ => [] end) tr.

Definition pdu_counts (tr : list event) : list Z :=
  flat_map (fun p => match pdcp_count p with Some c => [c] | None => [] end)
           (new_pdus tr).

Definition discarded_pdus (tr : list event) : list Z :=
  flat_map (fun e => match e with ev_on_discard_pdu c => [c] | _ => [] end) tr.

Definition protocol_failures (tr : list event) : nat :=
  length (filter (fun e => match e with ev_on_protocol_failure => true | _ => false end) tr).

Definition max_count_notifications (tr : list event) : nat :=
  length (filter (fun e => match e with ev_on_max_count_reached => true | _ => false end) tr).

Definition logged (lvl : log_level) (tr : list event) : nat :=
  length (filter (fun e =>
            match e, lvl with
            | ev_log log_error _, log_error
            | ev_log log_warning _, log_warning
            | ev_log log_info _, log_info
            | ev_log log_debug _, log_debug => true
            | _, _ => false
            end) tr).

Definition is_handle_sdu (o : op) : bool :=
  match o with op_handle_sdu _ => true | _ => false end.

(** The events of the [handle_sdu] calls of a run. *)
Definition sdu_trace_of (log : list log_entry) : list event :=
  flat_map (fun e => if is_handle_sdu (le_op e) then le_events e else []) log.

(** [count_from t k] is t, t+1, ..., t+k-1. *)
Fixpoint count_from (t : Z) (k : nat) : list Z :=
  match k with
  | O => []
  | S k' => t :: count_from (t + 1) k'
  end.

Fixpoint strictly_increasing (l : list Z) : Prop :=
  match l with
  | [] => True
  | x :: l' =>
      match l' with
      | [] => True
      | y :: _ => x < y /\ strictly_increasing l'
      end
  end.

(* ================================================================= *)
(** ** Sample entities *)

(** Stand-ins for the security algorithms, used to run the entity on
    concrete inputs. *)
Definition sample_mac (tag : Z) (key : sec_128_as_key) (count bearer : Z)
    (dir : security_direction) (msg : byte_buffer) : sec_mac :=
  [tag;
   to_uint8 (fold_left Z.add msg count);
   to_uint8 (bearer + fold_left Z.add key 0);
   match dir with uplink => 0 | downlink => 1 end].

Definition sample_enc (tag : Z) (key : sec_128_as_key) (count bearer : Z)
    (dir : security_direction) (msg : byte_buffer) : byte_buffer :=
  map (fun b => Z.lxor b (to_uint8 (tag + count + bearer + fold_left Z.add key 0))) msg.

Definition sample_sec : security_lib :=
  {| security_nia1 := sample_mac 1;
     security_nia2 := sample_mac 2;
     security_nia3 := sample_mac 3;
     security_nea1 := sample_enc 1;
     security_nea2 := sample_enc 2;
     security_nea3 := sample_enc 3 |}.

Definition sample_sec_cfg (ia : integrity_algorithm) (ca : ciphering_algorithm)
    : sec_128_as_config :=
  {| k_128_rrc_int := [1; 2; 3];
     k_128_rrc_enc := [4; 5; 6];
     k_128_up_int := [7; 8; 9];
     k_128_up_enc := [10; 11; 12];
     integ_algo := ia;
     cipher_algo := ca |}.

Definition sample_ctx (rb : pdcp_rb_type) (mode : pdcp_rlc_mode)
    (size : pdcp_sn_size) (timer : pdcp_discard_timer) (srr : bool)
    (n h : Z) (ia : integrity_algorithm) (ca : ciphering_algorithm)
    (ie ce : bool) : pdcp_entity_tx_ctx :=
  {| cfg := {| rb_type := rb; rlc_mode := mode; sn_size := size;
               discard_timer := timer; status_report_required := srr;
               max_count := {| notify := n; hard := h |} |};
     sec_cfg := sample_sec_cfg ia ca;
     lcid := 4;
     direction := downlink;
     integrity_enabled := ie;
     ciphering_enabled := ce;
     sec := sample_sec |}.

(** A DRB over RLC AM with 12-bit SN and a 10 ms discard timer. *)
Definition drb_am_ctx (srr : bool) (n h : Z) : pdcp_entity_tx_ctx :=
  sample_ctx drb am size12bits (ms 10) srr n h nia0 nea0 true false.

(* ================================================================= *)
(** ** The wire format of the data-PDU header, read back *)

(** Modelled from the spec: the reader of the data-PDU header belongs to the
    receiving entity, which is not among the sources.  The header is 2 bytes
    for a 12-bit SN and 3 bytes for an 18-bit SN; bit 7 of byte 0 is D/C
    (1 for DRB, 0 for SRB); 12-bit SN: byte0[3:0] = SN[11:8], byte1 = SN[7:0];
    18-bit SN: byte0[1:0] = SN[17:16], byte1 = SN[15:8], byte2 = SN[7:0]. *)
Definition read_data_pdu_header (b : byte_buffer)
    : option (pdcp_rb_type * pdcp_sn_size * Z) :=
  match b with
  | [b0; b1] =>
      Some (if Z.testbit b0 7 then drb else srb, size12bits,
            Z.land b0 0x0f * 2 ^ 8 + b1)
  | [b0; b1; b2] =>
      Some (if Z.testbit b0 7 then drb else srb, size18bits,
            Z.land b0 0x03 * 2 ^ 16 + b1 * 2 ^ 8 + b2)
  | _ => None
  end.

(** The layout of a header of a 12-bit SN. *)
Definition header12_layout (kind : pdcp_rb_type) (s : Z) (b : byte_buffer) : Prop :=
  exists b0 b1,
    b = [b0; b1] /\
    Z.testbit b0 7 = (match kind with drb => true | srb => false end) /\
    Z.land b0 0x70 = 0 /\
    Z.land b0 0x0f = Z.shiftr s 8 /\
    b1 = Z.land s 0xff.

(** The layout of a header of an 18-bit SN. *)
Definition header18_layout (kind : pdcp_rb_type) (s : Z) (b : byte_buffer) : Prop :=
  exists b0 b1 b2,
    b = [b0; b1; b2] /\
    Z.testbit b0 7 = (match kind with drb => true | srb => false end) /\
    Z.land b0 0x7c = 0 /\
    Z.land b0 0x03 = Z.shiftr s 16 /\
    b1 = Z.land (Z.shiftr s 8) 0xff /\
    b2 = Z.land s 0xff.

(** A valid triple (bearer kind, sn_size, sn): 12 or 18 bits, an SRB only
    with 12, and the SN within its size. *)
Definition valid_header_triple (kind : pdcp_rb_type) (size : pdcp_sn_size) (s : Z) : Prop :=
  match size with
  | size12bits => 0 <= s < 2 ^ 12
  | size18bits => kind = drb /\ 0 <= s < 2 ^ 18
  | size_other _ => False
  end.

Definition header_layout (kind : pdcp_rb_type) (size : pdcp_sn_size) (s : Z)
    (b : byte_buffer) : Prop :=
  match size with
  | size12bits => header12_layout kind s b
  | size18bits => header18_layout kind s b
  | size_other _ => False
  end.

(* ================================================================= *)
(** ** The security pipeline, as the specification words it *)

Definition integrity_key (ctx : pdcp_entity_tx_ctx) : sec_128_as_key :=
  if is_srb ctx then k_128_rrc_int (sec_cfg ctx) else k_128_up_int (sec_cfg ctx).

Definition ciphering_key (ctx : pdcp_entity_tx_ctx) : sec_128_as_key :=
  if is_srb ctx then k_128_rrc_enc (sec_cfg ctx) else k_128_up_enc (sec_cfg ctx).

(** The MAC-I field: computed over header ‖ sdu when integrity is enabled,
    all-zero for nia0; when integrity is disabled none is generated and the
    field stays all-zero. *)
Definition mac_i_spec (ctx : pdcp_entity_tx_ctx) (hdr sdu : byte_buffer) (count : Z)
    : sec_mac :=
  if integrity_enabled ctx then
    match integ_algo (sec_cfg ctx) with
    | nia0 => [0; 0; 0; 0]
    | nia1 => security_nia1 (sec ctx) (integrity_key ctx) count (lcid ctx - 1)
                (direction ctx) (hdr ++ sdu)
    | nia2 => security_nia2 (sec ctx) (integrity_key ctx) count (lcid ctx - 1)
                (direction ctx) (hdr ++ sdu)
    | nia3 => security_nia3 (sec ctx) (integrity_key ctx) count (lcid ctx - 1)
                (direction ctx) (hdr ++ sdu)
    end
  else [0; 0; 0; 0].

(** The MAC-I is appended iff the bearer is an SRB, or a DRB with integrity
    enabled. *)
Definition mac_i_appended (ctx : pdcp_entity_tx_ctx) : bool :=
  match rb_type (cfg ctx) with
  | srb => true
  | drb => integrity_enabled ctx
  end.

Definition plaintext_spec (ctx : pdcp_entity_tx_ctx) (hdr sdu : byte_buffer) (count : Z)
    : byte_buffer :=
  if mac_i_appended ctx then sdu ++ mac_i_spec ctx hdr sdu count else sdu.

(** The encryption of the plaintext under (key, count, bearer_id, direction)
    for nea1/2/3 when ciphering is enabled; the plaintext itself when
    ciphering is disabled or the algorithm is nea0. *)
Definition ciphertext_spec (ctx : pdcp_entity_tx_ctx) (plaintext : byte_buffer) (count : Z)
    : byte_buffer :=
  if ciphering_enabled ctx then
    match cipher_algo (sec_cfg ctx) with
    | nea0 => plaintext
    | nea1 => security_nea1 (sec ctx) (ciphering_key ctx) count (lcid ctx - 1)
                (direction ctx) plaintext
    | nea2 => security_nea2 (sec ctx) (ciphering_key ctx) count (lcid ctx - 1)
                (direction ctx) plaintext
    | nea3 => security_nea3 (sec ctx) (ciphering_key ctx) count (lcid ctx - 1)
                (direction ctx) plaintext
    end
  else plaintext.

Definition protected_pdu_spec (ctx : pdcp_entity_tx_ctx) (hdr sdu : byte_buffer) (count : Z)
    : byte_buffer :=
  hdr ++ ciphertext_spec ctx (plaintext_spec ctx hdr sdu count) count.

(* ================================================================= *)
(** ** Auxiliary notions for the properties *)

(** Events that reach neither [lower_dn] nor [upper_cn]. *)
Definition quiet (ev : list event) : Prop :=
  new_pdus ev = [] /\ discarded_pdus ev = [] /\
  protocol_failures ev = 0%nat /\ max_count_notifications ev = 0%nat.

(** The discard-map entry [handle_sdu] makes for the PDU it sends. *)
Definition discard_entry (ctx : pdcp_entity_tx_ctx) (st : pdcp_entity_tx)
    (pdu : byte_buffer) : discard_info :=
  {| info_buf := match rlc_mode (cfg ctx) with um => [] | am => pdu end;
     info_timer :=
       {| timer_id := timers_created st;
          timer_duration := discard_timer_to_uint32 (discard_timer (cfg ctx));
          timer_discard_count := tx_next st |} |}.

(** The sanity check of [write_data_pdu_header]: no SRB with an 18-bit SN. *)
Definition header_ok (ctx : pdcp_entity_tx_ctx) : bool :=
  negb (is_srb ctx && sn_is_18bits (sn_size (cfg ctx))).

(** [handle_sdu] is called between the notification threshold and the hard
    one. *)
Definition in_soft_window (ctx : pdcp_entity_tx_ctx) (st : pdcp_entity_tx) : bool :=
  (notify (max_count (cfg ctx)) <=? tx_next st) &&
  (tx_next st <? hard (max_count (cfg ctx))).

Definition at_hard_limit (ctx : pdcp_entity_tx_ctx) (st : pdcp_entity_tx) : bool :=
  hard (max_count (cfg ctx)) <=? tx_next st.

(** Two entities that differ in their metrics at most. *)
Definition unchanged_but_metrics (st st' : pdcp_entity_tx) : Prop :=
  tx_next st' = tx_next st /\
  max_count_overflow st' = max_count_overflow st /\
  max_count_notified st' = max_count_notified st /\
  discard_timers_map st' = discard_timers_map st /\
  timers_created st' = timers_created st.

(** The data PDU that [data_recovery] writes for a map entry. *)
Definition recovered_pdu (ctx : pdcp_entity_tx_ctx) (entry : Z * discard_info)
    : pdcp_tx_pdu :=
  {| buf := info_buf (snd entry);
     pdcp_count := if is_drb ctx then Some (fst entry) else None |}.

Definition control_pdu (b : byte_buffer) : pdcp_tx_pdu :=
  {| buf := b; pdcp_count := None |}.

(** A call of [handle_sdu] made between the two thresholds, and one made at
    or above the hard threshold. *)
Definition soft_call (ctx : pdcp_entity_tx_ctx) (e : log_entry) : bool :=
  is_handle_sdu (le_op e) && in_soft_window ctx (le_pre e).

Definition hard_call (ctx : pdcp_entity_tx_ctx) (e : log_entry) : bool :=
  is_handle_sdu (le_op e) && at_hard_limit ctx (le_pre e).

Definition mk_entry (o : op) (st : pdcp_entity_tx) (ev : list event)
    (r : option pdcp_entity_tx) : log_entry :=
  {| le_op := o; le_pre := st; le_events := ev; le_post := r |}.

(** One SDU sent on an AM DRB, then a data recovery. *)
Definition recovery_run : list log_entry :=
  run (drb_am_ctx false 100 200) (init_entity 0)
      [op_handle_sdu [0xaa]; op_data_recovery []].

(** An AM DRB with the hard threshold at 1: one SDU sent, one refused, then
    a data recovery. *)
Definition hard_stop_run : list log_entry :=
  run (drb_am_ctx false 100 1) (init_entity 0)
      [op_handle_sdu [0xaa]; op_handle_sdu [0xbb]; op_data_recovery []].

(** The PDUs that an operation hands down once TX_NEXT has reached the hard
    threshold: none from [handle_sdu], the status report from
    [send_status_report], and from [data_recovery] the status report and the
    cached PDUs. *)
Definition pdus_at_hard_limit (ctx : pdcp_entity_tx_ctx) (st : pdcp_entity_tx)
    (o : op) : list pdcp_tx_pdu :=
  match o with
  | op_handle_sdu _ | op_handle_status_report _ | op_discard_timer_expired _ => []
  | op_send_status_report report =>
      if status_report_required (cfg ctx) then [control_pdu report] else []
  | op_data_recovery report =>
      if is_drb ctx && rlc_mode_is_am (rlc_mode (cfg ctx)) then
        (if status_report_required (cfg ctx) then [control_pdu report] else [])
        ++ map (recovered_pdu ctx) (discard_timers_map st)
      else []
  end.

(** The COUNTs that a bitmap acknowledges: the working COUNT is incremented
    before each bit, and a bit set to 1 names it. *)
Fixpoint acked_counts (bits : list bool) (fmc : Z) : list Z :=
  match bits with
  | [] => []
  | bit :: bits' =>
      let fmc := wrap32 (fmc + 1) in
      if bit then fmc :: acked_counts bits' fmc else acked_counts bits' fmc
  end.

Definition acked (bits : list bool) (fmc : Z) (c : Z) : bool :=
  existsb (Z.eqb c) (acked_counts bits fmc).

(** The entry that was made for the PDU [pdu] with COUNT [c] is in the
    history [H]: a call of [handle_sdu] there handed exactly that PDU down. *)
Definition delivered_by_handle_sdu (H : list log_entry) (c : Z) (pdu : byte_buffer)
    : Prop :=
  exists e0 sdu,
    In e0 H /\ le_op e0 = op_handle_sdu sdu /\
    new_pdus (le_events e0) = [{| buf := pdu; pdcp_count := Some c |}].

(** The invariant of the discard map on an AM DRB: ascending COUNTs, and
    in each entry the bytes that went down for its COUNT. *)
Definition cache_invariant (H : list log_entry) (st : pdcp_entity_tx) : Prop :=
  StronglySorted Z.lt (map_keys (discard_timers_map st)) /\
  forall c info,
    In (c, info) (discard_timers_map st) ->
    delivered_by_handle_sdu H c (info_buf info).

(** An entity with entries in its discard map, for the examples. *)
Definition sample_info (c : Z) : discard_info :=
  {| info_buf := [0x80; c];
     info_timer := {| timer_id := c; timer_duration := 10; timer_discard_count := c |} |}.

Definition sample_entity (keys : list Z) (t : Z) : pdcp_entity_tx :=
  set_discard_timers_map (init_entity t) (map (fun c => (c, sample_info c)) keys).

(** The run of an AM DRB that sends two SDUs and then recovers, and its
    last entry. *)
Definition two_sdus_recovery_run : list log_entry :=
  run (drb_am_ctx true 100 200) (init_entity 0)
      [op_handle_sdu [0xaa]; op_handle_sdu [0xbb]; op_data_recovery [0; 0; 0; 0; 0]].

Definition idle_entry : log_entry :=
  mk_entry (op_discard_timer_expired 0) (init_entity 0) [] (Some (init_entity 0)).

(* ================================================================= *)
(** ** Further notions: configurations that differ in one member *)

(** The entity with another security configuration, all else equal. *)
Definition with_sec_cfg (ctx : pdcp_entity_tx_ctx) (sc : sec_128_as_config)
    : pdcp_entity_tx_ctx :=
  {| cfg := cfg ctx;
     sec_cfg := sc;
     lcid := lcid ctx;
     direction := direction ctx;
     integrity_enabled := integrity_enabled ctx;
     ciphering_enabled := ciphering_enabled ctx;
     sec := sec ctx |}.

(** The entity with ciphering switched on or off, all else equal. *)
Definition with_ciphering_enabled (ctx : pdcp_entity_tx_ctx) (on : bool)
    : pdcp_entity_tx_ctx :=
  {| cfg := cfg ctx;
     sec_cfg := sec_cfg ctx;
     lcid := lcid ctx;
     direction := direction ctx;
     integrity_enabled := integrity_enabled ctx;
     ciphering_enabled := on;
     sec := sec ctx |}.

(** The length of the header that [write_data_pdu_header] packs, and the
    bits of its first byte that hold neither D/C nor SN. *)
Definition header_length (s : pdcp_sn_size) : nat :=
  match s with
  | size12bits => 2
  | size18bits => 3
  | size_other _ => 1
  end.

Definition header_reserved_mask (s : pdcp_sn_size) : Z :=
  match s with
  | size12bits => 0x70
  | size18bits => 0x7c
  | size_other _ => 0x7f
  end.

(* ================================================================= *)
(** ** Further notions: what a run adds up to *)

(** The bytes of the PDUs handed to [lower_dn.on_new_pdu]. *)
Definition pdu_bytes (tr : list event) : Z :=
  fold_right (fun p acc => buf_length (buf p) + acc) 0 (new_pdus tr).

(** The SDUs submitted in a run, and their bytes. *)
Definition sdus_submitted (log : list log_entry) : Z :=
  Z.of_nat (length (filter (fun e => is_handle_sdu (le_op e)) log)).

Definition sdu_bytes_submitted (log : list log_entry) : Z :=
  fold_right (fun e acc =>
                match le_op e with
                | op_handle_sdu sdu => buf_length sdu + acc
                | _ => acc
                end) 0 log.

(** The COUNTs discarded by the timer callback in a run. *)
Definition timer_discards (log : list log_entry) : list Z :=
  flat_map (fun e =>
              match le_op e with
              | op_discard_timer_expired _ => discarded_pdus (le_events e)
              | _ => []
              end) log.

(** The entity at the end of a run; the constructed entity when a fault
    ended the run. *)
Definition state_after (ctx : pdcp_entity_tx_ctx) (t0 : Z) (ops : list op)
    : pdcp_entity_tx :=
  match final_state (init_entity t0) (run ctx (init_entity t0) ops) with
  | Some st => st
  | None => init_entity t0
  end.



(* ================================================================= *)
(** * Properties *)

Arguments wrap32 : simpl never.
Arguments to_uint8 : simpl never.

(* ================================================================= *)
(** ** Traces *)

Lemma new_pdus_app (a b : list event) : new_pdus (a ++ b) = new_pdus a ++ new_pdus b.
Proof. unfold new_pdus. apply flat_map_app. Qed.

Lemma pdu_counts_app (a b : list event) : pdu_counts (a ++ b) = pdu_counts a ++ pdu_counts b.
Proof. unfold pdu_counts. rewrite new_pdus_app. apply flat_map_app. Qed.

Lemma discarded_pdus_app (a b : list event) :
  discarded_pdus (a ++ b) = discarded_pdus a ++ discarded_pdus b.
Proof. unfold discarded_pdus. apply flat_map_app. Qed.

Lemma protocol_failures_app (a b : list event) :
  protocol_failures (a ++ b) = (protocol_failures a + protocol_failures b)%nat.
Proof. unfold protocol_failures. rewrite filter_app, length_app. reflexivity. Qed.

Lemma max_count_notifications_app (a b : list event) :
  max_count_notifications (a ++ b)
  = (max_count_notifications a + max_count_notifications b)%nat.
Proof. unfold max_count_notifications. rewrite filter_app, length_app. reflexivity. Qed.

(* ================================================================= *)
(** ** The header codec *)

Lemma sn12_fields (s : Z) :
  0 <= s < 2 ^ 12 ->
  Z.shiftr (Z.land s 0x00000f00) 8 = s / 256 /\
  Z.land s 0x000000ff = s mod 256 /\
  Z.shiftr s 8 = s / 256.
Proof.
  intros Hs.
  rewrite !Z.shiftr_land.
  change (Z.shiftr 3840 8) with (Z.ones 4).
  change 255 with (Z.ones 8).
  rewrite !Z.land_ones by lia.
  rewrite !Z.shiftr_div_pow2 by lia.
  change (2 ^ 8) with 256. change (2 ^ 4) with 16.
  change (2 ^ 12) with 4096 in Hs.
  repeat split; try reflexivity.
  Z.div_mod_to_equations. lia.
Qed.

Lemma sn18_fields (s : Z) :
  0 <= s < 2 ^ 18 ->
  Z.shiftr (Z.land s 0x00030000) 16 = s / 65536 /\
  Z.shiftr (Z.land s 0x0000ff00) 8 = (s / 256) mod 256 /\
  Z.land s 0x000000ff = s mod 256 /\
  Z.shiftr s 16 = s / 65536 /\
  Z.land (Z.shiftr s 8) 0xff = (s / 256) mod 256.
Proof.
  intros Hs.
  rewrite !Z.shiftr_land.
  change (Z.shiftr 196608 16) with (Z.ones 2).
  change (Z.shiftr 65280 8) with (Z.ones 8).
  change 255 with (Z.ones 8).
  rewrite !Z.land_ones by lia.
  rewrite !Z.shiftr_div_pow2 by lia.
  change (2 ^ 16) with 65536. change (2 ^ 8) with 256. change (2 ^ 2) with 4.
  change (2 ^ 18) with 262144 in Hs.
  repeat split; try reflexivity.
  Z.div_mod_to_equations. lia.
Qed.

Lemma to_uint8_small (z : Z) : 0 <= z < 256 -> to_uint8 z = z.
Proof. intros H. unfold to_uint8. apply Z.mod_small. change (2 ^ 8) with 256. lia. Qed.

(** The first header byte: the D/C bit over the top bits of the SN. *)
Lemma top_byte_12 (dc : bool) (h : Z) :
  0 <= h < 16 ->
  let b0 := to_uint8 (Z.lor (if dc then 0x80 else 0x00) h) in
  Z.testbit b0 7 = dc /\ Z.land b0 0x70 = 0 /\ Z.land b0 0x0f = h.
Proof.
  intros Hh.
  assert (E : h = 0 \/ h = 1 \/ h = 2 \/ h = 3 \/ h = 4 \/ h = 5 \/ h = 6 \/ h = 7 \/
              h = 8 \/ h = 9 \/ h = 10 \/ h = 11 \/ h = 12 \/ h = 13 \/ h = 14 \/ h = 15)
    by lia.
  repeat (destruct E as [E|E]); subst h; destruct dc; vm_compute; auto.
Qed.

Lemma top_byte_18 (dc : bool) (h : Z) :
  0 <= h < 4 ->
  let b0 := to_uint8 (Z.lor (if dc then 0x80 else 0x00) h) in
  Z.testbit b0 7 = dc /\ Z.land b0 0x7c = 0 /\ Z.land b0 0x03 = h.
Proof.
  intros Hh.
  assert (E : h = 0 \/ h = 1 \/ h = 2 \/ h = 3) by lia.
  repeat (destruct E as [E|E]); subst h; destruct dc; vm_compute; auto.
Qed.

Lemma write_header_12 (ctx : pdcp_entity_tx_ctx) (s : Z) :
  sn_size (cfg ctx) = size12bits ->
  write_data_pdu_header ctx [] {| sn := s |}
  = Some ([to_uint8 (Z.lor (if is_drb ctx then 0x80 else 0x00)
                           (Z.shiftr (Z.land s 0x00000f00) 8));
           to_uint8 (Z.land s 0x000000ff)], []).
Proof.
  intros Hs. unfold write_data_pdu_header, srsgnb_assert. rewrite Hs.
  rewrite andb_false_r. destruct (is_drb ctx); reflexivity.
Qed.

Lemma write_header_18 (ctx : pdcp_entity_tx_ctx) (s : Z) :
  sn_size (cfg ctx) = size18bits ->
  rb_type (cfg ctx) = drb ->
  write_data_pdu_header ctx [] {| sn := s |}
  = Some ([to_uint8 (Z.lor 0x80 (Z.shiftr (Z.land s 0x00030000) 16));
           to_uint8 (Z.shiftr (Z.land s 0x0000ff00) 8);
           to_uint8 (Z.land s 0x000000ff)], []).
Proof.
  intros Hs Hk. unfold write_data_pdu_header, is_srb, is_drb. rewrite Hs, Hk.
  reflexivity.
Qed.

(** C8. Header encoding is a round trip: for a valid triple (bearer kind,
    SN size 12 or 18 with an SRB only on 12, SN below 2^size) the writer
    produces the layout of the wire format (bit 7 of byte 0 is D/C, the other
    bits of byte 0 are zero but for the top bits of the SN; byte0[3:0] =
    SN[11:8] and byte1 = SN[7:0] for 12 bits; byte0[1:0] = SN[17:16], byte1 =
    SN[15:8] and byte2 = SN[7:0] for 18 bits), and reading the bytes back
    gives the same triple. *)
Theorem header_roundtrip (ctx : pdcp_entity_tx_ctx) (s : Z) :
  valid_header_triple (rb_type (cfg ctx)) (sn_size (cfg ctx)) s ->
  exists bytes,
    write_data_pdu_header ctx [] {| sn := s |} = Some (bytes, []) /\
    header_layout (rb_type (cfg ctx)) (sn_size (cfg ctx)) s bytes /\
    read_data_pdu_header bytes = Some (rb_type (cfg ctx), sn_size (cfg ctx), s).
Proof.
  unfold valid_header_triple, header_layout.
  destruct (sn_size (cfg ctx)) eqn:Hsize; intros Hv.
  - (* 12 bits *)
    rewrite (write_header_12 ctx s Hsize).
    destruct (sn12_fields s Hv) as (Htop & Hlow & Hshr).
    rewrite Htop, Hlow.
    assert (Hh : 0 <= s / 256 < 16).
    { change (2 ^ 12) with 4096 in Hv. Z.div_mod_to_equations. lia. }
    assert (Hl : 0 <= s mod 256 < 256) by (apply Z.mod_pos_bound; lia).
    destruct (top_byte_12 (is_drb ctx) (s / 256) Hh) as (H7 & Hres & Hnib).
    rewrite (to_uint8_small _ Hl).
    eexists. split; [reflexivity|]. split.
    + unfold header12_layout. do 2 eexists. split; [reflexivity|].
      rewrite Hshr. repeat split; try assumption. symmetry; assumption.
    + unfold read_data_pdu_header. rewrite H7, Hnib.
      unfold is_drb. change (2 ^ 8) with 256.
      destruct (rb_type (cfg ctx)); do 2 f_equal; Z.div_mod_to_equations; lia.
  - (* 18 bits, on a DRB *)
    destruct Hv as [Hk Hv].
    rewrite (write_header_18 ctx s Hsize Hk).
    destruct (sn18_fields s Hv) as (Htop & Hmid & Hlow & Hshr & Hmid').
    rewrite Htop, Hmid, Hlow.
    assert (Hh : 0 <= s / 65536 < 4).
    { change (2 ^ 18) with 262144 in Hv. Z.div_mod_to_equations. lia. }
    assert (Hm : 0 <= (s / 256) mod 256 < 256) by (apply Z.mod_pos_bound; lia).
    assert (Hl : 0 <= s mod 256 < 256) by (apply Z.mod_pos_bound; lia).
    destruct (top_byte_18 true (s / 65536) Hh) as (H7 & Hres & Hnib).
    rewrite (to_uint8_small _ Hm), (to_uint8_small _ Hl).
    eexists. split; [reflexivity|]. split.
    + unfold header18_layout. do 3 eexists. split; [reflexivity|].
      rewrite Hshr, Hk. repeat split; try assumption; symmetry; assumption.
    + unfold read_data_pdu_header. rewrite H7, Hnib, Hk.
      change (2 ^ 16) with 65536. change (2 ^ 8) with 256.
      do 2 f_equal. Z.div_mod_to_equations. lia.
  - contradiction.
Qed.

(** The round trip on an 18-bit SN of a DRB. *)
Lemma header_roundtrip_witness :
  exists bytes,
    write_data_pdu_header (sample_ctx drb am size18bits (ms 10) false 7 100
                             nia0 nea0 false false) [] {| sn := 0x2abcd |}
    = Some (bytes, []) /\
    header_layout drb size18bits 0x2abcd bytes /\
    read_data_pdu_header bytes = Some (drb, size18bits, 0x2abcd).
Proof.
  apply (header_roundtrip
           (sample_ctx drb am size18bits (ms 10) false 7 100 nia0 nea0 false false)
           0x2abcd).
  simpl. split; [reflexivity | lia].
Defined.

(* ================================================================= *)
(** ** The security pipeline *)

Lemma quiet_nil : quiet [].
Proof. repeat split. Qed.

Lemma quiet_app (a b : list event) : quiet a -> quiet b -> quiet (a ++ b).
Proof.
  intros (A1 & A2 & A3 & A4) (B1 & B2 & B3 & B4). unfold quiet.
  rewrite new_pdus_app, discarded_pdus_app, protocol_failures_app,
    max_count_notifications_app, A1, A2, A3, A4, B1, B2, B3, B4.
  repeat split.
Qed.

Lemma write_data_pdu_header_quiet (ctx : pdcp_entity_tx_ctx) (b h : byte_buffer)
    (hdr : pdcp_data_pdu_header) (ev : list event) :
  write_data_pdu_header ctx b hdr = Some (h, ev) -> quiet ev.
Proof.
  unfold write_data_pdu_header, srsgnb_assert.
  destruct (is_srb ctx && sn_is_18bits (sn_size (cfg ctx))); [discriminate|].
  cbn [negb].
  destruct (sn_size (cfg ctx)); intros H; injection H as _ <-; repeat split.
Qed.

Lemma apply_ciphering_and_integrity_protection_spec (ctx : pdcp_entity_tx_ctx)
    (hdr sdu : byte_buffer) (count : Z) :
  fst (apply_ciphering_and_integrity_protection ctx hdr sdu count)
  = protected_pdu_spec ctx hdr sdu count /\
  quiet (snd (apply_ciphering_and_integrity_protection ctx hdr sdu count)).
Proof.
  unfold apply_ciphering_and_integrity_protection, protected_pdu_spec,
    ciphertext_spec, plaintext_spec, mac_i_spec, mac_i_appended,
    integrity_generate, cipher_encrypt, integrity_key, ciphering_key,
    is_srb, is_drb, mac_zero.
  destruct (integrity_enabled ctx), (ciphering_enabled ctx), (rb_type (cfg ctx)),
    (integ_algo (sec_cfg ctx)), (cipher_algo (sec_cfg ctx));
    simpl; split; try reflexivity; repeat split.
Qed.

(* ================================================================= *)
(** ** One accepted SDU *)

(** What a call of [handle_sdu] below the hard threshold does, given the
    header it packs. *)
Lemma handle_sdu_accept (ctx : pdcp_entity_tx_ctx) (st : pdcp_entity_tx)
    (sdu hdr : byte_buffer) (ev_h : list event) :
  tx_next st < hard (max_count (cfg ctx)) ->
  write_data_pdu_header ctx [] {| sn := SN ctx (tx_next st) |} = Some (hdr, ev_h) ->
  exists ev st',
    handle_sdu ctx st sdu = (ev, Some st') /\
    new_pdus ev
    = [{| buf := protected_pdu_spec ctx hdr sdu (tx_next st);
          pdcp_count := if is_drb ctx then Some (tx_next st) else None |}] /\
    discarded_pdus ev = [] /\
    protocol_failures ev = 0%nat /\
    max_count_notifications ev
    = (if (notify (max_count (cfg ctx)) <=? tx_next st) && negb (max_count_notified st)
       then 1%nat else 0%nat) /\
    tx_next st' = wrap32 (tx_next st + 1) /\
    max_count_overflow st' = max_count_overflow st /\
    max_count_notified st'
    = (max_count_notified st || (notify (max_count (cfg ctx)) <=? tx_next st)) /\
    discard_timers_map st'
    = (if discard_timer_configured (discard_timer (cfg ctx))
       then map_insert (tx_next st)
              (discard_entry ctx st (protected_pdu_spec ctx hdr sdu (tx_next st)))
              (discard_timers_map st)
       else discard_timers_map st).
Proof.
  intros Hlt Hw.
  destruct (apply_ciphering_and_integrity_protection_spec ctx hdr sdu (tx_next st))
    as [Hp Hq].
  destruct (write_data_pdu_header_quiet _ _ _ _ _ Hw) as (Hh1 & Hh2 & Hh3 & Hh4).
  destruct Hq as (Hq1 & Hq2 & Hq3 & Hq4).
  unfold handle_sdu.
  cbn [tx_next max_count_notified max_count_overflow metrics_add_sdus set_metrics].
  destruct (hard (max_count (cfg ctx)) <=? tx_next st) eqn:Hhard;
    [apply Z.leb_le in Hhard; lia|].
  destruct (apply_ciphering_and_integrity_protection ctx hdr sdu (tx_next st))
    as [pb ev_p] eqn:Happ.
  simpl in Hp, Hq1, Hq2, Hq3, Hq4. subst pb.
  unfold discard_entry, write_data_pdu_to_lower_layers.
  destruct (notify (max_count (cfg ctx)) <=? tx_next st),
    (max_count_notified st) eqn:Hn;
    cbn [negb tx_next set_max_count_notified metrics_add_sdus set_metrics];
    rewrite Hw, Happ;
    destruct (discard_timer_configured (discard_timer (cfg ctx)));
    do 2 eexists; (split; [reflexivity|]);
    cbn [tx_next max_count_overflow max_count_notified discard_timers_map
         timers_created set_tx_next set_metrics metrics_add_pdus
         set_discard_timers_map set_timers_created set_max_count_notified
         metrics_add_sdus orb andb negb];
    rewrite ?new_pdus_app, ?discarded_pdus_app, ?protocol_failures_app,
      ?max_count_notifications_app, ?Hh1, ?Hh2, ?Hh3, ?Hh4, ?Hq1, ?Hq2, ?Hq3, ?Hq4, ?Hn;
    repeat split; destruct (rlc_mode (cfg ctx)); reflexivity.
Qed.

(** C3. For an SDU processed past the threshold guards, the PDU handed to
    the lower layer is header ‖ C: the MAC-I is computed over header ‖ sdu
    when integrity is enabled (all-zero for nia0; when integrity is disabled
    none is generated and the field is all-zero); the plaintext is the SDU
    with the MAC-I appended iff the bearer is an SRB, or a DRB with integrity
    enabled; C is the encryption of the plaintext under (key, count, bearer,
    direction) for nea1/2/3 with ciphering enabled, and the plaintext itself
    when ciphering is disabled or the algorithm is nea0; the header bytes go
    out as they were packed. *)
Theorem protected_pdu_composition (ctx : pdcp_entity_tx_ctx) (st : pdcp_entity_tx)
    (sdu hdr : byte_buffer) (ev_h : list event) :
  tx_next st < hard (max_count (cfg ctx)) ->
  write_data_pdu_header ctx [] {| sn := SN ctx (tx_next st) |} = Some (hdr, ev_h) ->
  let mac_i := mac_i_spec ctx hdr sdu (tx_next st) in
  let plaintext := if mac_i_appended ctx then sdu ++ mac_i else sdu in
  let C := ciphertext_spec ctx plaintext (tx_next st) in
  map buf (new_pdus (fst (handle_sdu ctx st sdu))) = [hdr ++ C] /\
  fst (apply_ciphering_and_integrity_protection ctx hdr sdu (tx_next st)) = hdr ++ C /\
  firstn (length hdr) (hdr ++ C) = hdr.
Proof.
  intros Hlt Hw mac_i plaintext C.
  destruct (handle_sdu_accept ctx st sdu hdr ev_h Hlt Hw) as (ev & st' & He & Hp & _).
  rewrite He. cbn [fst]. rewrite Hp. split; [reflexivity|]. split.
  - apply apply_ciphering_and_integrity_protection_spec.
  - rewrite firstn_app, Nat.sub_diag, firstn_all. cbn [firstn]. apply app_nil_r.
Qed.

(** An SRB with nia2 and nea1, integrity and ciphering enabled. *)
Lemma protected_pdu_composition_witness :
  let ctx := sample_ctx srb am size12bits (ms 10) false 7 100 nia2 nea1 true true in
  let st := init_entity 5 in
  let sdu := [0xde; 0xad] in
  let hdr := [0x00; 0x05] in
  let mac_i := mac_i_spec ctx hdr sdu (tx_next st) in
  let plaintext := if mac_i_appended ctx then sdu ++ mac_i else sdu in
  let C := ciphertext_spec ctx plaintext (tx_next st) in
  map buf (new_pdus (fst (handle_sdu ctx st sdu))) = [hdr ++ C] /\
  fst (apply_ciphering_and_integrity_protection ctx hdr sdu (tx_next st)) = hdr ++ C /\
  firstn (length hdr) (hdr ++ C) = hdr.
Proof.
  intros ctx st sdu hdr.
  apply (protected_pdu_composition ctx st sdu hdr []).
  - vm_compute. reflexivity.
  - vm_compute. reflexivity.
Defined.

(* ================================================================= *)
(** ** [handle_sdu], case by case *)

Lemma write_data_pdu_header_some (ctx : pdcp_entity_tx_ctx) (b : byte_buffer)
    (hdr : pdcp_data_pdu_header) :
  header_ok ctx = true ->
  exists h ev, write_data_pdu_header ctx b hdr = Some (h, ev).
Proof.
  unfold header_ok, write_data_pdu_header, srsgnb_assert. intros H.
  rewrite H. destruct (sn_size (cfg ctx)); eauto.
Qed.

Lemma write_data_pdu_header_none (ctx : pdcp_entity_tx_ctx) (b : byte_buffer)
    (hdr : pdcp_data_pdu_header) :
  header_ok ctx = false -> write_data_pdu_header ctx b hdr = None.
Proof.
  unfold header_ok, write_data_pdu_header, srsgnb_assert. intros H.
  rewrite H. reflexivity.
Qed.

(** At or above the hard threshold the SDU is refused. *)
Lemma handle_sdu_refuse (ctx : pdcp_entity_tx_ctx) (st : pdcp_entity_tx)
    (sdu : byte_buffer) :
  hard (max_count (cfg ctx)) <= tx_next st ->
  exists ev st',
    handle_sdu ctx st sdu = (ev, Some st') /\
    new_pdus ev = [] /\
    discarded_pdus ev = [] /\
    protocol_failures ev = (if max_count_overflow st then 0%nat else 1%nat) /\
    max_count_notifications ev = 0%nat /\
    tx_next st' = tx_next st /\
    max_count_overflow st' = true /\
    max_count_notified st' = max_count_notified st /\
    discard_timers_map st' = discard_timers_map st /\
    timers_created st' = timers_created st.
Proof.
  intros Hge. unfold handle_sdu.
  cbn [tx_next max_count_notified max_count_overflow metrics_add_sdus set_metrics].
  apply Z.leb_le in Hge. rewrite Hge.
  destruct (max_count_overflow st) eqn:Ho; cbn [negb];
    do 2 eexists; (split; [reflexivity|]); repeat split; assumption.
Qed.

(** Below the hard threshold, an SRB with an 18-bit SN fails the sanity check
    of the header writer. *)
Lemma handle_sdu_fault (ctx : pdcp_entity_tx_ctx) (st : pdcp_entity_tx)
    (sdu : byte_buffer) :
  tx_next st < hard (max_count (cfg ctx)) ->
  header_ok ctx = false ->
  exists ev,
    handle_sdu ctx st sdu = (ev, None) /\
    new_pdus ev = [] /\
    discarded_pdus ev = [] /\
    protocol_failures ev = 0%nat /\
    max_count_notifications ev
    = (if (notify (max_count (cfg ctx)) <=? tx_next st) && negb (max_count_notified st)
       then 1%nat else 0%nat).
Proof.
  intros Hlt Hbad. unfold handle_sdu.
  cbn [tx_next max_count_notified max_count_overflow metrics_add_sdus set_metrics].
  destruct (hard (max_count (cfg ctx)) <=? tx_next st) eqn:Hhard;
    [apply Z.leb_le in Hhard; lia|].
  destruct (notify (max_count (cfg ctx)) <=? tx_next st),
    (max_count_notified st);
    cbn [negb andb tx_next set_max_count_notified metrics_add_sdus set_metrics];
    rewrite (write_data_pdu_header_none ctx _ _ Hbad);
    eexists; (split; [reflexivity|]); repeat split.
Qed.

(* ================================================================= *)
(** ** The other operations *)

Lemma map_erase_In (k : Z) (m : discard_map) (x : Z * discard_info) :
  In x (map_erase k m) -> In x m /\ fst x <> k.
Proof.
  induction m as [|[k' v'] m IH]; simpl; [tauto|].
  destruct (k =? k') eqn:E.
  - intros H. destruct (IH H). auto.
  - apply Z.eqb_neq in E. intros [<-|H].
    + split; [auto | simpl; congruence].
    + destruct (IH H). auto.
Qed.

Lemma map_insert_In (k : Z) (v : discard_info) (m : discard_map) (x : Z * discard_info) :
  In x (map_insert k v m) -> x = (k, v) \/ In x m.
Proof.
  induction m as [|[k' v'] m IH]; simpl.
  - intros [<-|[]]. auto.
  - destruct (k <? k'); [|destruct (k =? k')]; simpl.
    + intros [<-|H]; auto.
    + auto.
    + intros [<-|H]; auto. destruct (IH H); auto.
Qed.

Lemma discard_below_spec (fmc : Z) (m : discard_map) :
  fst (discard_below fmc m) = filter (fun e => negb (fst e <? fmc)) m /\
  discarded_pdus (snd (discard_below fmc m))
  = filter (fun c => c <? fmc) (map_keys m) /\
  new_pdus (snd (discard_below fmc m)) = [] /\
  protocol_failures (snd (discard_below fmc m)) = 0%nat /\
  max_count_notifications (snd (discard_below fmc m)) = 0%nat.
Proof.
  induction m as [|[c info] m IH]; simpl; [repeat split|].
  destruct (discard_below fmc m) as [m' ev].
  simpl in IH. destruct IH as (I1 & I2 & I3 & I4 & I5).
  destruct (c <? fmc); simpl; rewrite I1, I2; repeat split; assumption.
Qed.

Lemma evaluate_bitmap_quiet (dec : bit_decoder) :
  forall fmc m,
    new_pdus (snd (evaluate_bitmap dec fmc m)) = [] /\
    protocol_failures (snd (evaluate_bitmap dec fmc m)) = 0%nat /\
    max_count_notifications (snd (evaluate_bitmap dec fmc m)) = 0%nat.
Proof.
  induction dec as [|bit dec IH]; intros fmc m; simpl; [repeat split|].
  destruct bit.
  - specialize (IH (wrap32 (fmc + 1)) (map_erase (wrap32 (fmc + 1)) m)).
    destruct (evaluate_bitmap dec (wrap32 (fmc + 1)) (map_erase (wrap32 (fmc + 1)) m)).
    exact IH.
  - apply IH.
Qed.

Lemma evaluate_bitmap_In (dec : bit_decoder) :
  forall fmc m x, In x (fst (evaluate_bitmap dec fmc m)) -> In x m.
Proof.
  induction dec as [|bit dec IH]; intros fmc m x; simpl; [auto|].
  destruct bit.
  - specialize (IH (wrap32 (fmc + 1)) (map_erase (wrap32 (fmc + 1)) m) x).
    destruct (evaluate_bitmap dec (wrap32 (fmc + 1)) (map_erase (wrap32 (fmc + 1)) m)).
    simpl in *. intros H. apply IH in H. apply map_erase_In in H. tauto.
  - apply IH.
Qed.

(** A status report touches the discard map only, and only to erase. *)
Lemma handle_status_report_frame (st : pdcp_entity_tx) (status : byte_buffer) :
  let '(ev, st') := handle_status_report st status in
  new_pdus ev = [] /\
  protocol_failures ev = 0%nat /\
  max_count_notifications ev = 0%nat /\
  tx_next st' = tx_next st /\
  max_count_overflow st' = max_count_overflow st /\
  max_count_notified st' = max_count_notified st /\
  timers_created st' = timers_created st /\
  metrics st' = metrics st /\
  (forall x, In x (discard_timers_map st') -> In x (discard_timers_map st)).
Proof.
  unfold handle_status_report.
  destruct (unpack (bit_decoder_init status) 1) as [[ok1 dc] dec1].
  destruct (negb (dc =? pdcp_dc_field_control)); [repeat split; auto|].
  destruct (unpack dec1 3) as [[ok2 cpt] dec2].
  destruct (negb (cpt =? pdcp_control_pdu_type_status_report)); [repeat split; auto|].
  destruct (unpack dec2 4) as [[ok3 reserved] dec3].
  destruct (negb (reserved =? 0)); [repeat split; auto|].
  destruct (unpack dec3 32) as [[ok4 fmc] dec4].
  pose proof (discard_below_spec fmc (discard_timers_map st)) as Hb.
  destruct (discard_below fmc (discard_timers_map st)) as [m1 ev1].
  pose proof (evaluate_bitmap_quiet dec4 fmc m1) as Hq.
  pose proof (evaluate_bitmap_In dec4 fmc m1) as Hi.
  destruct (evaluate_bitmap dec4 fmc m1) as [m2 ev2].
  simpl in Hb, Hq, Hi. destruct Hb as (B1 & B2 & B3 & B4 & B5).
  destruct Hq as (Q1 & Q2 & Q3).
  change (ev_log log_info "Received PDCP status report with FMC={}" :: ev1 ++ ev2)
    with ([ev_log log_info "Received PDCP status report with FMC={}"] ++ ev1 ++ ev2).
  rewrite !new_pdus_app, !protocol_failures_app, !max_count_notifications_app,
    B3, B4, B5, Q1, Q2, Q3.
  repeat split.
  intros x Hx. cbn [discard_timers_map set_discard_timers_map] in Hx.
  apply Hi in Hx. rewrite B1 in Hx. apply filter_In in Hx. tauto.
Qed.

Lemma write_control_pdu_spec (st : pdcp_entity_tx) (b : byte_buffer) :
  let '(st', ev) := write_control_pdu_to_lower_layers st b in
  new_pdus ev = [control_pdu b] /\
  discarded_pdus ev = [] /\
  protocol_failures ev = 0%nat /\
  max_count_notifications ev = 0%nat /\
  unchanged_but_metrics st st' /\
  num_pdus (metrics st') = num_pdus (metrics st) + 1 /\
  num_pdu_bytes (metrics st') = num_pdu_bytes (metrics st) + buf_length b.
Proof. unfold write_control_pdu_to_lower_layers, unchanged_but_metrics. repeat split. Qed.

Lemma send_status_report_spec (ctx : pdcp_entity_tx_ctx) (st : pdcp_entity_tx)
    (report : byte_buffer) :
  let '(ev, st') := send_status_report ctx st report in
  new_pdus ev = (if status_report_required (cfg ctx) then [control_pdu report] else []) /\
  discarded_pdus ev = [] /\
  protocol_failures ev = 0%nat /\
  max_count_notifications ev = 0%nat /\
  unchanged_but_metrics st st' /\
  num_pdus (metrics st')
  = num_pdus (metrics st) + (if status_report_required (cfg ctx) then 1 else 0) /\
  num_pdu_bytes (metrics st')
  = num_pdu_bytes (metrics st)
    + (if status_report_required (cfg ctx) then buf_length report else 0).
Proof.
  unfold send_status_report, write_control_pdu_to_lower_layers, unchanged_but_metrics.
  destruct (status_report_required (cfg ctx)); simpl; repeat split; lia.
Qed.

Lemma recover_pdus_spec (ctx : pdcp_entity_tx_ctx) (entries : discard_map) :
  forall st,
    let '(ev, st') := recover_pdus ctx st entries in
    new_pdus ev = map (recovered_pdu ctx) entries /\
    discarded_pdus ev = [] /\
    protocol_failures ev = 0%nat /\
    max_count_notifications ev = 0%nat /\
    unchanged_but_metrics st st' /\
    num_pdus (metrics st') = num_pdus (metrics st) + Z.of_nat (length entries).
Proof.
  induction entries as [|[c info] rest IH]; intros st.
  - simpl. unfold unchanged_but_metrics. repeat split. lia.
  - cbn [recover_pdus write_data_pdu_to_lower_layers].
    specialize (IH (metrics_add_pdus st 1 (buf_length (info_buf info)))).
    destruct (recover_pdus ctx (metrics_add_pdus st 1 (buf_length (info_buf info))) rest)
      as [ev' st'].
    destruct IH as (I1 & I2 & I3 & I4 & I5 & I6).
    rewrite new_pdus_app, discarded_pdus_app, protocol_failures_app,
      max_count_notifications_app, I1, I2, I3, I4.
    repeat split; try apply I5.
    rewrite I6. cbn [metrics metrics_add_pdus set_metrics num_pdus length].
    lia.
Qed.

Lemma data_recovery_spec (ctx : pdcp_entity_tx_ctx) (st : pdcp_entity_tx)
    (report : byte_buffer) :
  is_drb ctx && rlc_mode_is_am (rlc_mode (cfg ctx)) = true ->
  exists ev st',
    data_recovery ctx st report = (ev, Some st') /\
    new_pdus ev
    = (if status_report_required (cfg ctx) then [control_pdu report] else [])
      ++ map (recovered_pdu ctx) (discard_timers_map st) /\
    discarded_pdus ev = [] /\
    protocol_failures ev = 0%nat /\
    max_count_notifications ev = 0%nat /\
    unchanged_but_metrics st st' /\
    num_pdus (metrics st')
    = num_pdus (metrics st)
      + (if status_report_required (cfg ctx) then 1 else 0)
      + Z.of_nat (length (discard_timers_map st)).
Proof.
  intros Hb. unfold data_recovery, srsgnb_assert. rewrite Hb.
  pose proof (send_status_report_spec ctx st report) as Hs.
  destruct (send_status_report ctx st report) as [ev_s st1].
  destruct Hs as (S1 & S2 & S3 & S4 & S5 & S6 & _).
  destruct (status_report_required (cfg ctx)).
  - pose proof (recover_pdus_spec ctx (discard_timers_map st1) st1) as Hr.
    destruct (recover_pdus ctx st1 (discard_timers_map st1)) as [ev_r st2].
    destruct Hr as (R1 & R2 & R3 & R4 & R5 & R6).
    do 2 eexists. split; [reflexivity|].
    change (ev_log log_info "Data recovery requested" :: ev_s ++ ev_r)
      with ([ev_log log_info "Data recovery requested"] ++ ev_s ++ ev_r).
    rewrite !new_pdus_app, !discarded_pdus_app, !protocol_failures_app,
      !max_count_notifications_app, S1, S2, S3, S4, R1, R2, R3, R4.
    destruct S5 as (A1 & A2 & A3 & A4 & A5), R5 as (B1 & B2 & B3 & B4 & B5).
    rewrite A4. unfold unchanged_but_metrics.
    repeat split; congruence.
  - pose proof (recover_pdus_spec ctx (discard_timers_map st) st) as Hr.
    destruct (recover_pdus ctx st (discard_timers_map st)) as [ev_r st2].
    destruct Hr as (R1 & R2 & R3 & R4 & R5 & R6).
    do 2 eexists. split; [reflexivity|].
    change (ev_log log_info "Data recovery requested" :: [] ++ ev_r)
      with ([ev_log log_info "Data recovery requested"] ++ ev_r).
    rewrite !new_pdus_app, !discarded_pdus_app, !protocol_failures_app,
      !max_count_notifications_app, R1, R2, R3, R4.
    repeat split; try apply R5. rewrite R6. lia.
Qed.

Lemma data_recovery_fault (ctx : pdcp_entity_tx_ctx) (st : pdcp_entity_tx)
    (report : byte_buffer) :
  is_drb ctx && rlc_mode_is_am (rlc_mode (cfg ctx)) = false ->
  data_recovery ctx st report = ([], None).
Proof. intros Hb. unfold data_recovery, srsgnb_assert. rewrite Hb. reflexivity. Qed.

Lemma discard_callback_spec (st : pdcp_entity_tx) (c : Z) :
  let '(ev, st') := discard_callback st c in
  new_pdus ev = [] /\
  discarded_pdus ev = [c] /\
  protocol_failures ev = 0%nat /\
  max_count_notifications ev = 0%nat /\
  tx_next st' = tx_next st /\
  max_count_overflow st' = max_count_overflow st /\
  max_count_notified st' = max_count_notified st /\
  timers_created st' = timers_created st /\
  discard_timers_map st' = map_erase c (discard_timers_map st).
Proof. unfold discard_callback. repeat split. Qed.

(* ================================================================= *)
(** ** One step of a run *)

Lemma at_hard_limit_false (ctx : pdcp_entity_tx_ctx) (st : pdcp_entity_tx) :
  at_hard_limit ctx st = false <-> tx_next st < hard (max_count (cfg ctx)).
Proof. unfold at_hard_limit. rewrite Z.leb_gt. reflexivity. Qed.

Lemma at_hard_limit_true (ctx : pdcp_entity_tx_ctx) (st : pdcp_entity_tx) :
  at_hard_limit ctx st = true <-> hard (max_count (cfg ctx)) <= tx_next st.
Proof. unfold at_hard_limit. rewrite Z.leb_le. reflexivity. Qed.

(** The notifications of a step and what it does to TX_NEXT and to the two
    latches. *)
Lemma step_flags (ctx : pdcp_entity_tx_ctx) (st : pdcp_entity_tx) (o : op)
    (ev : list event) (r : option pdcp_entity_tx) :
  step ctx st o = (ev, r) ->
  max_count_notifications ev
  = (if is_handle_sdu o && in_soft_window ctx st && negb (max_count_notified st)
     then 1%nat else 0%nat) /\
  protocol_failures ev
  = (if is_handle_sdu o && at_hard_limit ctx st && negb (max_count_overflow st)
     then 1%nat else 0%nat) /\
  forall st', r = Some st' ->
    tx_next st'
    = (if is_handle_sdu o && negb (at_hard_limit ctx st)
       then wrap32 (tx_next st + 1) else tx_next st) /\
    max_count_notified st'
    = (max_count_notified st || (is_handle_sdu o && in_soft_window ctx st)) /\
    max_count_overflow st'
    = (max_count_overflow st || (is_handle_sdu o && at_hard_limit ctx st)).
Proof.
  destruct o as [sdu|status|report|report|c]; cbn [step is_handle_sdu andb].
  - (* handle_sdu *)
    unfold in_soft_window. rewrite Z.ltb_antisym.
    fold (at_hard_limit ctx st).
    destruct (at_hard_limit ctx st) eqn:Hh.
    + apply at_hard_limit_true in Hh.
      destruct (handle_sdu_refuse ctx st sdu Hh)
        as (ev' & st' & He & _ & _ & Hpf & Hmn & Htx & Hov & Hno & _).
      rewrite He. intros E; injection E as <- <-.
      rewrite Hpf, Hmn, andb_false_r. cbn [negb andb].
      split; [reflexivity|]. split; [destruct (max_count_overflow st); reflexivity|].
      intros st'' E; injection E as <-.
      rewrite Htx, Hov, Hno, orb_false_r, orb_true_r. auto.
    + apply at_hard_limit_false in Hh.
      destruct (header_ok ctx) eqn:Hok.
      * destruct (write_data_pdu_header_some ctx [] {| sn := SN ctx (tx_next st) |} Hok)
          as (h & ev_h & Hw).
        destruct (handle_sdu_accept ctx st sdu h ev_h Hh Hw)
          as (ev' & st' & He & _ & _ & Hpf & Hmn & Htx & Hov & Hno & _).
        rewrite He. intros E; injection E as <- <-.
        rewrite Hpf, Hmn, andb_true_r. cbn [negb andb].
        split; [reflexivity|]. split; [reflexivity|].
        intros st'' E; injection E as <-.
        rewrite Htx, Hov, Hno, orb_false_r. auto.
      * destruct (handle_sdu_fault ctx st sdu Hh Hok) as (ev' & He & _ & _ & Hpf & Hmn).
        rewrite He. intros E; injection E as <- <-.
        rewrite Hpf, Hmn, andb_true_r. cbn [negb andb].
        split; [reflexivity|]. split; [reflexivity|]. discriminate.
  - (* handle_status_report *)
    pose proof (handle_status_report_frame st status) as Hf.
    destruct (handle_status_report st status) as [ev' st'].
    destruct Hf as (_ & Hpf & Hmn & Htx & Hov & Hno & _).
    intros E; injection E as <- <-. rewrite Hpf, Hmn.
    split; [reflexivity|]. split; [reflexivity|].
    intros st'' E; injection E as <-. rewrite !orb_false_r. auto.
  - (* send_status_report *)
    pose proof (send_status_report_spec ctx st report) as Hf.
    destruct (send_status_report ctx st report) as [ev' st'].
    destruct Hf as (_ & _ & Hpf & Hmn & (Htx & Hov & Hno & _) & _).
    intros E; injection E as <- <-. rewrite Hpf, Hmn.
    split; [reflexivity|]. split; [reflexivity|].
    intros st'' E; injection E as <-. rewrite !orb_false_r. auto.
  - (* data_recovery *)
    destruct (is_drb ctx && rlc_mode_is_am (rlc_mode (cfg ctx))) eqn:Hb.
    + destruct (data_recovery_spec ctx st report Hb)
        as (ev' & st' & He & _ & _ & Hpf & Hmn & (Htx & Hov & Hno & _) & _).
      rewrite He. intros E; injection E as <- <-. rewrite Hpf, Hmn.
      split; [reflexivity|]. split; [reflexivity|].
      intros st'' E; injection E as <-. rewrite !orb_false_r. auto.
    + rewrite (data_recovery_fault ctx st report Hb).
      intros E; injection E as <- <-.
      split; [reflexivity|]. split; [reflexivity|]. discriminate.
  - (* discard timer *)
    destruct (map_mem c (discard_timers_map st)).
    + pose proof (discard_callback_spec st c) as Hf.
      destruct (discard_callback st c) as [ev' st'].
      destruct Hf as (_ & _ & Hpf & Hmn & Htx & Hov & Hno & _).
      intros E; injection E as <- <-. rewrite Hpf, Hmn.
      split; [reflexivity|]. split; [reflexivity|].
      intros st'' E; injection E as <-. rewrite !orb_false_r. auto.
    + intros E; injection E as <- <-.
      split; [reflexivity|]. split; [reflexivity|].
      intros st'' E; injection E as <-. rewrite !orb_false_r. auto.
Qed.

(** The PDUs of a call of [handle_sdu]. *)
Lemma step_handle_sdu_pdus (ctx : pdcp_entity_tx_ctx) (st : pdcp_entity_tx)
    (sdu : byte_buffer) (ev : list event) (r : option pdcp_entity_tx) :
  step ctx st (op_handle_sdu sdu) = (ev, r) ->
  length (new_pdus ev)
  = (if negb (at_hard_limit ctx st) && header_ok ctx then 1%nat else 0%nat) /\
  pdu_counts ev
  = (if negb (at_hard_limit ctx st) && header_ok ctx && is_drb ctx
     then [tx_next st] else []) /\
  (r = None <-> negb (at_hard_limit ctx st) && negb (header_ok ctx) = true).
Proof.
  cbn [step].
  destruct (at_hard_limit ctx st) eqn:Hh.
  - apply at_hard_limit_true in Hh.
    destruct (handle_sdu_refuse ctx st sdu Hh) as (ev' & st' & He & Hp & _).
    rewrite He. intros E; injection E as <- <-.
    unfold pdu_counts. rewrite Hp. cbn. repeat split; discriminate.
  - apply at_hard_limit_false in Hh.
    destruct (header_ok ctx) eqn:Hok.
    + destruct (write_data_pdu_header_some ctx [] {| sn := SN ctx (tx_next st) |} Hok)
        as (h & ev_h & Hw).
      destruct (handle_sdu_accept ctx st sdu h ev_h Hh Hw) as (ev' & st' & He & Hp & _).
      rewrite He. intros E; injection E as <- <-.
      unfold pdu_counts. rewrite Hp. cbn.
      destruct (is_drb ctx); repeat split; discriminate.
    + destruct (handle_sdu_fault ctx st sdu Hh Hok) as (ev' & He & Hp & _).
      rewrite He. intros E; injection E as <- <-.
      unfold pdu_counts. rewrite Hp. cbn. repeat split.
Qed.

(* ================================================================= *)
(** ** Runs *)

Lemma trace_of_app (a b : list log_entry) : trace_of (a ++ b) = trace_of a ++ trace_of b.
Proof. unfold trace_of. apply flat_map_app. Qed.

(** Every entry of a run records a step from its own pre-state, what
    follows it is the run from its post-state, and an invariant of the steps
    holds where the entry starts. *)
Lemma run_invariant (ctx : pdcp_entity_tx_ctx)
    (I : list log_entry -> pdcp_entity_tx -> Prop) :
  (forall H st o ev st',
      I H st -> step ctx st o = (ev, Some st') ->
      I (H ++ [mk_entry o st ev (Some st')]) st') ->
  forall ops st H,
    I H st ->
    forall l1 e l2,
      run ctx st ops = l1 ++ e :: l2 ->
      I (H ++ l1) (le_pre e) /\
      step ctx (le_pre e) (le_op e) = (le_events e, le_post e) /\
      exists ops2,
        l2 = match le_post e with
             | Some st' => run ctx st' ops2
             | None => []
             end.
Proof.
  intros Hstep. induction ops as [|o ops IH]; intros st H HI l1 e l2 Hrun.
  - destruct l1; discriminate.
  - cbn [run] in Hrun. destruct (step ctx st o) as [ev r] eqn:Hs.
    destruct l1 as [|e1 l1].
    + cbn [app] in Hrun. injection Hrun as <- <-. cbn.
      rewrite app_nil_r. split; [assumption|]. split; [assumption|].
      exists ops. reflexivity.
    + cbn [app] in Hrun. injection Hrun as <- Hrest.
      destruct r as [st'|]; [|destruct l1; discriminate].
      pose proof (IH st' _ (Hstep H st o ev st' HI Hs) l1 e l2 Hrest) as X.
      rewrite <- app_assoc in X. exact X.
Qed.

(* ================================================================= *)
(** ** COUNT discipline *)

Lemma wrap32_nonneg (z : Z) : 0 <= wrap32 z.
Proof. unfold wrap32. apply Z.mod_pos_bound. lia. Qed.

Lemma wrap32_succ (t h : Z) :
  0 <= t < h -> is_uint32 h -> wrap32 (t + 1) = t + 1.
Proof.
  unfold is_uint32, wrap32. intros Ht Hh. apply Z.mod_small. lia.
Qed.

Lemma strictly_increasing_count_from (k : nat) :
  forall t, strictly_increasing (count_from t k).
Proof.
  induction k as [|k IH]; intros t; [exact I|].
  cbn [count_from]. specialize (IH (t + 1)).
  destruct k as [|k]; [exact I|].
  cbn [count_from strictly_increasing] in *. split; [lia|exact IH].
Qed.

Lemma step_tx_next_nonneg (ctx : pdcp_entity_tx_ctx) (st : pdcp_entity_tx) (o : op)
    (ev : list event) (st' : pdcp_entity_tx) :
  0 <= tx_next st -> step ctx st o = (ev, Some st') -> 0 <= tx_next st'.
Proof.
  intros H0 Hs. destruct (step_flags ctx st o ev _ Hs) as (_ & _ & Hp).
  destruct (Hp st' eq_refl) as (Htx & _). rewrite Htx.
  destruct (is_handle_sdu o && negb (at_hard_limit ctx st));
    [apply wrap32_nonneg | assumption].
Qed.

(** The COUNTs of the PDUs that the [handle_sdu] calls of a run send are
    consecutive from the TX_NEXT the run starts with, one per PDU. *)
Lemma run_counts (ctx : pdcp_entity_tx_ctx) :
  is_uint32 (hard (max_count (cfg ctx))) ->
  forall ops st,
    0 <= tx_next st ->
    exists k,
      pdu_counts (sdu_trace_of (run ctx st ops))
      = (if is_drb ctx then count_from (tx_next st) k else []) /\
      length (new_pdus (sdu_trace_of (run ctx st ops))) = k /\
      forall st', final_state st (run ctx st ops) = Some st' ->
                  tx_next st' = tx_next st + Z.of_nat k.
Proof.
  intros Hhard. induction ops as [|o ops IH]; intros st H0.
  - exists 0%nat. cbn. split; [destruct (is_drb ctx); reflexivity|].
    split; [reflexivity|]. intros st' E; injection E as <-. lia.
  - cbn [run]. destruct (step ctx st o) as [ev r] eqn:Hs.
    destruct (step_flags ctx st o ev r Hs) as (_ & _ & Hpost).
    change (sdu_trace_of (?e :: ?l)) with
      ((if is_handle_sdu (le_op e) then le_events e else []) ++ sdu_trace_of l).
    cbn [le_op le_events final_state le_post].
    rewrite pdu_counts_app, new_pdus_app, length_app.
    destruct r as [st'|].
    + destruct (Hpost st' eq_refl) as (Htx & _).
      pose proof (step_tx_next_nonneg ctx st o ev st' H0 Hs) as H0'.
      destruct (IH st' H0') as (k & Hc & Hl & Hf).
      rewrite Hc, Hl.
      destruct o as [sdu|status|report|report|c];
        cbn [is_handle_sdu andb] in *;
        try (exists k; rewrite Htx in *; repeat split; assumption).
      destruct (step_handle_sdu_pdus ctx st sdu ev _ Hs) as (Hlen & Hcnt & Hnone).
      rewrite Hlen, Hcnt.
      destruct (at_hard_limit ctx st) eqn:Hh; cbn [negb andb] in *.
      * exists k. rewrite Htx in *. repeat split; assumption.
      * destruct (header_ok ctx); cbn [negb] in *;
          [|destruct Hnone as [_ Hn]; discriminate (Hn eq_refl)].
        apply at_hard_limit_false in Hh.
        rewrite (wrap32_succ (tx_next st) _ (conj H0 Hh) Hhard) in Htx.
        exists (S k). rewrite Htx in *.
        split; [destruct (is_drb ctx); reflexivity|].
        split; [reflexivity|].
        intros st'' E. rewrite (Hf st'' E). lia.
    + exists 0%nat. cbn [sdu_trace_of flat_map pdu_counts new_pdus length].
      rewrite !app_nil_r, Nat.add_0_r.
      split; [|split; [|discriminate]].
      * destruct o as [sdu|status|report|report|c]; cbn [is_handle_sdu];
          try (destruct (is_drb ctx); reflexivity).
        destruct (step_handle_sdu_pdus ctx st sdu ev _ Hs) as (_ & Hcnt & [Hnone _]).
        rewrite Hcnt. specialize (Hnone eq_refl).
        destruct (at_hard_limit ctx st), (header_ok ctx); try discriminate.
        destruct (is_drb ctx); reflexivity.
      * destruct o as [sdu|status|report|report|c]; cbn [is_handle_sdu];
          try reflexivity.
        destruct (step_handle_sdu_pdus ctx st sdu ev _ Hs) as (Hlen & _ & [Hnone _]).
        rewrite Hlen. specialize (Hnone eq_refl).
        destruct (at_hard_limit ctx st), (header_ok ctx); try discriminate.
        reflexivity.
Qed.

Lemma run_tx_next_nonneg (ctx : pdcp_entity_tx_ctx) (ops : list op)
    (st : pdcp_entity_tx) (l1 l2 : list log_entry) (e : log_entry) :
  0 <= tx_next st ->
  run ctx st ops = l1 ++ e :: l2 ->
  0 <= tx_next (le_pre e) /\
  step ctx (le_pre e) (le_op e) = (le_events e, le_post e).
Proof.
  intros H0 Hrun.
  destruct (run_invariant ctx (fun _ s => 0 <= tx_next s)
              (fun H s o ev s' Hs => step_tx_next_nonneg ctx s o ev s' Hs)
              ops st [] H0 l1 e l2 Hrun) as (Hi & Hs & _).
  auto.
Qed.

(** C1 (amended). In every run from the constructed entity, the COUNT values
    attached to the data PDUs that [handle_sdu] hands to [lower_dn.on_new_pdu]
    are strictly increasing and gap-free from the initial TX_NEXT (on an SRB
    no COUNT is attached); every SDU taken below the hard threshold yields
    exactly one PDU and moves TX_NEXT up by one; and no other operation, a
    status report and a timer expiry among them, changes TX_NEXT. *)
Theorem tx_counts_consecutive (ctx : pdcp_entity_tx_ctx) (t0 : Z) (ops : list op) :
  is_uint32 t0 ->
  is_uint32 (hard (max_count (cfg ctx))) ->
  let log := run ctx (init_entity t0) ops in
  (exists k,
      pdu_counts (sdu_trace_of log) = (if is_drb ctx then count_from t0 k else []) /\
      length (new_pdus (sdu_trace_of log)) = k /\
      forall st', final_state (init_entity t0) log = Some st' ->
                  tx_next st' = t0 + Z.of_nat k) /\
  strictly_increasing (pdu_counts (sdu_trace_of log)) /\
  (forall l1 e l2,
      log = l1 ++ e :: l2 ->
      (forall sdu,
          le_op e = op_handle_sdu sdu ->
          tx_next (le_pre e) < hard (max_count (cfg ctx)) ->
          header_ok ctx = true ->
          exists st',
            le_post e = Some st' /\
            length (new_pdus (le_events e)) = 1%nat /\
            tx_next st' = tx_next (le_pre e) + 1) /\
      (is_handle_sdu (le_op e) = false ->
       forall st', le_post e = Some st' -> tx_next st' = tx_next (le_pre e))).
Proof.
  intros Ht0 Hhard log.
  assert (H0 : 0 <= tx_next (init_entity t0)) by (cbn; unfold is_uint32 in Ht0; lia).
  destruct (run_counts ctx Hhard ops (init_entity t0) H0) as (k & Hc & Hl & Hf).
  split; [exists k; auto|]. split.
  - subst log. rewrite Hc. destruct (is_drb ctx); [|exact I].
    apply strictly_increasing_count_from.
  - intros l1 e l2 Hlog.
    destruct (run_tx_next_nonneg ctx ops _ l1 l2 e H0 Hlog) as (Hpre & Hs).
    destruct (step_flags ctx _ _ _ _ Hs) as (_ & _ & Hpost).
    split.
    + intros sdu Hop Hlt Hok. rewrite Hop in Hs. cbn [step] in Hs.
      destruct (write_data_pdu_header_some ctx []
                  {| sn := SN ctx (tx_next (le_pre e)) |} Hok) as (h & ev_h & Hw).
      destruct (handle_sdu_accept ctx (le_pre e) sdu h ev_h Hlt Hw)
        as (ev' & st' & He & Hp & _ & _ & _ & Htx & _).
      rewrite He in Hs. injection Hs as Hev Hpo.
      exists st'. rewrite <- Hev, Hp.
      rewrite (wrap32_succ _ _ (conj Hpre Hlt) Hhard) in Htx. auto.
    + intros Hn st' Hpo. destruct (Hpost st' Hpo) as (Htx & _).
      rewrite Hn in Htx. exact Htx.
Qed.

(** A run of a DRB across the notification threshold, with a status report
    and a timer expiry between the SDUs. *)
Lemma tx_counts_consecutive_witness :
  let ctx := drb_am_ctx true 1 5 in
  let ops := [op_handle_sdu [0xaa]; op_handle_status_report [0; 0; 0; 0; 1];
              op_handle_sdu [0xbb]; op_discard_timer_expired 1;
              op_data_recovery [0; 0; 0; 0; 0]; op_handle_sdu [0xcc]] in
  let log := run ctx (init_entity 0) ops in
  (exists k,
      pdu_counts (sdu_trace_of log) = (if is_drb ctx then count_from 0 k else []) /\
      length (new_pdus (sdu_trace_of log)) = k /\
      forall st', final_state (init_entity 0) log = Some st' ->
                  tx_next st' = 0 + Z.of_nat k) /\
  strictly_increasing (pdu_counts (sdu_trace_of log)) /\
  (forall l1 e l2,
      log = l1 ++ e :: l2 ->
      (forall sdu,
          le_op e = op_handle_sdu sdu ->
          tx_next (le_pre e) < hard (max_count (cfg ctx)) ->
          header_ok ctx = true ->
          exists st',
            le_post e = Some st' /\
            length (new_pdus (le_events e)) = 1%nat /\
            tx_next st' = tx_next (le_pre e) + 1) /\
      (is_handle_sdu (le_op e) = false ->
       forall st', le_post e = Some st' -> tx_next st' = tx_next (le_pre e))).
Proof.
  intros ctx ops.
  apply (tx_counts_consecutive ctx 0 ops); unfold is_uint32; cbn; lia.
Defined.

(** C1, as stated, fails on a run with a data recovery: the COUNT of the PDU
    sent first comes down a second time. *)
Lemma data_recovery_repeats_count :
  pdu_counts (trace_of recovery_run) = [0; 0] /\
  ~ strictly_increasing (pdu_counts (trace_of recovery_run)).
Proof.
  assert (E : pdu_counts (trace_of recovery_run) = [0; 0])
    by (vm_compute; reflexivity).
  rewrite E. split; [reflexivity|].
  cbn [strictly_increasing]. lia.
Qed.

(* ================================================================= *)
(** ** The two latches *)

Lemma at_hard_limit_tx_next (ctx : pdcp_entity_tx_ctx) (st st' : pdcp_entity_tx) :
  tx_next st' = tx_next st -> at_hard_limit ctx st' = at_hard_limit ctx st.
Proof. unfold at_hard_limit. intros ->. reflexivity. Qed.

Lemma forallb_snoc {A : Type} (f : A -> bool) (l : list A) (x : A) :
  forallb f (l ++ [x]) = forallb f l && f x.
Proof. rewrite forallb_app. cbn. rewrite andb_true_r. reflexivity. Qed.

Lemma trace_of_snoc (l : list log_entry) (e : log_entry) :
  trace_of (l ++ [e]) = trace_of l ++ le_events e.
Proof. rewrite trace_of_app. cbn. rewrite app_nil_r. reflexivity. Qed.

(** [on_protocol_failure] is called at most once, and not at all once the
    latch is set. *)
Lemma run_protocol_failures (ctx : pdcp_entity_tx_ctx) :
  forall ops st,
    (protocol_failures (trace_of (run ctx st ops))
     <= (if max_count_overflow st then 0 else 1))%nat.
Proof.
  induction ops as [|o ops IH]; intros st.
  - cbn. destruct (max_count_overflow st); lia.
  - cbn [run]. destruct (step ctx st o) as [ev r] eqn:Hs.
    destruct (step_flags ctx st o ev r Hs) as (_ & Hpf & Hpost).
    change (trace_of (?e :: ?l)) with (le_events e ++ trace_of l).
    cbn [le_events]. rewrite protocol_failures_app, Hpf.
    destruct r as [st'|].
    + destruct (Hpost st' eq_refl) as (_ & _ & Hov). specialize (IH st').
      rewrite Hov in IH.
      destruct (is_handle_sdu o && at_hard_limit ctx st), (max_count_overflow st);
        cbn [negb andb orb] in *; lia.
    + cbn. destruct (is_handle_sdu o && at_hard_limit ctx st), (max_count_overflow st);
        cbn [negb andb]; lia.
Qed.

Lemma run_max_count_notifications (ctx : pdcp_entity_tx_ctx) :
  forall ops st,
    (max_count_notifications (trace_of (run ctx st ops))
     <= (if max_count_notified st then 0 else 1))%nat.
Proof.
  induction ops as [|o ops IH]; intros st.
  - cbn. destruct (max_count_notified st); lia.
  - cbn [run]. destruct (step ctx st o) as [ev r] eqn:Hs.
    destruct (step_flags ctx st o ev r Hs) as (Hmn & _ & Hpost).
    change (trace_of (?e :: ?l)) with (le_events e ++ trace_of l).
    cbn [le_events]. rewrite max_count_notifications_app, Hmn.
    destruct r as [st'|].
    + destruct (Hpost st' eq_refl) as (_ & Hno & _). specialize (IH st').
      rewrite Hno in IH.
      destruct (is_handle_sdu o && in_soft_window ctx st), (max_count_notified st);
        cbn [negb andb orb] in *; lia.
    + cbn. destruct (is_handle_sdu o && in_soft_window ctx st), (max_count_notified st);
        cbn [negb andb]; lia.
Qed.

(** The invariant of the hard-stop latch: it is set only at or above the hard
    threshold, and it is clear, with no failure reported, as long as no
    call came at or above the threshold. *)
Lemma hard_latch_step (ctx : pdcp_entity_tx_ctx) (H : list log_entry)
    (st : pdcp_entity_tx) (o : op) (ev : list event) (st' : pdcp_entity_tx) :
  (max_count_overflow st = true -> at_hard_limit ctx st = true) /\
  (forallb (fun e => negb (hard_call ctx e)) H = true ->
   max_count_overflow st = false /\ protocol_failures (trace_of H) = 0%nat) ->
  step ctx st o = (ev, Some st') ->
  (max_count_overflow st' = true -> at_hard_limit ctx st' = true) /\
  (forallb (fun e => negb (hard_call ctx e)) (H ++ [mk_entry o st ev (Some st')]) = true ->
   max_count_overflow st' = false /\
   protocol_failures (trace_of (H ++ [mk_entry o st ev (Some st')])) = 0%nat).
Proof.
  intros [Hinv Hfirst] Hs.
  destruct (step_flags ctx st o ev _ Hs) as (_ & Hpf & Hpost).
  destruct (Hpost st' eq_refl) as (Htx & _ & Hov).
  split.
  - rewrite Hov. intros Hset.
    destruct (max_count_overflow st) eqn:Ho.
    + specialize (Hinv eq_refl). rewrite Hinv, andb_false_r in Htx.
      rewrite (at_hard_limit_tx_next ctx st st' Htx). exact Hinv.
    + cbn [orb] in Hset. apply andb_true_iff in Hset. destruct Hset as [_ Hh].
      rewrite Hh, andb_false_r in Htx.
      rewrite (at_hard_limit_tx_next ctx st st' Htx). exact Hh.
  - rewrite forallb_snoc, trace_of_snoc, protocol_failures_app.
    intros Hall. apply andb_true_iff in Hall. destruct Hall as [Hall Hnot].
    destruct (Hfirst Hall) as [Ho Hz].
    unfold hard_call in Hnot. cbn [le_op le_pre mk_entry] in Hnot.
    apply negb_true_iff in Hnot.
    cbn [le_events mk_entry]. rewrite Hov, Hpf, Ho, Hz, Hnot. auto.
Qed.

Lemma soft_latch_step (ctx : pdcp_entity_tx_ctx) (H : list log_entry)
    (st : pdcp_entity_tx) (o : op) (ev : list event) (st' : pdcp_entity_tx) :
  (forallb (fun e => negb (soft_call ctx e)) H = true ->
   max_count_notified st = false /\ max_count_notifications (trace_of H) = 0%nat) ->
  step ctx st o = (ev, Some st') ->
  (forallb (fun e => negb (soft_call ctx e)) (H ++ [mk_entry o st ev (Some st')]) = true ->
   max_count_notified st' = false /\
   max_count_notifications (trace_of (H ++ [mk_entry o st ev (Some st')])) = 0%nat).
Proof.
  intros Hfirst Hs.
  destruct (step_flags ctx st o ev _ Hs) as (Hmn & _ & Hpost).
  destruct (Hpost st' eq_refl) as (_ & Hno & _).
  rewrite forallb_snoc, trace_of_snoc, max_count_notifications_app.
  intros Hall. apply andb_true_iff in Hall. destruct Hall as [Hall Hnot].
  destruct (Hfirst Hall) as [Ho Hz].
  unfold soft_call in Hnot. cbn [le_op le_pre mk_entry] in Hnot.
  apply negb_true_iff in Hnot.
  cbn [le_events mk_entry]. rewrite Hno, Hmn, Ho, Hz, Hnot. auto.
Qed.

Lemma run_no_soft_call (ctx : pdcp_entity_tx_ctx) :
  forall ops st,
    forallb (fun e => negb (soft_call ctx e)) (run ctx st ops) = true ->
    max_count_notifications (trace_of (run ctx st ops)) = 0%nat.
Proof.
  induction ops as [|o ops IH]; intros st; [reflexivity|].
  cbn [run]. destruct (step ctx st o) as [ev r] eqn:Hs.
  destruct (step_flags ctx st o ev r Hs) as (Hmn & _ & _).
  change (trace_of (?e :: ?l)) with (le_events e ++ trace_of l).
  cbn [forallb le_events]. unfold soft_call at 1. cbn [le_op le_pre].
  intros Hall. apply andb_true_iff in Hall. destruct Hall as [Hnot Hall].
  apply negb_true_iff in Hnot.
  rewrite max_count_notifications_app, Hmn, Hnot. cbn [andb].
  destruct r as [st'|]; [apply IH; exact Hall | reflexivity].
Qed.

Lemma step_pdus_at_hard_limit (ctx : pdcp_entity_tx_ctx) (st : pdcp_entity_tx)
    (o : op) (ev : list event) (r : option pdcp_entity_tx) :
  step ctx st o = (ev, r) ->
  at_hard_limit ctx st = true ->
  new_pdus ev = pdus_at_hard_limit ctx st o.
Proof.
  intros Hs Hh. destruct o as [sdu|status|report|report|c];
    cbn [step pdus_at_hard_limit] in *.
  - apply at_hard_limit_true in Hh.
    destruct (handle_sdu_refuse ctx st sdu Hh) as (ev' & st' & He & Hp & _).
    rewrite He in Hs. injection Hs as <- _. exact Hp.
  - pose proof (handle_status_report_frame st status) as Hf.
    destruct (handle_status_report st status) as [ev' st'].
    injection Hs as <- _. apply Hf.
  - pose proof (send_status_report_spec ctx st report) as Hf.
    destruct (send_status_report ctx st report) as [ev' st'].
    injection Hs as <- _. apply Hf.
  - destruct (is_drb ctx && rlc_mode_is_am (rlc_mode (cfg ctx))) eqn:Hb.
    + destruct (data_recovery_spec ctx st report Hb) as (ev' & st' & He & Hp & _).
      rewrite He in Hs. injection Hs as <- _. exact Hp.
    + rewrite (data_recovery_fault ctx st report Hb) in Hs.
      injection Hs as <- _. reflexivity.
  - destruct (map_mem c (discard_timers_map st)).
    + pose proof (discard_callback_spec st c) as Hf.
      destruct (discard_callback st c) as [ev' st'].
      injection Hs as <- _. apply Hf.
    + injection Hs as <- _. reflexivity.
Qed.

(** C2 (amended). A call of [handle_sdu] made with TX_NEXT at or above the
    hard threshold delivers no PDU, leaves TX_NEXT and the discard map as they
    are and sets the latch; [upper_cn.on_protocol_failure] is called on the
    first such call and never again.  Once the latch is set, TX_NEXT stays at
    or above the threshold, [handle_sdu], [handle_status_report] and the
    timer callback hand nothing to [lower_dn.on_new_pdu], and
    [send_status_report] hands down its control PDU only; [data_recovery]
    still re-delivers the cached data PDUs. *)
Theorem hard_stop_latch (ctx : pdcp_entity_tx_ctx) (t0 : Z) (ops : list op) :
  let log := run ctx (init_entity t0) ops in
  (protocol_failures (trace_of log) <= 1)%nat /\
  forall l1 e l2,
    log = l1 ++ e :: l2 ->
    (hard_call ctx e = true ->
     new_pdus (le_events e) = [] /\
     (exists st',
         le_post e = Some st' /\
         tx_next st' = tx_next (le_pre e) /\
         max_count_overflow st' = true /\
         discard_timers_map st' = discard_timers_map (le_pre e)) /\
     (forallb (fun e' => negb (hard_call ctx e')) l1 = true ->
      protocol_failures (le_events e) = 1%nat /\
      protocol_failures (trace_of l1) = 0%nat /\
      protocol_failures (trace_of l2) = 0%nat)) /\
    (max_count_overflow (le_pre e) = true ->
     at_hard_limit ctx (le_pre e) = true /\
     protocol_failures (le_events e) = 0%nat /\
     new_pdus (le_events e) = pdus_at_hard_limit ctx (le_pre e) (le_op e)).
Proof.
  intros log. split; [apply (run_protocol_failures ctx ops (init_entity t0))|].
  intros l1 e l2 Hlog.
  destruct (run_invariant ctx
              (fun H st =>
                 (max_count_overflow st = true -> at_hard_limit ctx st = true) /\
                 (forallb (fun e => negb (hard_call ctx e)) H = true ->
                  max_count_overflow st = false /\
                  protocol_failures (trace_of H) = 0%nat))
              (hard_latch_step ctx) ops (init_entity t0) [])
    with (l1 := l1) (e := e) (l2 := l2) as ((Hinv & Hfirst) & Hs & ops2 & Hl2).
  { cbn. split; [discriminate | auto]. }
  { exact Hlog. }
  cbn [app] in Hfirst.
  destruct (step_flags ctx _ _ _ _ Hs) as (_ & Hpf & Hpost).
  split.
  - intros Hcall. unfold hard_call in Hcall. apply andb_true_iff in Hcall.
    destruct Hcall as [Hsdu Hh].
    destruct (le_op e) as [sdu| | | |] eqn:Hop; try discriminate.
    pose proof Hs as Hs'. cbn [step] in Hs'.
    destruct (handle_sdu_refuse ctx (le_pre e) sdu (proj1 (at_hard_limit_true _ _) Hh))
      as (ev' & st' & He & Hp & _ & _ & _ & Htx & Hov & _ & Hmap & _).
    rewrite He in Hs'. injection Hs' as Hev Hpo.
    split; [rewrite <- Hev; exact Hp|]. split; [exists st'; auto|].
    intros Hall. destruct (Hfirst Hall) as [Ho Hz].
    rewrite Hpf, Ho, Hh. cbn [is_handle_sdu andb negb].
    split; [reflexivity|]. split; [exact Hz|].
    rewrite Hl2, <- Hpo.
    pose proof (run_protocol_failures ctx ops2 st') as Hle.
    rewrite Hov in Hle. lia.
  - intros Hset. specialize (Hinv Hset).
    split; [exact Hinv|]. split.
    + rewrite Hpf, Hset, andb_false_r. reflexivity.
    + apply (step_pdus_at_hard_limit ctx _ _ _ _ Hs Hinv).
Qed.

(** C2, as stated, fails: after the latch is set, [data_recovery] hands the
    cached data PDU with COUNT 0 down again. *)
Lemma hard_stop_data_recovery_sends :
  exists e,
    In e hard_stop_run /\
    max_count_overflow (le_pre e) = true /\
    new_pdus (le_events e)
    = [{| buf := [0x80; 0x00; 0xaa; 0; 0; 0; 0]; pdcp_count := Some 0 |}].
Proof.
  eexists. split; [right; right; left; reflexivity|].
  vm_compute. split; reflexivity.
Qed.

(** C6. [upper_cn.on_max_count_reached] is called once in the life of the
    entity, on the first call of [handle_sdu] with TX_NEXT between the
    notification threshold and the hard one, and not at all when there is no
    such call; transmission continues: every SDU taken below the hard
    threshold, that one among them, yields one PDU. *)
Theorem max_count_notified_once (ctx : pdcp_entity_tx_ctx) (t0 : Z) (ops : list op) :
  let log := run ctx (init_entity t0) ops in
  (max_count_notifications (trace_of log) <= 1)%nat /\
  (forallb (fun e => negb (soft_call ctx e)) log = true ->
   max_count_notifications (trace_of log) = 0%nat) /\
  forall l1 e l2,
    log = l1 ++ e :: l2 ->
    (soft_call ctx e = true ->
     forallb (fun e' => negb (soft_call ctx e')) l1 = true ->
     max_count_notifications (le_events e) = 1%nat /\
     max_count_notifications (trace_of l1) = 0%nat /\
     max_count_notifications (trace_of l2) = 0%nat) /\
    (forall sdu,
        le_op e = op_handle_sdu sdu ->
        tx_next (le_pre e) < hard (max_count (cfg ctx)) ->
        header_ok ctx = true ->
        exists st',
          le_post e = Some st' /\ length (new_pdus (le_events e)) = 1%nat).
Proof.
  intros log. split; [apply (run_max_count_notifications ctx ops (init_entity t0))|].
  split; [apply run_no_soft_call|].
  intros l1 e l2 Hlog.
  destruct (run_invariant ctx
              (fun H st =>
                 forallb (fun e => negb (soft_call ctx e)) H = true ->
                 max_count_notified st = false /\
                 max_count_notifications (trace_of H) = 0%nat)
              (soft_latch_step ctx) ops (init_entity t0) [])
    with (l1 := l1) (e := e) (l2 := l2) as (Hfirst & Hs & ops2 & Hl2).
  { cbn. auto. }
  { exact Hlog. }
  cbn [app] in Hfirst.
  destruct (step_flags ctx _ _ _ _ Hs) as (Hmn & _ & Hpost).
  split.
  - intros Hcall Hall. destruct (Hfirst Hall) as [Ho Hz].
    unfold soft_call in Hcall. rewrite Hmn, Hcall, Ho. cbn [negb andb].
    split; [reflexivity|]. split; [exact Hz|].
    rewrite Hl2. destruct (le_post e) as [st'|]; [|reflexivity].
    destruct (Hpost st' eq_refl) as (_ & Hno & _).
    pose proof (run_max_count_notifications ctx ops2 st') as Hle.
    rewrite Hno, Hcall, orb_true_r in Hle. lia.
  - intros sdu Hop Hlt Hok. rewrite Hop in Hs. cbn [step] in Hs.
    destruct (write_data_pdu_header_some ctx []
                {| sn := SN ctx (tx_next (le_pre e)) |} Hok) as (h & ev_h & Hw).
    destruct (handle_sdu_accept ctx (le_pre e) sdu h ev_h Hlt Hw)
      as (ev' & st' & He & Hp & _).
    rewrite He in Hs. injection Hs as Hev Hpo.
    exists st'. rewrite <- Hev, Hp. auto.
Qed.

(* ================================================================= *)
(** ** The discard map *)

Lemma filter_true {A : Type} (l : list A) : filter (fun _ => true) l = l.
Proof. induction l as [|x l IH]; cbn; [|rewrite IH]; reflexivity. Qed.

Lemma filter_filter {A : Type} (f g : A -> bool) (l : list A) :
  filter g (filter f l) = filter (fun x => f x && g x) l.
Proof.
  induction l as [|x l IH]; cbn; [reflexivity|].
  destruct (f x); cbn; [destruct (g x)|]; rewrite IH; reflexivity.
Qed.

Lemma map_erase_filter (k : Z) (m : discard_map) :
  map_erase k m = filter (fun e => negb (fst e =? k)) m.
Proof.
  induction m as [|[k' v'] m IH]; cbn; [reflexivity|].
  rewrite (Z.eqb_sym k' k). destruct (k =? k'); cbn; rewrite IH; reflexivity.
Qed.

Lemma sorted_keys_filter (f : Z * discard_info -> bool) (m : discard_map) :
  StronglySorted Z.lt (map_keys m) -> StronglySorted Z.lt (map_keys (filter f m)).
Proof.
  unfold map_keys. induction m as [|x m IH]; cbn; intros Hs; [constructor|].
  inversion Hs as [|? ? Hs' Hall]; subst.
  destruct (f x); cbn; [|auto].
  constructor; [auto|].
  rewrite Forall_forall in *. intros y Hy. apply Hall.
  apply in_map_iff in Hy. destruct Hy as (e & <- & He).
  apply filter_In in He. apply in_map. tauto.
Qed.

Lemma map_insert_keys_In (k : Z) (v : discard_info) (m : discard_map) (x : Z) :
  In x (map_keys (map_insert k v m)) -> x = k \/ In x (map_keys m).
Proof.
  unfold map_keys. intros H. apply in_map_iff in H. destruct H as (e & <- & He).
  apply map_insert_In in He. destruct He as [->|He]; [left; reflexivity|].
  right. apply in_map. exact He.
Qed.

Lemma sorted_keys_insert (k : Z) (v : discard_info) (m : discard_map) :
  StronglySorted Z.lt (map_keys m) ->
  StronglySorted Z.lt (map_keys (map_insert k v m)).
Proof.
  induction m as [|[k' v'] m IH]; cbn; intros Hs.
  - constructor; constructor.
  - inversion Hs as [|? ? Hs' Hall]; subst.
    destruct (k <? k') eqn:Hlt.
    + apply Z.ltb_lt in Hlt. cbn. constructor; [exact Hs|].
      constructor; [exact Hlt|].
      rewrite Forall_forall in *. intros y Hy. specialize (Hall y Hy). lia.
    + destruct (k =? k') eqn:Heq; [exact Hs|].
      apply Z.ltb_ge in Hlt. apply Z.eqb_neq in Heq.
      cbn. constructor; [auto|].
      rewrite Forall_forall in *. intros y Hy.
      apply map_insert_keys_In in Hy. destruct Hy as [->|Hy]; [lia|auto].
Qed.

Lemma strongly_sorted_strictly_increasing (l : list Z) :
  StronglySorted Z.lt l -> strictly_increasing l.
Proof.
  induction l as [|x l IH]; intros Hs; [exact I|].
  inversion Hs as [|? ? Hs' Hall]; subst.
  destruct l as [|y l]; [exact I|].
  cbn [strictly_increasing]. split; [|exact (IH Hs')].
  inversion Hall; assumption.
Qed.

(** What the bitmap loop leaves of the map, and what it tells the lower
    layer. *)
Lemma evaluate_bitmap_spec (dec : bit_decoder) :
  forall fmc m,
    fst (evaluate_bitmap dec fmc m)
    = filter (fun e => negb (acked dec fmc (fst e))) m /\
    discarded_pdus (snd (evaluate_bitmap dec fmc m)) = acked_counts dec fmc.
Proof.
  unfold acked.
  induction dec as [|bit dec IH]; intros fmc m; cbn [evaluate_bitmap acked_counts].
  - cbn. rewrite filter_true. auto.
  - destruct bit.
    + specialize (IH (wrap32 (fmc + 1)) (map_erase (wrap32 (fmc + 1)) m)).
      destruct (evaluate_bitmap dec (wrap32 (fmc + 1)) (map_erase (wrap32 (fmc + 1)) m))
        as [m' ev].
      cbn [fst snd] in *. destruct IH as [IH1 IH2].
      rewrite IH1, map_erase_filter, filter_filter. split.
      * apply filter_ext. intros e. cbn [existsb]. rewrite negb_orb. reflexivity.
      * unfold discarded_pdus in *. cbn [flat_map app]. rewrite IH2. reflexivity.
    + apply IH.
Qed.

Lemma acked_counts_nth (bits : list bool) :
  forall fmc c,
    In c (acked_counts bits fmc) <->
    exists i, (i < length bits)%nat /\ nth i bits false = true /\
              c = wrap32 (fmc + 1 + Z.of_nat i).
Proof.
  assert (Hw : forall a i, wrap32 (wrap32 (a + 1) + 1 + Z.of_nat i)
                           = wrap32 (a + 1 + Z.of_nat (S i))).
  { intros a i. unfold wrap32. rewrite Nat2Z.inj_succ.
    rewrite <- Z.add_assoc, Zplus_mod_idemp_l. f_equal. lia. }
  induction bits as [|bit bits IH]; intros fmc c; cbn [acked_counts length].
  - split; [intros [] | intros (i & Hi & _); lia].
  - split.
    + intros Hin.
      assert (Hcase : c = wrap32 (fmc + 1) /\ bit = true \/
                      In c (acked_counts bits (wrap32 (fmc + 1)))).
      { destruct bit; [destruct Hin as [<-|Hin]|]; auto. }
      destruct Hcase as [[-> ->]|Hrest].
      * exists 0%nat. cbn. repeat split; [lia | f_equal; lia].
      * apply IH in Hrest. destruct Hrest as (i & Hi & Hb & ->).
        exists (S i). cbn [nth]. repeat split; [lia | exact Hb | apply Hw].
    + intros (i & Hi & Hb & ->). destruct i as [|i].
      * cbn in Hb. subst bit. left. f_equal. cbn. lia.
      * cbn [nth] in Hb.
        assert (Hrest : In (wrap32 (fmc + 1 + Z.of_nat (S i)))
                           (acked_counts bits (wrap32 (fmc + 1)))).
        { apply IH. exists i. repeat split; [lia | exact Hb | symmetry; apply Hw]. }
        destruct bit; [right|]; exact Hrest.
Qed.

(** The discard map after a step: what was there, less what the step
    erased, or, after an SDU, with the entry of the PDU just sent. *)
Lemma step_map (ctx : pdcp_entity_tx_ctx) (st : pdcp_entity_tx) (o : op)
    (ev : list event) (st' : pdcp_entity_tx) :
  step ctx st o = (ev, Some st') ->
  (exists f, discard_timers_map st' = filter f (discard_timers_map st)) \/
  (exists sdu h ev_h,
      o = op_handle_sdu sdu /\
      write_data_pdu_header ctx [] {| sn := SN ctx (tx_next st) |} = Some (h, ev_h) /\
      discard_timers_map st'
      = map_insert (tx_next st)
          (discard_entry ctx st (protected_pdu_spec ctx h sdu (tx_next st)))
          (discard_timers_map st) /\
      new_pdus ev
      = [{| buf := protected_pdu_spec ctx h sdu (tx_next st);
            pdcp_count := if is_drb ctx then Some (tx_next st) else None |}]).
Proof.
  destruct o as [sdu|status|report|report|c]; cbn [step].
  - destruct (at_hard_limit ctx st) eqn:Hh.
    + apply at_hard_limit_true in Hh.
      destruct (handle_sdu_refuse ctx st sdu Hh)
        as (ev' & st1 & He & _ & _ & _ & _ & _ & _ & _ & Hmap & _).
      rewrite He. intros E; injection E as <- <-.
      left. exists (fun _ => true). rewrite filter_true. exact Hmap.
    + apply at_hard_limit_false in Hh.
      destruct (header_ok ctx) eqn:Hok.
      * destruct (write_data_pdu_header_some ctx [] {| sn := SN ctx (tx_next st) |} Hok)
          as (h & ev_h & Hw).
        destruct (handle_sdu_accept ctx st sdu h ev_h Hh Hw)
          as (ev' & st1 & He & Hp & _ & _ & _ & _ & _ & _ & Hmap).
        rewrite He. intros E; injection E as <- <-.
        destruct (discard_timer_configured (discard_timer (cfg ctx))).
        -- right. exists sdu, h, ev_h. auto.
        -- left. exists (fun _ => true). rewrite filter_true. exact Hmap.
      * destruct (handle_sdu_fault ctx st sdu Hh Hok) as (ev' & He & _).
        rewrite He. discriminate.
  - unfold handle_status_report.
    destruct (unpack (bit_decoder_init status) 1) as [[ok1 dc] dec1].
    destruct (unpack dec1 3) as [[ok2 cpt] dec2].
    destruct (unpack dec2 4) as [[ok3 reserved] dec3].
    destruct (unpack dec3 32) as [[ok4 fmc] dec4].
    pose proof (discard_below_spec fmc (discard_timers_map st)) as (B1 & _).
    destruct (discard_below fmc (discard_timers_map st)) as [m1 ev1].
    pose proof (evaluate_bitmap_spec dec4 fmc m1) as (Q1 & _).
    destruct (evaluate_bitmap dec4 fmc m1) as [m2 ev2].
    cbn [fst] in B1, Q1. intros E. left.
    destruct (negb (dc =? pdcp_dc_field_control));
      [|destruct (negb (cpt =? pdcp_control_pdu_type_status_report));
        [|destruct (negb (reserved =? 0))]];
      injection E as _ <-;
      try (exists (fun _ => true); rewrite filter_true; reflexivity).
    cbn [discard_timers_map set_discard_timers_map].
    rewrite Q1, B1, filter_filter. eexists. reflexivity.
  - pose proof (send_status_report_spec ctx st report) as Hf.
    destruct (send_status_report ctx st report) as [ev' st1].
    destruct Hf as (_ & _ & _ & _ & (_ & _ & _ & Hmap & _) & _).
    intros E; injection E as <- <-.
    left. exists (fun _ => true). rewrite filter_true. exact Hmap.
  - destruct (is_drb ctx && rlc_mode_is_am (rlc_mode (cfg ctx))) eqn:Hb.
    + destruct (data_recovery_spec ctx st report Hb)
        as (ev' & st1 & He & _ & _ & _ & _ & (_ & _ & _ & Hmap & _) & _).
      rewrite He. intros E; injection E as <- <-.
      left. exists (fun _ => true). rewrite filter_true. exact Hmap.
    + rewrite (data_recovery_fault ctx st report Hb). discriminate.
  - destruct (map_mem c (discard_timers_map st)).
    + pose proof (discard_callback_spec st c) as Hf.
      destruct (discard_callback st c) as [ev' st1].
      destruct Hf as (_ & _ & _ & _ & _ & _ & _ & _ & Hmap).
      intros E; injection E as <- <-.
      left. rewrite Hmap, map_erase_filter. eexists. reflexivity.
    + intros E; injection E as <- <-.
      left. exists (fun _ => true). rewrite filter_true. reflexivity.
Qed.

(* ================================================================= *)
(** ** Data recovery *)

Lemma delivered_by_handle_sdu_app (H H' : list log_entry) (c : Z) (pdu : byte_buffer) :
  delivered_by_handle_sdu H c pdu -> delivered_by_handle_sdu (H ++ H') c pdu.
Proof.
  intros (e0 & sdu & Hin & Hop & Hp). exists e0, sdu.
  split; [apply in_or_app; auto | auto].
Qed.

Lemma cache_invariant_step (ctx : pdcp_entity_tx_ctx) :
  is_drb ctx = true ->
  rlc_mode (cfg ctx) = am ->
  forall H st o ev st',
    cache_invariant H st ->
    step ctx st o = (ev, Some st') ->
    cache_invariant (H ++ [mk_entry o st ev (Some st')]) st'.
Proof.
  intros Hdrb Ham H st o ev st' [Hsorted Hcache] Hs. unfold cache_invariant.
  destruct (step_map ctx st o ev st' Hs)
    as [[f Hmap] | (sdu & h & ev_h & Ho & Hw & Hmap & Hp)]; rewrite Hmap; split.
  - apply sorted_keys_filter. exact Hsorted.
  - intros c info Hin. apply filter_In in Hin.
    apply delivered_by_handle_sdu_app. apply Hcache. tauto.
  - apply sorted_keys_insert. exact Hsorted.
  - intros c info Hin. apply map_insert_In in Hin. destruct Hin as [E|Hin].
    + injection E as -> ->.
      exists (mk_entry o st ev (Some st')), sdu.
      split; [apply in_or_app; right; left; reflexivity|].
      split; [exact Ho|].
      cbn [le_events mk_entry]. rewrite Hp, Hdrb.
      unfold discard_entry. cbn [info_buf]. rewrite Ham. reflexivity.
    + apply delivered_by_handle_sdu_app. apply Hcache. exact Hin.
Qed.

(** C7. [data_recovery] fails its assertion unless the entity is an AM DRB.
    On an AM DRB it first sends a status report iff [status_report_required]
    is configured, then re-delivers the cached PDU of every entry of the
    discard map, in ascending COUNT order, each with the bytes that
    [handle_sdu] handed down for that COUNT; TX_NEXT, the latches, the
    discard map with its timers and the count of timers created are left as
    they were, and nothing is discarded. *)
Theorem data_recovery_redelivers (ctx : pdcp_entity_tx_ctx) (t0 : Z) (ops : list op) :
  let log := run ctx (init_entity t0) ops in
  forall l1 e l2 report,
    log = l1 ++ e :: l2 ->
    le_op e = op_data_recovery report ->
    if is_drb ctx && rlc_mode_is_am (rlc_mode (cfg ctx)) then
      new_pdus (le_events e)
      = (if status_report_required (cfg ctx) then [control_pdu report] else [])
        ++ map (fun entry => {| buf := info_buf (snd entry);
                                pdcp_count := Some (fst entry) |})
               (discard_timers_map (le_pre e)) /\
      discarded_pdus (le_events e) = [] /\
      strictly_increasing (map_keys (discard_timers_map (le_pre e))) /\
      (exists st', le_post e = Some st' /\ unchanged_but_metrics (le_pre e) st') /\
      (forall c info,
          In (c, info) (discard_timers_map (le_pre e)) ->
          delivered_by_handle_sdu l1 c (info_buf info))
    else le_events e = [] /\ le_post e = None.
Proof.
  intros log l1 e l2 report Hlog Hop.
  destruct (is_drb ctx && rlc_mode_is_am (rlc_mode (cfg ctx))) eqn:Hb.
  - assert (Hdrb : is_drb ctx = true) by (apply andb_true_iff in Hb; tauto).
    assert (Ham : rlc_mode (cfg ctx) = am).
    { apply andb_true_iff in Hb. destruct Hb as [_ Hb].
      destruct (rlc_mode (cfg ctx)); [discriminate | reflexivity]. }
    destruct (run_invariant ctx cache_invariant (cache_invariant_step ctx Hdrb Ham)
                ops (init_entity t0) [])
      with (l1 := l1) (e := e) (l2 := l2) as ((Hsorted & Hcache) & Hs & _).
    { split; [constructor | intros c info []]. }
    { exact Hlog. }
    cbn [app] in Hcache. rewrite Hop in Hs. cbn [step] in Hs.
    destruct (data_recovery_spec ctx (le_pre e) report Hb)
      as (ev' & st' & He & Hp & Hd & _ & _ & Hsame & _).
    rewrite He in Hs. injection Hs as Hev Hpo.
    rewrite <- Hev, Hp, Hd. split.
    { f_equal. apply map_ext. intros entry. unfold recovered_pdu.
      rewrite Hdrb. reflexivity. }
    split; [reflexivity|].
    split; [apply strongly_sorted_strictly_increasing; exact Hsorted|].
    split; [exists st'; auto | exact Hcache].
  - destruct (run_invariant ctx (fun _ _ => True) (fun _ _ _ _ _ _ _ => I)
                ops (init_entity t0) [] I l1 e l2 Hlog) as (_ & Hs & _).
    rewrite Hop in Hs. cbn [step] in Hs.
    rewrite (data_recovery_fault ctx _ report Hb) in Hs.
    injection Hs as <- <-. auto.
Qed.

(** C10. A control PDU goes to [lower_dn.on_new_pdu] without a COUNT, from
    [send_status_report] and from the start of [data_recovery] alike, on an
    SRB as on a DRB (a COUNT is set on the data PDUs of a DRB only), and it is
    counted in the PDU metrics: one PDU and its length in bytes. *)
Theorem control_pdu_without_count (ctx : pdcp_entity_tx_ctx) (st : pdcp_entity_tx)
    (report : byte_buffer) :
  (let '(st', ev) := write_control_pdu_to_lower_layers st report in
   new_pdus ev = [{| buf := report; pdcp_count := None |}] /\
   num_pdus (metrics st') = num_pdus (metrics st) + 1 /\
   num_pdu_bytes (metrics st') = num_pdu_bytes (metrics st) + buf_length report) /\
  (forall count b,
      new_pdus (snd (write_data_pdu_to_lower_layers ctx st count b))
      = [{| buf := b; pdcp_count := if is_drb ctx then Some count else None |}]) /\
  (let '(ev, st') := send_status_report ctx st report in
   new_pdus ev
   = (if status_report_required (cfg ctx)
      then [{| buf := report; pdcp_count := None |}] else []) /\
   num_pdus (metrics st')
   = num_pdus (metrics st) + (if status_report_required (cfg ctx) then 1 else 0) /\
   num_pdu_bytes (metrics st')
   = num_pdu_bytes (metrics st)
     + (if status_report_required (cfg ctx) then buf_length report else 0)) /\
  (match data_recovery ctx st report with
   | (ev, Some st') =>
       new_pdus ev
       = (if status_report_required (cfg ctx)
          then [{| buf := report; pdcp_count := None |}] else [])
         ++ map (fun entry => {| buf := info_buf (snd entry);
                                 pdcp_count := Some (fst entry) |})
                (discard_timers_map st) /\
       num_pdus (metrics st')
       = num_pdus (metrics st)
         + (if status_report_required (cfg ctx) then 1 else 0)
         + Z.of_nat (length (discard_timers_map st))
   | (ev, None) => ev = []
   end).
Proof.
  split; [|split; [|split]].
  - pose proof (write_control_pdu_spec st report) as Hf.
    destruct (write_control_pdu_to_lower_layers st report) as [st' ev].
    destruct Hf as (H1 & _ & _ & _ & _ & H2 & H3). auto.
  - intros count b. reflexivity.
  - pose proof (send_status_report_spec ctx st report) as Hf.
    destruct (send_status_report ctx st report) as [ev st'].
    destruct Hf as (H1 & _ & _ & _ & _ & H2 & H3). auto.
  - destruct (is_drb ctx && rlc_mode_is_am (rlc_mode (cfg ctx))) eqn:Hb.
    + destruct (data_recovery_spec ctx st report Hb)
        as (ev' & st' & He & Hp & _ & _ & _ & _ & Hn).
      rewrite He, Hp. split; [|exact Hn].
      f_equal. apply map_ext. intros entry. unfold recovered_pdu.
      apply andb_true_iff in Hb. destruct Hb as [-> _]. reflexivity.
    + rewrite (data_recovery_fault ctx st report Hb). reflexivity.
Qed.

(** Two SDUs sent on an AM DRB, then a data recovery with a status report. *)
Lemma data_recovery_redelivers_witness :
  let ctx := drb_am_ctx true 100 200 in
  let e := nth 2 two_sdus_recovery_run idle_entry in
  if is_drb ctx && rlc_mode_is_am (rlc_mode (cfg ctx)) then
    new_pdus (le_events e)
    = (if status_report_required (cfg ctx) then [control_pdu [0; 0; 0; 0; 0]] else [])
      ++ map (fun entry => {| buf := info_buf (snd entry);
                              pdcp_count := Some (fst entry) |})
             (discard_timers_map (le_pre e)) /\
    discarded_pdus (le_events e) = [] /\
    strictly_increasing (map_keys (discard_timers_map (le_pre e))) /\
    (exists st', le_post e = Some st' /\ unchanged_but_metrics (le_pre e) st') /\
    (forall c info,
        In (c, info) (discard_timers_map (le_pre e)) ->
        delivered_by_handle_sdu (firstn 2 two_sdus_recovery_run) c (info_buf info))
  else le_events e = [] /\ le_post e = None.
Proof.
  intros ctx e.
  apply (data_recovery_redelivers ctx 0
           [op_handle_sdu [0xaa]; op_handle_sdu [0xbb]; op_data_recovery [0; 0; 0; 0; 0]]
           (firstn 2 two_sdus_recovery_run) e (skipn 3 two_sdus_recovery_run)
           [0; 0; 0; 0; 0]).
  - vm_compute. reflexivity.
  - vm_compute. reflexivity.
Defined.

(* ================================================================= *)
(** ** Status reports *)

Lemma bits_to_Z_acc (bits : list bool) :
  forall acc,
    fold_left (fun a (b : bool) => 2 * a + (if b then 1 else 0)) bits acc
    = acc * 2 ^ Z.of_nat (length bits) + bits_to_Z bits.
Proof.
  unfold bits_to_Z. induction bits as [|b bits IH]; intros acc.
  - cbn. lia.
  - cbn [fold_left length]. rewrite IH, (IH (2 * 0 + _)).
    rewrite Nat2Z.inj_succ, Z.pow_succ_r by lia. lia.
Qed.

Lemma bits_to_Z_app (a b : list bool) :
  bits_to_Z (a ++ b) = bits_to_Z a * 2 ^ Z.of_nat (length b) + bits_to_Z b.
Proof. unfold bits_to_Z at 1. rewrite fold_left_app. apply bits_to_Z_acc. Qed.

(** A field that the stream holds in full. *)
Lemma unpack_app (pre rest : list bool) (n : nat) :
  length pre = n -> unpack (pre ++ rest) n = (true, bits_to_Z pre, rest).
Proof.
  intros <-. unfold unpack.
  rewrite firstn_app, Nat.sub_diag, firstn_all, firstn_O, app_nil_r, Nat.sub_diag.
  rewrite skipn_app, Nat.sub_diag, skipn_all, skipn_O.
  rewrite length_app. cbn [app Z.of_nat]. rewrite Z.shiftl_0_r.
  replace (Nat.leb (length pre) (length pre + length rest)) with true; [reflexivity|].
  symmetry. apply Nat.leb_le. lia.
Qed.

Lemma byte_to_bits_value (b : Z) : is_byte b -> bits_to_Z (byte_to_bits b) = b.
Proof.
  intros Hb.
  assert (Hall : forallb (fun z => bits_to_Z (byte_to_bits z) =? z)
                         (map Z.of_nat (seq 0 256)) = true)
    by (vm_compute; reflexivity).
  rewrite forallb_forall in Hall. apply Z.eqb_eq. apply Hall.
  replace b with (Z.of_nat (Z.to_nat b)) by (unfold is_byte in Hb; lia).
  apply in_map. apply in_seq. unfold is_byte in Hb. lia.
Qed.

Lemma byte_to_bits_length (b : Z) : length (byte_to_bits b) = 8%nat.
Proof. reflexivity. Qed.

(** The 32-bit field read from four bytes. *)
Lemma unpack_fmc (f3 f2 f1 f0 : Z) (rest : list bool) :
  is_byte f3 -> is_byte f2 -> is_byte f1 -> is_byte f0 ->
  unpack (byte_to_bits f3 ++ byte_to_bits f2 ++ byte_to_bits f1 ++ byte_to_bits f0 ++ rest) 32
  = (true, f3 * 2 ^ 24 + f2 * 2 ^ 16 + f1 * 2 ^ 8 + f0, rest).
Proof.
  intros H3 H2 H1 H0.
  assert (E : byte_to_bits f3 ++ byte_to_bits f2 ++ byte_to_bits f1
                ++ byte_to_bits f0 ++ rest
              = (byte_to_bits f3 ++ byte_to_bits f2 ++ byte_to_bits f1
                   ++ byte_to_bits f0) ++ rest)
    by (rewrite <- !app_assoc; reflexivity).
  rewrite E, unpack_app by reflexivity.
  rewrite !bits_to_Z_app, !length_app, !byte_to_bits_length,
    !byte_to_bits_value by assumption.
  f_equal. f_equal.
  change (Z.of_nat (8 + (8 + 8))) with 24. change (Z.of_nat (8 + 8)) with 16.
  change (Z.of_nat 8) with 8.
  change (2 ^ 24) with 16777216. change (2 ^ 16) with 65536. change (2 ^ 8) with 256.
  lia.
Qed.

(** The header byte of a status report: D/C, CPT and the reserved bits. *)
Lemma unpack_header (b0 : Z) (rest : list bool) :
  let t := Z.testbit b0 in
  unpack (byte_to_bits b0 ++ rest) 1
  = (true, bits_to_Z [t 7], [t 6; t 5; t 4; t 3; t 2; t 1; t 0] ++ rest) /\
  unpack ([t 6; t 5; t 4; t 3; t 2; t 1; t 0] ++ rest) 3
  = (true, bits_to_Z [t 6; t 5; t 4], [t 3; t 2; t 1; t 0] ++ rest) /\
  unpack ([t 3; t 2; t 1; t 0] ++ rest) 4
  = (true, bits_to_Z [t 3; t 2; t 1; t 0], rest).
Proof.
  intros t. split; [|split].
  - apply (unpack_app [t 7] ([t 6; t 5; t 4; t 3; t 2; t 1; t 0] ++ rest) 1). reflexivity.
  - apply (unpack_app [t 6; t 5; t 4] ([t 3; t 2; t 1; t 0] ++ rest) 3). reflexivity.
  - apply (unpack_app [t 3; t 2; t 1; t 0] rest 4). reflexivity.
Qed.

(** A well-formed status report, read field by field. *)
Lemma handle_status_report_well_formed (st : pdcp_entity_tx) (f3 f2 f1 f0 : Z)
    (bitmap : byte_buffer) :
  is_byte f3 -> is_byte f2 -> is_byte f1 -> is_byte f0 ->
  let fmc := f3 * 2 ^ 24 + f2 * 2 ^ 16 + f1 * 2 ^ 8 + f0 in
  let bits := flat_map byte_to_bits bitmap in
  handle_status_report st (0x00 :: f3 :: f2 :: f1 :: f0 :: bitmap)
  = (ev_log log_info "Received PDCP status report with FMC={}"
       :: snd (discard_below fmc (discard_timers_map st))
       ++ snd (evaluate_bitmap bits fmc (fst (discard_below fmc (discard_timers_map st)))),
     set_discard_timers_map st
       (fst (evaluate_bitmap bits fmc (fst (discard_below fmc (discard_timers_map st)))))).
Proof.
  intros H3 H2 H1 H0 fmc bits.
  unfold handle_status_report, bit_decoder_init. cbn [flat_map].
  fold bits.
  destruct (unpack_header 0
              (byte_to_bits f3 ++ byte_to_bits f2 ++ byte_to_bits f1
                 ++ byte_to_bits f0 ++ bits)) as (U1 & U2 & U3).
  rewrite U1. cbv beta iota.
  change (negb (bits_to_Z [Z.testbit 0 7] =? pdcp_dc_field_control)) with false.
  cbv beta iota. rewrite U2. cbv beta iota.
  change (negb (bits_to_Z [Z.testbit 0 6; Z.testbit 0 5; Z.testbit 0 4]
                =? pdcp_control_pdu_type_status_report)) with false.
  cbv beta iota. rewrite U3. cbv beta iota.
  change (negb (bits_to_Z [Z.testbit 0 3; Z.testbit 0 2; Z.testbit 0 1; Z.testbit 0 0]
                =? 0)) with false.
  cbv beta iota. rewrite (unpack_fmc f3 f2 f1 f0 bits H3 H2 H1 H0). fold fmc.
  destruct (discard_below fmc (discard_timers_map st)) as [m1 ev1].
  cbn [fst snd].
  destruct (evaluate_bitmap bits fmc m1) as [m2 ev2].
  reflexivity.
Qed.

(** C4 (amended). For a well-formed status report with first missing COUNT
    FMC and bitmap bits b_0 .. b_(n-1), [handle_status_report] erases exactly
    the entries of the discard map with COUNT < FMC and those whose COUNT is
    (FMC + 1 + i) mod 2^32 for a bit b_i = 1; [lower_dn.on_discard_pdu] is
    called once for each entry below FMC, in ascending order, and then once
    for every bit set to 1, with the COUNT of the bit, whether the map has
    an entry for it or not; nothing else of the entity changes. *)
Theorem status_report_prunes (st : pdcp_entity_tx) (f3 f2 f1 f0 : Z)
    (bitmap : byte_buffer) :
  is_byte f3 -> is_byte f2 -> is_byte f1 -> is_byte f0 ->
  let fmc := f3 * 2 ^ 24 + f2 * 2 ^ 16 + f1 * 2 ^ 8 + f0 in
  let bits := flat_map byte_to_bits bitmap in
  let '(ev, st') := handle_status_report st (0x00 :: f3 :: f2 :: f1 :: f0 :: bitmap) in
  discard_timers_map st'
  = filter (fun e => negb (fst e <? fmc) && negb (acked bits fmc (fst e)))
           (discard_timers_map st) /\
  discarded_pdus ev
  = filter (fun c => c <? fmc) (map_keys (discard_timers_map st))
    ++ acked_counts bits fmc /\
  (forall c,
      In c (acked_counts bits fmc) <->
      exists i, (i < length bits)%nat /\ nth i bits false = true /\
                c = wrap32 (fmc + 1 + Z.of_nat i)) /\
  new_pdus ev = [] /\
  tx_next st' = tx_next st /\
  max_count_overflow st' = max_count_overflow st /\
  max_count_notified st' = max_count_notified st /\
  metrics st' = metrics st /\
  timers_created st' = timers_created st.
Proof.
  intros H3 H2 H1 H0 fmc bits.
  pose proof (handle_status_report_frame st (0x00 :: f3 :: f2 :: f1 :: f0 :: bitmap))
    as Hframe.
  rewrite (handle_status_report_well_formed st f3 f2 f1 f0 bitmap H3 H2 H1 H0) in *.
  fold fmc bits in Hframe |- *.
  destruct Hframe as (Hp & _ & _ & Htx & Hov & Hno & Htc & Hme & _).
  destruct (discard_below_spec fmc (discard_timers_map st)) as (B1 & B2 & _).
  destruct (evaluate_bitmap_spec bits fmc (fst (discard_below fmc (discard_timers_map st))))
    as (Q1 & Q2).
  split.
  { cbn [discard_timers_map set_discard_timers_map].
    rewrite Q1, B1, filter_filter. reflexivity. }
  split.
  { change (ev_log log_info "Received PDCP status report with FMC={}" :: ?a ++ ?b)
      with ([ev_log log_info "Received PDCP status report with FMC={}"] ++ a ++ b).
    rewrite !discarded_pdus_app, B2, Q2. reflexivity. }
  split; [apply acked_counts_nth|].
  repeat split; assumption.
Qed.

(** FMC = 5 with the bitmap 1010 0000 on a map holding 3, 4, 5, 7, 9. *)
Lemma status_report_prunes_witness :
  let st := sample_entity [3; 4; 5; 7; 9] 10 in
  let fmc := 0 * 2 ^ 24 + 0 * 2 ^ 16 + 0 * 2 ^ 8 + 5 in
  let bits := flat_map byte_to_bits [0xa0] in
  let '(ev, st') := handle_status_report st [0x00; 0; 0; 0; 5; 0xa0] in
  discard_timers_map st'
  = filter (fun e => negb (fst e <? fmc) && negb (acked bits fmc (fst e)))
           (discard_timers_map st) /\
  discarded_pdus ev
  = filter (fun c => c <? fmc) (map_keys (discard_timers_map st))
    ++ acked_counts bits fmc /\
  (forall c,
      In c (acked_counts bits fmc) <->
      exists i, (i < length bits)%nat /\ nth i bits false = true /\
                c = wrap32 (fmc + 1 + Z.of_nat i)) /\
  new_pdus ev = [] /\
  tx_next st' = tx_next st /\
  max_count_overflow st' = max_count_overflow st /\
  max_count_notified st' = max_count_notified st /\
  metrics st' = metrics st /\
  timers_created st' = timers_created st.
Proof.
  intros st.
  apply (status_report_prunes st 0 0 0 5 [0xa0]); unfold is_byte; lia.
Defined.

(** C4, as stated, fails: the bits set for the COUNTs 6 and 8, which have no
    entry in the map, make the handler call [lower_dn.on_discard_pdu] for
    them all the same. *)
Lemma status_report_discards_absent_counts :
  let st := sample_entity [3; 4; 5; 7; 9] 10 in
  let '(ev, st') := handle_status_report st [0x00; 0; 0; 0; 5; 0xa0] in
  map_keys (discard_timers_map st') = [5; 7; 9] /\
  discarded_pdus ev = [3; 4; 6; 8] /\
  map_mem 6 (discard_timers_map st) = false /\
  map_mem 8 (discard_timers_map st) = false.
Proof. vm_compute. repeat split. Qed.

(** A report whose D/C bit is not control, whose CPT is not status_report
    or whose reserved bits are not zero is ignored with a warning, and the
    entity is left as it is. *)
Lemma malformed_header_ignored (st : pdcp_entity_tx) (b0 : Z) (rest : byte_buffer) :
  is_byte b0 ->
  Z.testbit b0 7 = true \/ Z.land (Z.shiftr b0 4) 0x7 <> 0 \/ Z.land b0 0x0f <> 0 ->
  exists msg, handle_status_report st (b0 :: rest) = ([ev_log log_warning msg], st).
Proof.
  intros Hb Hbad.
  assert (Hne : b0 <> 0).
  { intros ->. destruct Hbad as [H|[H|H]]; [discriminate H | apply H | apply H];
      reflexivity. }
  pose proof (byte_to_bits_value b0 Hb) as Hval.
  unfold handle_status_report, bit_decoder_init. cbn [flat_map].
  destruct (unpack_header b0 (flat_map byte_to_bits rest)) as (U1 & U2 & U3).
  rewrite U1. cbv beta iota.
  unfold byte_to_bits in Hval. cbn [map] in Hval.
  destruct (Z.testbit b0 7); [eexists; reflexivity|].
  change (negb (bits_to_Z [false] =? pdcp_dc_field_control)) with false.
  cbv beta iota. rewrite U2. cbv beta iota.
  destruct (Z.testbit b0 6), (Z.testbit b0 5), (Z.testbit b0 4);
    try (eexists; reflexivity).
  change (negb (bits_to_Z [false; false; false] =? pdcp_control_pdu_type_status_report))
    with false.
  cbv beta iota. rewrite U3. cbv beta iota.
  destruct (Z.testbit b0 3), (Z.testbit b0 2), (Z.testbit b0 1), (Z.testbit b0 0);
    try (eexists; reflexivity).
  exfalso. apply Hne. rewrite <- Hval. reflexivity.
Qed.

(** C5, where the code departs from it.  A report cut short inside the FMC
    field is not detected: the return value of [unpack] is not looked at,
    the bits that were read make an FMC of 0xff000000, and every entry of the
    map below it is erased and discarded. *)
Theorem truncated_status_report_prunes :
  let st := sample_entity [3; 4; 5; 7; 9] 10 in
  let '(ev, st') := handle_status_report st [0x00; 0xff] in
  snd (fst (unpack (bit_decoder_init [0xff]) 32)) = 0xff000000 /\
  fst (fst (unpack (bit_decoder_init [0xff]) 32)) = false /\
  discard_timers_map st' = [] /\
  discarded_pdus ev = [3; 4; 5; 7; 9] /\
  logged log_warning ev = 0%nat.
Proof. vm_compute. repeat split. Qed.

(** C9, where the code departs from it.  On a DRB whose SN size is neither
    12 nor 18 bits the error is logged, but the SDU is not dropped: a PDU with
    a one-byte header goes down, a discard-map entry is made, and TX_NEXT
    moves on. *)
Theorem invalid_sn_size_still_transmits :
  let ctx := sample_ctx drb am (size_other 7) (ms 10) false 100 200
               nia0 nea0 false false in
  let '(ev, r) := handle_sdu ctx (init_entity 0) [0xaa; 0xbb] in
  logged log_error ev = 1%nat /\
  new_pdus ev = [{| buf := [0x80; 0xaa; 0xbb]; pdcp_count := Some 0 |}] /\
  option_map tx_next r = Some 1 /\
  option_map (fun st' => map_keys (discard_timers_map st')) r = Some [0].
Proof. vm_compute. repeat split. Qed.

(** On an SRB with an 18-bit SN the call ends at the sanity check of the
    header writer: nothing is delivered and there is no entity after it. *)
Lemma srb_18bit_faults (ctx : pdcp_entity_tx_ctx) (st : pdcp_entity_tx)
    (sdu : byte_buffer) :
  rb_type (cfg ctx) = srb ->
  sn_size (cfg ctx) = size18bits ->
  tx_next st < hard (max_count (cfg ctx)) ->
  exists ev, handle_sdu ctx st sdu = (ev, None) /\ new_pdus ev = [].
Proof.
  intros Hk Hs Hlt.
  assert (Hbad : header_ok ctx = false)
    by (unfold header_ok, is_srb; rewrite Hk, Hs; reflexivity).
  destruct (handle_sdu_fault ctx st sdu Hlt Hbad) as (ev & He & Hp & _).
  exists ev. auto.
Qed.

(** With any SN size other than 12 and 18 bits, a call below the hard
    threshold logs the error and goes on: one PDU is delivered and TX_NEXT is
    advanced. *)
Lemma invalid_sn_size_not_dropped (ctx : pdcp_entity_tx_ctx) (st : pdcp_entity_tx)
    (sdu : byte_buffer) (n : Z) :
  sn_size (cfg ctx) = size_other n ->
  tx_next st < hard (max_count (cfg ctx)) ->
  exists ev st',
    handle_sdu ctx st sdu = (ev, Some st') /\
    length (new_pdus ev) = 1%nat /\
    tx_next st' = wrap32 (tx_next st + 1).
Proof.
  intros Hs Hlt.
  assert (Hw : write_data_pdu_header ctx [] {| sn := SN ctx (tx_next st) |}
               = Some (if is_drb ctx then [0x80] else [0x00],
                       [ev_log log_error "Invalid SN length configuration: {} bits"])).
  { unfold write_data_pdu_header, srsgnb_assert. rewrite Hs, andb_false_r.
    destruct (is_drb ctx); reflexivity. }
  destruct (handle_sdu_accept ctx st sdu _ _ Hlt Hw)
    as (ev & st' & He & Hp & _ & _ & _ & Htx & _).
  exists ev, st'. rewrite Hp. auto.
Qed.

(* ================================================================= *)
(** * Further properties *)

(* ================================================================= *)
(** ** The header writer *)

Lemma or_back_snoc (b : byte_buffer) (x v : Z) :
  or_back (b ++ [x]) v = b ++ [to_uint8 (Z.lor x v)].
Proof. unfold or_back. rewrite removelast_last, last_last. reflexivity. Qed.

(** X1. [write_data_pdu_header] only appends: the bytes already in the
    buffer are kept as they are, and what is appended is the header that an
    empty buffer gets. *)
Theorem write_data_pdu_header_appends (ctx : pdcp_entity_tx_ctx) (b : byte_buffer)
    (hdr : pdcp_data_pdu_header) :
  write_data_pdu_header ctx b hdr
  = match write_data_pdu_header ctx [] hdr with
    | Some (h, ev) => Some (b ++ h, ev)
    | None => None
    end.
Proof.
  unfold write_data_pdu_header.
  destruct (srsgnb_assert (negb (is_srb ctx && sn_is_18bits (sn_size (cfg ctx)))));
    [|reflexivity].
  destruct (is_drb ctx), (sn_size (cfg ctx));
    rewrite ?or_back_snoc, ?(or_back_snoc []); cbn [app];
    rewrite <- ?app_assoc; reflexivity.
Qed.

Lemma land_mod_mask (s m : Z) (n : Z) :
  0 <= n -> Z.land (Z.ones n) m = m -> Z.land (s mod 2 ^ n) m = Z.land s m.
Proof.
  intros Hn Hm. rewrite <- Z.land_ones by exact Hn.
  rewrite <- Z.land_assoc, Hm. reflexivity.
Qed.

Lemma top_bits_12 (s : Z) : 0 <= Z.shiftr (Z.land s 0x00000f00) 8 < 16.
Proof.
  rewrite Z.shiftr_land. change (Z.shiftr 3840 8) with (Z.ones 4).
  rewrite Z.land_ones by lia. apply Z.mod_pos_bound. lia.
Qed.

Lemma top_bits_18 (s : Z) : 0 <= Z.shiftr (Z.land s 0x00030000) 16 < 4.
Proof.
  rewrite Z.shiftr_land. change (Z.shiftr 196608 16) with (Z.ones 2).
  rewrite Z.land_ones by lia. apply Z.mod_pos_bound. lia.
Qed.

Lemma to_uint8_is_byte (z : Z) : is_byte (to_uint8 z).
Proof. unfold is_byte, to_uint8. apply Z.mod_pos_bound. lia. Qed.

(** X2. Whatever value the SN field of the header structure holds, the
    header that is packed has 2 bytes for a 12-bit SN, 3 for an 18-bit SN and
    1 for any other size, each of them a byte; bit 7 of the first byte is the
    D/C bit of the bearer and the bits between it and the SN are zero; and
    the bits of the SN beyond its size are dropped: the header is that of the
    SN modulo 2^size. *)
Theorem header_masks_sn (ctx : pdcp_entity_tx_ctx) (s : Z) :
  header_ok ctx = true ->
  exists b0 rest ev,
    write_data_pdu_header ctx [] {| sn := s |} = Some (b0 :: rest, ev) /\
    length (b0 :: rest) = header_length (sn_size (cfg ctx)) /\
    Forall is_byte (b0 :: rest) /\
    Z.testbit b0 7 = is_drb ctx /\
    Z.land b0 (header_reserved_mask (sn_size (cfg ctx))) = 0 /\
    write_data_pdu_header ctx []
      {| sn := s mod 2 ^ sn_size_to_number (sn_size (cfg ctx)) |}
    = Some (b0 :: rest, ev).
Proof.
  intros Hok.
  destruct (sn_size (cfg ctx)) eqn:Hsize.
  - rewrite !(write_header_12 ctx _ Hsize).
    destruct (top_byte_12 (is_drb ctx) _ (top_bits_12 s)) as (H7 & Hres & _).
    do 3 eexists. split; [reflexivity|]. split; [reflexivity|].
    split; [repeat constructor; apply to_uint8_is_byte|].
    split; [exact H7|]. split; [exact Hres|].
    cbn [sn_size_to_number].
    rewrite !(land_mod_mask s _ 12) by (try lia; reflexivity). reflexivity.
  - assert (Hk : rb_type (cfg ctx) = drb).
    { unfold header_ok, is_srb in Hok. rewrite Hsize in Hok.
      destruct (rb_type (cfg ctx)); [discriminate | reflexivity]. }
    rewrite !(write_header_18 ctx _ Hsize Hk).
    destruct (top_byte_18 true _ (top_bits_18 s)) as (H7 & Hres & _).
    do 3 eexists. split; [reflexivity|]. split; [reflexivity|].
    split; [repeat constructor; apply to_uint8_is_byte|].
    split; [unfold is_drb; rewrite Hk; exact H7|]. split; [exact Hres|].
    cbn [sn_size_to_number].
    rewrite !(land_mod_mask s _ 18) by (try lia; reflexivity). reflexivity.
  - unfold write_data_pdu_header, srsgnb_assert. rewrite Hsize, andb_false_r.
    cbn [negb app].
    destruct (is_drb ctx); do 3 eexists;
      (split; [reflexivity|]); (split; [reflexivity|]);
      (split; [repeat constructor; unfold is_byte; lia|]); repeat split.
Qed.

(** An SN of 20 bits on a DRB with 12-bit SN. *)
Lemma header_masks_sn_witness :
  let ctx := sample_ctx drb am size12bits (ms 10) false 7 100 nia0 nea0 false false in
  exists b0 rest ev,
    write_data_pdu_header ctx [] {| sn := 0xabcde |} = Some (b0 :: rest, ev) /\
    length (b0 :: rest) = header_length (sn_size (cfg ctx)) /\
    Forall is_byte (b0 :: rest) /\
    Z.testbit b0 7 = is_drb ctx /\
    Z.land b0 (header_reserved_mask (sn_size (cfg ctx))) = 0 /\
    write_data_pdu_header ctx []
      {| sn := 0xabcde mod 2 ^ sn_size_to_number (sn_size (cfg ctx)) |}
    = Some (b0 :: rest, ev).
Proof.
  intros ctx. apply (header_masks_sn ctx 0xabcde). reflexivity.
Defined.

(* ================================================================= *)
(** ** The security pipeline: what it does not read *)

(** X3. The key domain follows the bearer: on an SRB the protected PDU and
    the log do not depend on the user-plane keys, on a DRB they do not depend
    on the RRC keys. *)
Theorem key_domain_separation (ctx : pdcp_entity_tx_ctx) (sc' : sec_128_as_config)
    (hdr sdu : byte_buffer) (count : Z) :
  integ_algo sc' = integ_algo (sec_cfg ctx) ->
  cipher_algo sc' = cipher_algo (sec_cfg ctx) ->
  (if is_srb ctx
   then k_128_rrc_int sc' = k_128_rrc_int (sec_cfg ctx) /\
        k_128_rrc_enc sc' = k_128_rrc_enc (sec_cfg ctx)
   else k_128_up_int sc' = k_128_up_int (sec_cfg ctx) /\
        k_128_up_enc sc' = k_128_up_enc (sec_cfg ctx)) ->
  apply_ciphering_and_integrity_protection (with_sec_cfg ctx sc') hdr sdu count
  = apply_ciphering_and_integrity_protection ctx hdr sdu count.
Proof.
  intros Hi Hc Hk.
  unfold apply_ciphering_and_integrity_protection, integrity_generate, cipher_encrypt,
    is_srb, is_drb in *.
  cbn [with_sec_cfg cfg sec_cfg lcid direction integrity_enabled ciphering_enabled sec].
  rewrite Hi, Hc.
  destruct (rb_type (cfg ctx)); destruct Hk as [-> ->]; reflexivity.
Qed.

(** An SRB whose user-plane keys are replaced. *)
Lemma key_domain_separation_witness :
  let ctx := sample_ctx srb am size12bits (ms 10) false 7 100 nia2 nea1 true true in
  let sc' := {| k_128_rrc_int := [1; 2; 3]; k_128_rrc_enc := [4; 5; 6];
                k_128_up_int := [0xff]; k_128_up_enc := [0xee; 0xdd];
                integ_algo := nia2; cipher_algo := nea1 |} in
  apply_ciphering_and_integrity_protection (with_sec_cfg ctx sc') [0x00; 0x05]
    [0xde; 0xad] 5
  = apply_ciphering_and_integrity_protection ctx [0x00; 0x05] [0xde; 0xad] 5.
Proof.
  intros ctx sc'.
  apply (key_domain_separation ctx sc' [0x00; 0x05] [0xde; 0xad] 5).
  - reflexivity.
  - reflexivity.
  - split; reflexivity.
Defined.

(** X4. With integrity disabled no integrity algorithm is run: the PDU and
    the log do not depend on the integrity algorithm nor on the integrity
    keys, and what is ciphered is the SDU followed, on an SRB, by four zero
    bytes, and on a DRB by nothing. *)
Theorem integrity_disabled_no_mac (ctx : pdcp_entity_tx_ctx) (sc' : sec_128_as_config)
    (hdr sdu : byte_buffer) (count : Z) :
  integrity_enabled ctx = false ->
  cipher_algo sc' = cipher_algo (sec_cfg ctx) ->
  k_128_rrc_enc sc' = k_128_rrc_enc (sec_cfg ctx) ->
  k_128_up_enc sc' = k_128_up_enc (sec_cfg ctx) ->
  apply_ciphering_and_integrity_protection (with_sec_cfg ctx sc') hdr sdu count
  = apply_ciphering_and_integrity_protection ctx hdr sdu count /\
  fst (apply_ciphering_and_integrity_protection ctx hdr sdu count)
  = hdr ++ ciphertext_spec ctx
             (sdu ++ (if is_srb ctx then [0; 0; 0; 0] else [])) count.
Proof.
  intros Hoff Hc Hr Hu. split.
  - unfold apply_ciphering_and_integrity_protection, cipher_encrypt.
    cbn [with_sec_cfg cfg sec_cfg lcid direction integrity_enabled ciphering_enabled sec
         is_srb is_drb].
    unfold is_srb, is_drb.
    cbn [with_sec_cfg cfg sec_cfg lcid direction integrity_enabled ciphering_enabled sec].
    rewrite Hoff, Hc, Hr, Hu. reflexivity.
  - destruct (apply_ciphering_and_integrity_protection_spec ctx hdr sdu count) as [-> _].
    unfold protected_pdu_spec, plaintext_spec, mac_i_spec, mac_i_appended, is_srb.
    rewrite Hoff. destruct (rb_type (cfg ctx)); [reflexivity|].
    rewrite app_nil_r. reflexivity.
Qed.

(** A DRB with integrity disabled, under another integrity algorithm and
    other integrity keys. *)
Lemma integrity_disabled_no_mac_witness :
  let ctx := sample_ctx drb am size12bits (ms 10) false 7 100 nia2 nea1 false true in
  let sc' := {| k_128_rrc_int := [0xff]; k_128_rrc_enc := [4; 5; 6];
                k_128_up_int := [0xee]; k_128_up_enc := [10; 11; 12];
                integ_algo := nia3; cipher_algo := nea1 |} in
  apply_ciphering_and_integrity_protection (with_sec_cfg ctx sc') [0x80; 0x05]
    [0xde; 0xad] 5
  = apply_ciphering_and_integrity_protection ctx [0x80; 0x05] [0xde; 0xad] 5 /\
  fst (apply_ciphering_and_integrity_protection ctx [0x80; 0x05] [0xde; 0xad] 5)
  = [0x80; 0x05] ++ ciphertext_spec ctx
                      ([0xde; 0xad] ++ (if is_srb ctx then [0; 0; 0; 0] else [])) 5.
Proof.
  intros ctx sc'.
  apply (integrity_disabled_no_mac ctx sc' [0x80; 0x05] [0xde; 0xad] 5); reflexivity.
Defined.

(** X5. With ciphering disabled the cipher is not run: the PDU and the log
    do not depend on the ciphering algorithm nor on the ciphering keys, and
    the PDU is the header, the SDU in clear and, where one is appended, the
    MAC-I. *)
Theorem ciphering_disabled_in_clear (ctx : pdcp_entity_tx_ctx) (sc' : sec_128_as_config)
    (hdr sdu : byte_buffer) (count : Z) :
  ciphering_enabled ctx = false ->
  integ_algo sc' = integ_algo (sec_cfg ctx) ->
  k_128_rrc_int sc' = k_128_rrc_int (sec_cfg ctx) ->
  k_128_up_int sc' = k_128_up_int (sec_cfg ctx) ->
  apply_ciphering_and_integrity_protection (with_sec_cfg ctx sc') hdr sdu count
  = apply_ciphering_and_integrity_protection ctx hdr sdu count /\
  fst (apply_ciphering_and_integrity_protection ctx hdr sdu count)
  = hdr ++ sdu ++ (if mac_i_appended ctx then mac_i_spec ctx hdr sdu count else []).
Proof.
  intros Hoff Hi Hr Hu. split.
  - unfold apply_ciphering_and_integrity_protection, integrity_generate.
    unfold is_srb, is_drb.
    cbn [with_sec_cfg cfg sec_cfg lcid direction integrity_enabled ciphering_enabled sec].
    rewrite Hoff, Hi, Hr, Hu. reflexivity.
  - destruct (apply_ciphering_and_integrity_protection_spec ctx hdr sdu count) as [-> _].
    unfold protected_pdu_spec, plaintext_spec, ciphertext_spec.
    rewrite Hoff. destruct (mac_i_appended ctx); [reflexivity|].
    rewrite app_nil_r. reflexivity.
Qed.

(** An SRB with ciphering disabled, under another ciphering algorithm and
    other ciphering keys. *)
Lemma ciphering_disabled_in_clear_witness :
  let ctx := sample_ctx srb am size12bits (ms 10) false 7 100 nia2 nea1 true false in
  let sc' := {| k_128_rrc_int := [1; 2; 3]; k_128_rrc_enc := [0xff];
                k_128_up_int := [7; 8; 9]; k_128_up_enc := [0xee];
                integ_algo := nia2; cipher_algo := nea3 |} in
  apply_ciphering_and_integrity_protection (with_sec_cfg ctx sc') [0x00; 0x05]
    [0xde; 0xad] 5
  = apply_ciphering_and_integrity_protection ctx [0x00; 0x05] [0xde; 0xad] 5 /\
  fst (apply_ciphering_and_integrity_protection ctx [0x00; 0x05] [0xde; 0xad] 5)
  = [0x00; 0x05] ++ [0xde; 0xad]
    ++ (if mac_i_appended ctx then mac_i_spec ctx [0x00; 0x05] [0xde; 0xad] 5 else []).
Proof.
  intros ctx sc'.
  apply (ciphering_disabled_in_clear ctx sc' [0x00; 0x05] [0xde; 0xad] 5); reflexivity.
Defined.

(** X6. nea0 is the identity: with nea0 configured, the PDU with ciphering
    enabled has the bytes of the PDU with ciphering disabled. *)
Theorem nea0_is_identity (ctx : pdcp_entity_tx_ctx) (hdr sdu : byte_buffer) (count : Z) :
  cipher_algo (sec_cfg ctx) = nea0 ->
  fst (apply_ciphering_and_integrity_protection (with_ciphering_enabled ctx true)
         hdr sdu count)
  = fst (apply_ciphering_and_integrity_protection (with_ciphering_enabled ctx false)
           hdr sdu count).
Proof.
  intros Hnea.
  unfold apply_ciphering_and_integrity_protection, integrity_generate, cipher_encrypt.
  unfold is_srb, is_drb.
  cbn [with_ciphering_enabled cfg sec_cfg lcid direction integrity_enabled
       ciphering_enabled sec].
  rewrite Hnea.
  destruct (integrity_enabled ctx), (rb_type (cfg ctx)); reflexivity.
Qed.

Lemma nea0_is_identity_witness :
  let ctx := sample_ctx drb am size12bits (ms 10) false 7 100 nia1 nea0 true true in
  fst (apply_ciphering_and_integrity_protection (with_ciphering_enabled ctx true)
         [0x80; 0x05] [0xde; 0xad] 5)
  = fst (apply_ciphering_and_integrity_protection (with_ciphering_enabled ctx false)
           [0x80; 0x05] [0xde; 0xad] 5).
Proof.
  intros ctx. apply (nea0_is_identity ctx [0x80; 0x05] [0xde; 0xad] 5). reflexivity.
Defined.

(* ================================================================= *)
(** ** Metrics *)

Lemma pdu_bytes_app (a b : list event) : pdu_bytes (a ++ b) = pdu_bytes a + pdu_bytes b.
Proof.
  unfold pdu_bytes. rewrite new_pdus_app.
  induction (new_pdus a) as [|p l IH]; cbn; [reflexivity|]. rewrite IH. lia.
Qed.

Lemma pdu_bytes_no_pdus (ev : list event) : new_pdus ev = [] -> pdu_bytes ev = 0.
Proof. unfold pdu_bytes. intros ->. reflexivity. Qed.

Lemma pdu_bytes_cons_log (lvl : log_level) (fmt : string) (ev : list event) :
  pdu_bytes (ev_log lvl fmt :: ev) = pdu_bytes ev.
Proof. reflexivity. Qed.

Lemma pdu_bytes_cons_pdu (p : pdcp_tx_pdu) (ev : list event) :
  pdu_bytes (ev_on_new_pdu p :: ev) = buf_length (buf p) + pdu_bytes ev.
Proof. reflexivity. Qed.

Lemma new_pdus_cons_log (lvl : log_level) (fmt : string) (ev : list event) :
  new_pdus (ev_log lvl fmt :: ev) = new_pdus ev.
Proof. reflexivity. Qed.

Lemma new_pdus_cons_pdu (p : pdcp_tx_pdu) (ev : list event) :
  new_pdus (ev_on_new_pdu p :: ev) = p :: new_pdus ev.
Proof. reflexivity. Qed.

Ltac pdu_bytes_simpl :=
  rewrite ?pdu_bytes_cons_log, ?pdu_bytes_cons_pdu, ?new_pdus_cons_log,
    ?new_pdus_cons_pdu;
  try change (pdu_bytes []) with 0;
  try change (new_pdus []) with (@nil pdcp_tx_pdu).

(** What a call of [handle_sdu] that returns adds to the metrics and to the
    count of timers. *)
Lemma handle_sdu_accounting (ctx : pdcp_entity_tx_ctx) (st : pdcp_entity_tx)
    (sdu : byte_buffer) (ev : list event) (st' : pdcp_entity_tx) :
  handle_sdu ctx st sdu = (ev, Some st') ->
  num_sdus (metrics st') = num_sdus (metrics st) + 1 /\
  num_sdu_bytes (metrics st') = num_sdu_bytes (metrics st) + buf_length sdu /\
  num_pdus (metrics st') = num_pdus (metrics st) + Z.of_nat (length (new_pdus ev)) /\
  num_pdu_bytes (metrics st') = num_pdu_bytes (metrics st) + pdu_bytes ev /\
  num_discard_timeouts (metrics st') = num_discard_timeouts (metrics st) /\
  timers_created st'
  = timers_created st
    + (if negb (at_hard_limit ctx st)
          && discard_timer_configured (discard_timer (cfg ctx))
       then 1 else 0).
Proof.
  unfold handle_sdu, at_hard_limit.
  cbn [tx_next max_count_notified max_count_overflow metrics_add_sdus set_metrics].
  destruct (hard (max_count (cfg ctx)) <=? tx_next st).
  - destruct (max_count_overflow st); cbn [negb andb];
      intros E; injection E as <- <-; cbn; repeat split; lia.
  - assert (Hgen : forall st0 ev_n,
               new_pdus ev_n = [] ->
               tx_next st0 = tx_next st ->
               timers_created st0 = timers_created st ->
               metrics st0 = metrics (metrics_add_sdus st 1 (buf_length sdu)) ->
               match write_data_pdu_header ctx [] {| sn := SN ctx (tx_next st0) |} with
               | Some (header_buf, ev_h) =>
                   let '(protected_buf, ev_p) :=
                     apply_ciphering_and_integrity_protection ctx header_buf sdu
                       (tx_next st0) in
                   let '(st1, ev_t) :=
                     if discard_timer_configured (discard_timer (cfg ctx)) then
                       (set_discard_timers_map
                          (set_timers_created st0 (timers_created st0 + 1))
                          (map_insert
                             (tx_next (set_timers_created st0 (timers_created st0 + 1)))
                             match rlc_mode (cfg ctx) with
                             | um => {| info_buf := [];
                                        info_timer :=
                                          {| timer_id := timers_created st0;
                                             timer_duration :=
                                               discard_timer_to_uint32
                                                 (discard_timer (cfg ctx));
                                             timer_discard_count := tx_next st0 |} |}
                             | am => {| info_buf := protected_buf;
                                        info_timer :=
                                          {| timer_id := timers_created st0;
                                             timer_duration :=
                                               discard_timer_to_uint32
                                                 (discard_timer (cfg ctx));
                                             timer_discard_count := tx_next st0 |} |}
                             end
                             (discard_timers_map
                                (set_timers_created st0 (timers_created st0 + 1)))),
                        [ev_log log_debug "Discard timer set for COUNT {}. Timeout: {}ms"])
                     else (st0, []) in
                   let '(st2, ev_w) :=
                     write_data_pdu_to_lower_layers ctx st1 (tx_next st1) protected_buf in
                   (ev_n ++ ev_h ++ ev_p ++ ev_t ++ ev_w,
                    Some (set_tx_next st2 (wrap32 (tx_next st2 + 1))))
               | None => (ev_n, None)
               end = (ev, Some st') ->
               num_sdus (metrics st') = num_sdus (metrics st) + 1 /\
               num_sdu_bytes (metrics st') = num_sdu_bytes (metrics st) + buf_length sdu /\
               num_pdus (metrics st')
               = num_pdus (metrics st) + Z.of_nat (length (new_pdus ev)) /\
               num_pdu_bytes (metrics st') = num_pdu_bytes (metrics st) + pdu_bytes ev /\
               num_discard_timeouts (metrics st') = num_discard_timeouts (metrics st) /\
               timers_created st'
               = timers_created st
                 + (if discard_timer_configured (discard_timer (cfg ctx)) then 1 else 0)).
    { intros st0 ev_n Hn Htx Htc Hm.
      destruct (write_data_pdu_header ctx [] {| sn := SN ctx (tx_next st0) |})
        as [[h ev_h]|] eqn:Hw; [|discriminate].
      destruct (write_data_pdu_header_quiet _ _ _ _ _ Hw) as (Hh1 & _).
      pose proof (apply_ciphering_and_integrity_protection_spec ctx h sdu (tx_next st0))
        as [_ (Hq1 & _)].
      destruct (apply_ciphering_and_integrity_protection ctx h sdu (tx_next st0))
        as [pb ev_p].
      cbn [snd] in Hq1. unfold write_data_pdu_to_lower_layers.
      destruct (discard_timer_configured (discard_timer (cfg ctx)));
        intros E; injection E as <- <-;
        rewrite !pdu_bytes_app, !new_pdus_app, !length_app,
          (pdu_bytes_no_pdus _ Hn), (pdu_bytes_no_pdus _ Hh1), (pdu_bytes_no_pdus _ Hq1),
          Hn, Hh1, Hq1;
        cbn [metrics set_tx_next metrics_add_pdus set_metrics set_discard_timers_map
             set_timers_created timers_created num_sdus num_sdu_bytes num_pdus
             num_pdu_bytes num_discard_timeouts];
        rewrite Hm, Htc;
        cbn [metrics metrics_add_sdus set_metrics num_sdus num_sdu_bytes num_pdus
             num_pdu_bytes num_discard_timeouts];
        unfold pdu_bytes; cbn; repeat split; lia. }
    cbn [negb andb].
    destruct (notify (max_count (cfg ctx)) <=? tx_next st), (max_count_notified st);
      cbn [negb]; apply Hgen; reflexivity.
Qed.

Lemma recover_pdus_accounting (ctx : pdcp_entity_tx_ctx) (entries : discard_map) :
  forall st,
    let '(ev, st') := recover_pdus ctx st entries in
    num_sdus (metrics st') = num_sdus (metrics st) /\
    num_sdu_bytes (metrics st') = num_sdu_bytes (metrics st) /\
    num_pdus (metrics st') = num_pdus (metrics st) + Z.of_nat (length (new_pdus ev)) /\
    num_pdu_bytes (metrics st') = num_pdu_bytes (metrics st) + pdu_bytes ev /\
    num_discard_timeouts (metrics st') = num_discard_timeouts (metrics st).
Proof.
  induction entries as [|[c info] rest IH]; intros st.
  - cbn. repeat split; lia.
  - cbn [recover_pdus write_data_pdu_to_lower_layers].
    specialize (IH (metrics_add_pdus st 1 (buf_length (info_buf info)))).
    destruct (recover_pdus ctx (metrics_add_pdus st 1 (buf_length (info_buf info))) rest)
      as [ev' st'].
    destruct IH as (I1 & I2 & I3 & I4 & I5).
    rewrite pdu_bytes_app, new_pdus_app, length_app, I1, I2, I3, I4, I5.
    cbn [metrics metrics_add_pdus set_metrics num_sdus num_sdu_bytes num_pdus
         num_pdu_bytes num_discard_timeouts].
    pdu_bytes_simpl. cbn. repeat split; lia.
Qed.

(** What a step adds to the metrics and to the count of timers. *)
Lemma step_accounting (ctx : pdcp_entity_tx_ctx) (st : pdcp_entity_tx) (o : op)
    (ev : list event) (st' : pdcp_entity_tx) :
  step ctx st o = (ev, Some st') ->
  num_sdus (metrics st')
  = num_sdus (metrics st) + (if is_handle_sdu o then 1 else 0) /\
  num_sdu_bytes (metrics st')
  = num_sdu_bytes (metrics st)
    + match o with op_handle_sdu sdu => buf_length sdu | _ => 0 end /\
  num_pdus (metrics st') = num_pdus (metrics st) + Z.of_nat (length (new_pdus ev)) /\
  num_pdu_bytes (metrics st') = num_pdu_bytes (metrics st) + pdu_bytes ev /\
  num_discard_timeouts (metrics st')
  = num_discard_timeouts (metrics st)
    + match o with
      | op_discard_timer_expired _ => Z.of_nat (length (discarded_pdus ev))
      | _ => 0
      end /\
  timers_created st'
  = timers_created st
    + (if is_handle_sdu o && negb (at_hard_limit ctx st)
          && discard_timer_configured (discard_timer (cfg ctx))
       then 1 else 0).
Proof.
  destruct o as [sdu|status|report|report|c]; cbn [step is_handle_sdu andb].
  - intros Hs. destruct (handle_sdu_accounting ctx st sdu ev st' Hs)
      as (A1 & A2 & A3 & A4 & A5 & A6).
    repeat split; try assumption. lia.
  - pose proof (handle_status_report_frame st status) as Hf.
    destruct (handle_status_report st status) as [ev' st1].
    destruct Hf as (Hp & _ & _ & _ & _ & _ & Htc & Hm & _).
    intros E; injection E as <- <-.
    rewrite Hm, Htc, (pdu_bytes_no_pdus _ Hp), Hp. cbn. repeat split; lia.
  - unfold send_status_report, write_control_pdu_to_lower_layers.
    destruct (status_report_required (cfg ctx));
      intros E; injection E as <- <-; unfold pdu_bytes; cbn; repeat split; lia.
  - unfold data_recovery.
    destruct (srsgnb_assert (is_drb ctx && rlc_mode_is_am (rlc_mode (cfg ctx))));
      [|discriminate].
    unfold send_status_report, write_control_pdu_to_lower_layers.
    destruct (status_report_required (cfg ctx)).
    + pose proof (recover_pdus_accounting ctx
                    (discard_timers_map (metrics_add_pdus st 1 (buf_length report)))
                    (metrics_add_pdus st 1 (buf_length report))) as Hr.
      pose proof (recover_pdus_spec ctx
                    (discard_timers_map (metrics_add_pdus st 1 (buf_length report)))
                    (metrics_add_pdus st 1 (buf_length report))) as Hs.
      destruct (recover_pdus ctx (metrics_add_pdus st 1 (buf_length report))
                  (discard_timers_map (metrics_add_pdus st 1 (buf_length report))))
        as [ev_r st2].
      destruct Hr as (R1 & R2 & R3 & R4 & R5).
      destruct Hs as (_ & _ & _ & _ & (_ & _ & _ & _ & Htc) & _).
      intros E; injection E as <- <-.
      cbn [app]. pdu_bytes_simpl.
      cbn [length buf]. rewrite R1, R2, R3, R4, R5, Htc.
      cbn [metrics metrics_add_pdus set_metrics num_sdus num_sdu_bytes num_pdus
           num_pdu_bytes num_discard_timeouts timers_created].
      repeat split; lia.
    + pose proof (recover_pdus_accounting ctx (discard_timers_map st) st) as Hr.
      pose proof (recover_pdus_spec ctx (discard_timers_map st) st) as Hs.
      destruct (recover_pdus ctx st (discard_timers_map st)) as [ev_r st2].
      destruct Hr as (R1 & R2 & R3 & R4 & R5).
      destruct Hs as (_ & _ & _ & _ & (_ & _ & _ & _ & Htc) & _).
      intros E; injection E as <- <-.
      cbn [app]. pdu_bytes_simpl.
      rewrite R1, R2, R3, R4, R5, Htc.
      repeat split; lia.
  - destruct (map_mem c (discard_timers_map st)).
    + unfold discard_callback. intros E; injection E as <- <-.
      unfold pdu_bytes. cbn. repeat split; lia.
    + intros E; injection E as <- <-. unfold pdu_bytes. cbn. repeat split; lia.
Qed.

Lemma run_accounting (ctx : pdcp_entity_tx_ctx) :
  forall ops st st',
    final_state st (run ctx st ops) = Some st' ->
    num_sdus (metrics st') = num_sdus (metrics st) + sdus_submitted (run ctx st ops) /\
    num_sdu_bytes (metrics st')
    = num_sdu_bytes (metrics st) + sdu_bytes_submitted (run ctx st ops) /\
    num_pdus (metrics st')
    = num_pdus (metrics st) + Z.of_nat (length (new_pdus (trace_of (run ctx st ops)))) /\
    num_pdu_bytes (metrics st')
    = num_pdu_bytes (metrics st) + pdu_bytes (trace_of (run ctx st ops)) /\
    num_discard_timeouts (metrics st')
    = num_discard_timeouts (metrics st)
      + Z.of_nat (length (timer_discards (run ctx st ops))).
Proof.
  induction ops as [|o ops IH]; intros st st'.
  - cbn. intros E; injection E as <-. unfold sdus_submitted, pdu_bytes. cbn.
    repeat split; lia.
  - cbn [run]. destruct (step ctx st o) as [ev r] eqn:Hs.
    cbn [final_state le_post]. destruct r as [st1|]; [|discriminate].
    intros Hfin. destruct (IH st1 st' Hfin) as (I1 & I2 & I3 & I4 & I5).
    destruct (step_accounting ctx st o ev st1 Hs) as (S1 & S2 & S3 & S4 & S5 & _).
    change (trace_of (?e :: ?l)) with (le_events e ++ trace_of l).
    change (timer_discards (?e :: ?l))
      with (match le_op e with
            | op_discard_timer_expired _ => discarded_pdus (le_events e)
            | _ => []
            end ++ timer_discards l).
    unfold sdus_submitted in *.
    cbn [le_events le_op filter sdu_bytes_submitted fold_right].
    rewrite pdu_bytes_app, new_pdus_app, !length_app, I1, I2, I3, I4, I5, S1, S2, S3, S4, S5.
    fold (sdu_bytes_submitted (run ctx st1 ops)).
    destruct o; cbn [is_handle_sdu length]; repeat split; lia.
Qed.

(** X7. The metrics count what the entity did.  After a run from the
    constructed entity, the SDU counters hold the number and the bytes of the
    SDUs that were submitted, those refused at the hard threshold among them;
    the PDU counters hold the number and the bytes of the PDUs handed to
    [lower_dn.on_new_pdu], data PDUs, re-delivered PDUs and control PDUs
    alike; and the discard counter holds the number of discards made by the
    timer callback, not those made by status reports. *)
Theorem metrics_account (ctx : pdcp_entity_tx_ctx) (t0 : Z) (ops : list op)
    (st' : pdcp_entity_tx) :
  let log := run ctx (init_entity t0) ops in
  final_state (init_entity t0) log = Some st' ->
  num_sdus (metrics st') = sdus_submitted log /\
  num_sdu_bytes (metrics st') = sdu_bytes_submitted log /\
  num_pdus (metrics st') = Z.of_nat (length (new_pdus (trace_of log))) /\
  num_pdu_bytes (metrics st') = pdu_bytes (trace_of log) /\
  num_discard_timeouts (metrics st') = Z.of_nat (length (timer_discards log)).
Proof.
  intros log Hfin.
  destruct (run_accounting ctx ops (init_entity t0) st' Hfin) as (H1 & H2 & H3 & H4 & H5).
  cbn in H1, H2, H3, H4, H5. auto.
Qed.

(** A run of an AM DRB with SDUs, a status report, a status-report egress, a
    timer expiry and a data recovery. *)
Lemma metrics_account_witness :
  let ctx := drb_am_ctx true 1 3 in
  let ops := [op_handle_sdu [0xaa]; op_handle_sdu [0xbb; 0xcc];
              op_handle_status_report [0; 0; 0; 0; 1]; op_send_status_report [0; 0; 0; 0; 0];
              op_handle_sdu [0xdd]; op_discard_timer_expired 1;
              op_handle_sdu [0xee]; op_data_recovery [0; 0; 0; 0; 0]] in
  let log := run ctx (init_entity 0) ops in
  let st' := state_after ctx 0 ops in
  num_sdus (metrics st') = sdus_submitted log /\
  num_sdu_bytes (metrics st') = sdu_bytes_submitted log /\
  num_pdus (metrics st') = Z.of_nat (length (new_pdus (trace_of log))) /\
  num_pdu_bytes (metrics st') = pdu_bytes (trace_of log) /\
  num_discard_timeouts (metrics st') = Z.of_nat (length (timer_discards log)).
Proof.
  intros ctx ops log st'.
  apply (metrics_account ctx 0 ops st'). vm_compute. reflexivity.
Defined.

(* ================================================================= *)
(** ** Reachable entities *)

Lemma run_final_invariant (ctx : pdcp_entity_tx_ctx) (I : pdcp_entity_tx -> Prop) :
  (forall st o ev st', I st -> step ctx st o = (ev, Some st') -> I st') ->
  forall ops st st',
    I st -> final_state st (run ctx st ops) = Some st' -> I st'.
Proof.
  intros Hstep. induction ops as [|o ops IH]; intros st st' HI.
  - cbn. intros E; injection E as <-. exact HI.
  - cbn [run]. destruct (step ctx st o) as [ev r] eqn:Hs.
    cbn [final_state le_post]. destruct r as [st1|]; [|discriminate].
    apply IH. exact (Hstep st o ev st1 HI Hs).
Qed.

(** The discard map after a step: with the entry of the PDU just sent, when
    an SDU was taken below the hard threshold with a discard timer configured;
    else what was there, less what the step erased. *)
Lemma step_map_precise (ctx : pdcp_entity_tx_ctx) (st : pdcp_entity_tx) (o : op)
    (ev : list event) (st' : pdcp_entity_tx) :
  step ctx st o = (ev, Some st') ->
  (is_handle_sdu o && negb (at_hard_limit ctx st)
     && discard_timer_configured (discard_timer (cfg ctx)) = true /\
   exists pdu,
     discard_timers_map st'
     = map_insert (tx_next st) (discard_entry ctx st pdu) (discard_timers_map st) /\
     new_pdus ev
     = [{| buf := pdu; pdcp_count := if is_drb ctx then Some (tx_next st) else None |}]) \/
  (exists f, discard_timers_map st' = filter f (discard_timers_map st)).
Proof.
  intros Hs. destruct o as [sdu|status|report|report|c].
  - cbn [step] in Hs. cbn [is_handle_sdu andb].
    destruct (at_hard_limit ctx st) eqn:Hh.
    + apply at_hard_limit_true in Hh.
      destruct (handle_sdu_refuse ctx st sdu Hh)
        as (ev' & st1 & He & _ & _ & _ & _ & _ & _ & _ & Hmap & _).
      rewrite He in Hs. injection Hs as <- <-.
      right. exists (fun _ => true). rewrite filter_true. exact Hmap.
    + apply at_hard_limit_false in Hh.
      destruct (header_ok ctx) eqn:Hok.
      * destruct (write_data_pdu_header_some ctx [] {| sn := SN ctx (tx_next st) |} Hok)
          as (h & ev_h & Hw).
        destruct (handle_sdu_accept ctx st sdu h ev_h Hh Hw)
          as (ev' & st1 & He & Hp & _ & _ & _ & _ & _ & _ & Hmap).
        rewrite He in Hs. injection Hs as <- <-.
        destruct (discard_timer_configured (discard_timer (cfg ctx))).
        -- left. split; [reflexivity|]. eexists. split; [exact Hmap | exact Hp].
        -- right. exists (fun _ => true). rewrite filter_true. exact Hmap.
      * destruct (handle_sdu_fault ctx st sdu Hh Hok) as (ev' & He & _).
        rewrite He in Hs. discriminate.
  - destruct (step_map ctx st _ ev st' Hs) as [Hf | (sdu & _ & _ & Ho & _)];
      [right; exact Hf | discriminate].
  - destruct (step_map ctx st _ ev st' Hs) as [Hf | (sdu & _ & _ & Ho & _)];
      [right; exact Hf | discriminate].
  - destruct (step_map ctx st _ ev st' Hs) as [Hf | (sdu & _ & _ & Ho & _)];
      [right; exact Hf | discriminate].
  - destruct (step_map ctx st _ ev st' Hs) as [Hf | (sdu & _ & _ & Ho & _)];
      [right; exact Hf | discriminate].
Qed.

Lemma map_insert_append (k : Z) (v : discard_info) (m : discard_map) :
  Forall (fun e => fst e < k) m -> map_insert k v m = m ++ [(k, v)].
Proof.
  induction m as [|[k' v'] m IH]; intros Hall; [reflexivity|].
  inversion Hall as [|? ? Hlt Hrest]; subst. cbn [fst] in Hlt.
  cbn [map_insert app].
  destruct (k <? k') eqn:E1; [apply Z.ltb_lt in E1; lia|].
  destruct (k =? k') eqn:E2; [apply Z.eqb_eq in E2; lia|].
  rewrite (IH Hrest). reflexivity.
Qed.



Lemma Forall_filter_keep {A : Type} (P : A -> Prop) (f : A -> bool) (l : list A) :
  Forall P l -> Forall P (filter f l).
Proof.
  rewrite !Forall_forall. intros H x Hx. apply filter_In in Hx. apply H. tauto.
Qed.

(* ================================================================= *)
(** ** The discard map of a reachable entity *)




(** X9. An SDU taken by an entity whose discard map holds only COUNTs below
    TX_NEXT, with a discard timer configured, appends one entry to the map:
    the entries that were there are kept, in their order, and the new entry,
    with COUNT TX_NEXT, a new timer and (on RLC AM) the bytes of the PDU that
    goes down, comes last. *)
Theorem handle_sdu_appends_entry (ctx : pdcp_entity_tx_ctx) (st : pdcp_entity_tx)
    (sdu : byte_buffer) :
  tx_next st < hard (max_count (cfg ctx)) ->
  header_ok ctx = true ->
  discard_timer_configured (discard_timer (cfg ctx)) = true ->
  Forall (fun e => fst e < tx_next st) (discard_timers_map st) ->
  exists ev st' pdu,
    handle_sdu ctx st sdu = (ev, Some st') /\
    new_pdus ev
    = [{| buf := pdu; pdcp_count := if is_drb ctx then Some (tx_next st) else None |}] /\
    discard_timers_map st'
    = discard_timers_map st
      ++ [(tx_next st,
           {| info_buf := match rlc_mode (cfg ctx) with um => [] | am => pdu end;
              info_timer :=
                {| timer_id := timers_created st;
                   timer_duration := discard_timer_to_uint32 (discard_timer (cfg ctx));
                   timer_discard_count := tx_next st |} |})] /\
    timers_created st' = timers_created st + 1.
Proof.
  intros Hlt Hok Hconf Hbelow.
  destruct (write_data_pdu_header_some ctx [] {| sn := SN ctx (tx_next st) |} Hok)
    as (h & ev_h & Hw).
  destruct (handle_sdu_accept ctx st sdu h ev_h Hlt Hw)
    as (ev & st' & He & Hp & _ & _ & _ & _ & _ & _ & Hmap).
  destruct (handle_sdu_accounting ctx st sdu ev st' He) as (_ & _ & _ & _ & _ & Htc).
  exists ev, st', (protected_pdu_spec ctx h sdu (tx_next st)).
  split; [exact He|]. split; [exact Hp|]. split.
  - rewrite Hmap, Hconf, (map_insert_append _ _ _ Hbelow). reflexivity.
  - rewrite Htc, Hconf.
    apply at_hard_limit_false in Hlt. rewrite Hlt. reflexivity.
Qed.

Lemma handle_sdu_appends_entry_witness :
  let ctx := drb_am_ctx false 100 200 in
  let st := sample_entity [3; 4; 5; 7; 9] 10 in
  exists ev st' pdu,
    handle_sdu ctx st [0xaa] = (ev, Some st') /\
    new_pdus ev
    = [{| buf := pdu; pdcp_count := if is_drb ctx then Some (tx_next st) else None |}] /\
    discard_timers_map st'
    = discard_timers_map st
      ++ [(tx_next st,
           {| info_buf := match rlc_mode (cfg ctx) with um => [] | am => pdu end;
              info_timer :=
                {| timer_id := timers_created st;
                   timer_duration := discard_timer_to_uint32 (discard_timer (cfg ctx));
                   timer_discard_count := tx_next st |} |})] /\
    timers_created st' = timers_created st + 1.
Proof.
  intros ctx st.
  apply (handle_sdu_appends_entry ctx st [0xaa]).
  - cbn. lia.
  - reflexivity.
  - reflexivity.
  - cbn. repeat constructor.
Defined.

(** X10. Without a discard timer (not configured, or infinity) no entry is
    ever made: the discard map of every reachable entity is empty, no timer
    is created, and a data recovery re-delivers no data PDU. *)
Theorem no_discard_timer_no_cache (ctx : pdcp_entity_tx_ctx) (t0 : Z) (ops : list op)
    (st' : pdcp_entity_tx) (report : byte_buffer) :
  discard_timer_configured (discard_timer (cfg ctx)) = false ->
  final_state (init_entity t0) (run ctx (init_entity t0) ops) = Some st' ->
  discard_timers_map st' = [] /\
  timers_created st' = 0 /\
  pdu_counts (fst (data_recovery ctx st' report)) = [].
Proof.
  intros Hconf Hfin.
  assert (Hinv : discard_timers_map st' = [] /\ timers_created st' = 0).
  { apply (run_final_invariant ctx
             (fun st => discard_timers_map st = [] /\ timers_created st = 0))
      with (ops := ops) (st := init_entity t0); [|split; reflexivity|exact Hfin].
    intros st o ev st1 [Hm Htc] Hs.
    destruct (step_accounting ctx st o ev st1 Hs) as (_ & _ & _ & _ & _ & Htimers).
    rewrite Hconf, andb_false_r in Htimers.
    split; [|lia].
    destruct (step_map_precise ctx st o ev st1 Hs) as [[Hc _] | [f Hmap]].
    - rewrite Hconf, andb_false_r in Hc. discriminate.
    - rewrite Hmap, Hm. reflexivity. }
  destruct Hinv as [Hm Htc]. split; [exact Hm|]. split; [exact Htc|].
  destruct (is_drb ctx && rlc_mode_is_am (rlc_mode (cfg ctx))) eqn:Hb.
  - destruct (data_recovery_spec ctx st' report Hb) as (ev & st2 & He & Hp & _).
    rewrite He. cbn [fst]. unfold pdu_counts. rewrite Hp, Hm.
    destruct (status_report_required (cfg ctx)); reflexivity.
  - rewrite (data_recovery_fault ctx st' report Hb). reflexivity.
Qed.

Lemma no_discard_timer_no_cache_witness :
  let ctx := sample_ctx drb am size12bits infinity true 100 200 nia0 nea0 true false in
  let ops := [op_handle_sdu [0xaa]; op_handle_sdu [0xbb];
              op_handle_status_report [0; 0; 0; 0; 1]] in
  let st' := state_after ctx 0 ops in
  discard_timers_map st' = [] /\
  timers_created st' = 0 /\
  pdu_counts (fst (data_recovery ctx st' [0; 0; 0; 0; 0])) = [].
Proof.
  intros ctx ops st'.
  apply (no_discard_timer_no_cache ctx 0 ops st' [0; 0; 0; 0; 0]).
  - reflexivity.
  - vm_compute. reflexivity.
Defined.

(** X11. On RLC UM no PDU is cached: in every reachable entity the buffer of
    every entry of the discard map is empty. *)
Theorem um_caches_nothing (ctx : pdcp_entity_tx_ctx) (t0 : Z) (ops : list op)
    (st' : pdcp_entity_tx) :
  rlc_mode (cfg ctx) = um ->
  final_state (init_entity t0) (run ctx (init_entity t0) ops) = Some st' ->
  Forall (fun e => info_buf (snd e) = []) (discard_timers_map st').
Proof.
  intros Hum Hfin.
  apply (run_final_invariant ctx
           (fun st => Forall (fun e => info_buf (snd e) = []) (discard_timers_map st)))
    with (ops := ops) (st := init_entity t0); [|constructor|exact Hfin].
  intros st o ev st1 Hall Hs.
  destruct (step_map_precise ctx st o ev st1 Hs) as [[_ (pdu & Hmap & _)] | [f Hmap]];
    rewrite Hmap.
  - rewrite Forall_forall in *. intros e He. apply map_insert_In in He.
    destruct He as [->|He]; [|auto].
    unfold discard_entry. cbn. rewrite Hum. reflexivity.
  - apply Forall_filter_keep. exact Hall.
Qed.

Lemma um_caches_nothing_witness :
  let ctx := sample_ctx drb um size18bits (ms 10) false 100 200 nia1 nea2 true true in
  let ops := [op_handle_sdu [0xaa]; op_handle_sdu [0xbb];
              op_handle_status_report [0; 0; 0; 0; 1]; op_handle_sdu [0xcc]] in
  let st' := state_after ctx 0 ops in
  Forall (fun e => info_buf (snd e) = []) (discard_timers_map st').
Proof.
  intros ctx ops st'.
  apply (um_caches_nothing ctx 0 ops st').
  - reflexivity.
  - vm_compute. reflexivity.
Defined.

(* ================================================================= *)
(** ** The thresholds *)

Lemma step_pdu_counts_below_hard (ctx : pdcp_entity_tx_ctx) (st : pdcp_entity_tx)
    (o : op) (ev : list event) (r : option pdcp_entity_tx) :
  Forall (fun e => fst e < hard (max_count (cfg ctx))) (discard_timers_map st) ->
  step ctx st o = (ev, r) ->
  Forall (fun c => c < hard (max_count (cfg ctx))) (pdu_counts ev).
Proof.
  intros Hall Hs. destruct o as [sdu|status|report|report|c].
  - destruct (step_handle_sdu_pdus ctx st sdu ev r Hs) as (_ & Hc & _).
    rewrite Hc.
    destruct (at_hard_limit ctx st) eqn:Hh; cbn [negb andb]; [constructor|].
    apply at_hard_limit_false in Hh.
    destruct (header_ok ctx && is_drb ctx); repeat constructor. exact Hh.
  - cbn [step] in Hs.
    pose proof (handle_status_report_frame st status) as Hf.
    destruct (handle_status_report st status) as [ev' st'].
    injection Hs as <- _. destruct Hf as (Hp & _).
    unfold pdu_counts. rewrite Hp. constructor.
  - cbn [step] in Hs.
    pose proof (send_status_report_spec ctx st report) as Hf.
    destruct (send_status_report ctx st report) as [ev' st'].
    injection Hs as <- _. destruct Hf as (Hp & _).
    unfold pdu_counts. rewrite Hp.
    destruct (status_report_required (cfg ctx)); constructor.
  - cbn [step] in Hs.
    destruct (is_drb ctx && rlc_mode_is_am (rlc_mode (cfg ctx))) eqn:Hb.
    + destruct (data_recovery_spec ctx st report Hb) as (ev' & st' & He & Hp & _).
      rewrite He in Hs. injection Hs as <- _.
      unfold pdu_counts. rewrite Hp, flat_map_app. apply Forall_app. split.
      * destruct (status_report_required (cfg ctx)); constructor.
      * clear - Hall. induction (discard_timers_map st) as [|e m IH]; [constructor|].
        inversion Hall; subst. cbn [map flat_map recovered_pdu pdcp_count].
        apply Forall_app. split; [|auto].
        destruct (is_drb ctx); repeat constructor. assumption.
    + rewrite (data_recovery_fault ctx st report Hb) in Hs.
      injection Hs as <- _. constructor.
  - cbn [step] in Hs. destruct (map_mem c (discard_timers_map st)).
    + injection Hs as <- _. constructor.
    + injection Hs as <- _. constructor.
Qed.

Lemma keys_below_hard_step (ctx : pdcp_entity_tx_ctx) (st : pdcp_entity_tx)
    (o : op) (ev : list event) (st' : pdcp_entity_tx) :
  Forall (fun e => fst e < hard (max_count (cfg ctx))) (discard_timers_map st) ->
  step ctx st o = (ev, Some st') ->
  Forall (fun e => fst e < hard (max_count (cfg ctx))) (discard_timers_map st').
Proof.
  intros Hall Hs.
  destruct (step_map_precise ctx st o ev st' Hs) as [[Hc (pdu & Hmap & _)] | [f Hmap]];
    rewrite Hmap.
  - apply andb_true_iff in Hc. destruct Hc as [Hc _].
    apply andb_true_iff in Hc. destruct Hc as [_ Hc].
    apply negb_true_iff, at_hard_limit_false in Hc.
    rewrite Forall_forall in *. intros e He. apply map_insert_In in He.
    destruct He as [->|He]; [exact Hc | auto].
  - apply Forall_filter_keep. exact Hall.
Qed.

Lemma run_pdu_counts_below_hard (ctx : pdcp_entity_tx_ctx) :
  forall ops st,
    Forall (fun e => fst e < hard (max_count (cfg ctx))) (discard_timers_map st) ->
    Forall (fun c => c < hard (max_count (cfg ctx)))
           (pdu_counts (trace_of (run ctx st ops))).
Proof.
  induction ops as [|o ops IH]; intros st Hall; [constructor|].
  cbn [run]. destruct (step ctx st o) as [ev r] eqn:Hs.
  change (trace_of (?e :: ?l)) with (le_events e ++ trace_of l).
  cbn [le_events]. rewrite pdu_counts_app. apply Forall_app. split.
  - exact (step_pdu_counts_below_hard ctx st o ev r Hall Hs).
  - destruct r as [st'|]; [|constructor].
    apply IH. exact (keys_below_hard_step ctx st o ev st' Hall Hs).
Qed.

(** X12. No COUNT at or above the hard threshold ever leaves the entity:
    every COUNT attached to a PDU handed to [lower_dn.on_new_pdu] in a run
    from the constructed entity, by [handle_sdu] or by [data_recovery], is
    below [max_count.hard]. *)
Theorem pdu_counts_below_hard (ctx : pdcp_entity_tx_ctx) (t0 : Z) (ops : list op) :
  Forall (fun c => c < hard (max_count (cfg ctx)))
         (pdu_counts (trace_of (run ctx (init_entity t0) ops))).
Proof. apply run_pdu_counts_below_hard. constructor. Qed.

(** X13. When the notification threshold is not below the hard threshold,
    [upper_cn.on_max_count_reached] is never called: the refusal at the hard
    threshold comes first. *)
Theorem notify_at_or_above_hard_never_notifies (ctx : pdcp_entity_tx_ctx)
    (st : pdcp_entity_tx) (ops : list op) :
  hard (max_count (cfg ctx)) <= notify (max_count (cfg ctx)) ->
  max_count_notifications (trace_of (run ctx st ops)) = 0%nat.
Proof.
  intros Hle. apply run_no_soft_call. apply forallb_forall. intros e _.
  unfold soft_call, in_soft_window.
  destruct (notify (max_count (cfg ctx)) <=? tx_next (le_pre e)) eqn:E1;
    [|rewrite andb_false_r; reflexivity].
  apply Z.leb_le in E1.
  replace (tx_next (le_pre e) <? hard (max_count (cfg ctx))) with false
    by (symmetry; apply Z.ltb_ge; lia).
  rewrite !andb_false_r. reflexivity.
Qed.

Lemma notify_at_or_above_hard_never_notifies_witness :
  max_count_notifications
    (trace_of (run (drb_am_ctx false 2 2) (init_entity 0)
                 [op_handle_sdu [0xaa]; op_handle_sdu [0xbb]; op_handle_sdu [0xcc];
                  op_handle_sdu [0xdd]]))
  = 0%nat.
Proof.
  apply (notify_at_or_above_hard_never_notifies (drb_am_ctx false 2 2)).
  cbn. lia.
Defined.

(* ================================================================= *)
(** ** Status reports, whatever their bytes *)

Lemma set_discard_timers_map_same (st : pdcp_entity_tx) :
  set_discard_timers_map st (discard_timers_map st) = st.
Proof. destruct st. reflexivity. Qed.

(** The entries that a status report keeps depend on its bytes alone. *)
Lemma handle_status_report_filter (status : byte_buffer) :
  exists f,
    forall st,
      snd (handle_status_report st status)
      = set_discard_timers_map st (filter f (discard_timers_map st)).
Proof.
  unfold handle_status_report.
  destruct (unpack (bit_decoder_init status) 1) as [[ok1 dc] dec1].
  destruct (unpack dec1 3) as [[ok2 cpt] dec2].
  destruct (unpack dec2 4) as [[ok3 reserved] dec3].
  destruct (unpack dec3 32) as [[ok4 fmc] dec4].
  destruct (negb (dc =? pdcp_dc_field_control));
    [|destruct (negb (cpt =? pdcp_control_pdu_type_status_report));
      [|destruct (negb (reserved =? 0))]];
    try (exists (fun _ => true); intros st; cbn [snd];
         rewrite filter_true, set_discard_timers_map_same; reflexivity).
  exists (fun e => negb (fst e <? fmc) && negb (acked dec4 fmc (fst e))).
  intros st.
  pose proof (discard_below_spec fmc (discard_timers_map st)) as (B1 & _).
  destruct (discard_below fmc (discard_timers_map st)) as [m1 ev1].
  pose proof (evaluate_bitmap_spec dec4 fmc m1) as (Q1 & _).
  destruct (evaluate_bitmap dec4 fmc m1) as [m2 ev2].
  cbn [fst snd] in *. rewrite Q1, B1, filter_filter. reflexivity.
Qed.

(** X14. Whatever bytes it is given, [handle_status_report] sends no PDU,
    calls no notifier of the upper layer, and leaves TX_NEXT, the two
    latches, the metrics and the count of timers as they are; of the discard
    map it keeps a part, in the same order: it never adds an entry nor
    changes one. *)
Theorem status_report_only_erases (st : pdcp_entity_tx) (status : byte_buffer) :
  let '(ev, st') := handle_status_report st status in
  new_pdus ev = [] /\
  protocol_failures ev = 0%nat /\
  max_count_notifications ev = 0%nat /\
  tx_next st' = tx_next st /\
  max_count_overflow st' = max_count_overflow st /\
  max_count_notified st' = max_count_notified st /\
  timers_created st' = timers_created st /\
  metrics st' = metrics st /\
  exists f, discard_timers_map st' = filter f (discard_timers_map st).
Proof.
  pose proof (handle_status_report_frame st status) as Hf.
  destruct (handle_status_report_filter status) as [f Hfilter].
  specialize (Hfilter st).
  destruct (handle_status_report st status) as [ev st'].
  destruct Hf as (H1 & H2 & H3 & H4 & H5 & H6 & H7 & H8 & _).
  repeat (split; [assumption|]).
  exists f. cbn [snd] in Hfilter. rewrite Hfilter. reflexivity.
Qed.

(** X15. A status report is idempotent on the entity: handling the same
    bytes a second time leaves the entity as the first time left it. *)
Theorem status_report_idempotent (st : pdcp_entity_tx) (status : byte_buffer) :
  snd (handle_status_report (snd (handle_status_report st status)) status)
  = snd (handle_status_report st status).
Proof.
  destruct (handle_status_report_filter status) as [f Hfilter].
  rewrite !Hfilter. cbn [discard_timers_map set_discard_timers_map].
  rewrite filter_filter.
  assert (E : filter (fun x => f x && f x) (discard_timers_map st)
              = filter f (discard_timers_map st))
    by (apply filter_ext; intros x; destruct (f x); reflexivity).
  rewrite E. destruct st. reflexivity.
Qed.

(* ================================================================= *)
(** ** What data recovery re-delivers *)

(** X16. What a status report acknowledges is not re-delivered: after a
    well-formed report with first missing COUNT FMC, a data recovery on an AM
    DRB re-delivers the cached PDUs of the entries with COUNT >= FMC that no
    bit of the bitmap names, and no other. *)
Theorem acknowledged_not_redelivered (ctx : pdcp_entity_tx_ctx) (st : pdcp_entity_tx)
    (f3 f2 f1 f0 : Z) (bitmap report : byte_buffer) :
  is_drb ctx && rlc_mode_is_am (rlc_mode (cfg ctx)) = true ->
  is_byte f3 -> is_byte f2 -> is_byte f1 -> is_byte f0 ->
  let fmc := f3 * 2 ^ 24 + f2 * 2 ^ 16 + f1 * 2 ^ 8 + f0 in
  let bits := flat_map byte_to_bits bitmap in
  let st1 := snd (handle_status_report st (0x00 :: f3 :: f2 :: f1 :: f0 :: bitmap)) in
  new_pdus (fst (data_recovery ctx st1 report))
  = (if status_report_required (cfg ctx) then [control_pdu report] else [])
    ++ map (recovered_pdu ctx)
           (filter (fun e => negb (fst e <? fmc) && negb (acked bits fmc (fst e)))
                   (discard_timers_map st)).
Proof.
  intros Hb H3 H2 H1 H0 fmc bits st1.
  destruct (data_recovery_spec ctx st1 report Hb) as (ev & st2 & He & Hp & _).
  rewrite He. cbn [fst]. rewrite Hp. f_equal. f_equal.
  subst st1. rewrite (handle_status_report_well_formed st f3 f2 f1 f0 bitmap H3 H2 H1 H0).
  fold fmc bits. cbn [snd discard_timers_map set_discard_timers_map].
  destruct (discard_below_spec fmc (discard_timers_map st)) as (B1 & _).
  destruct (evaluate_bitmap_spec bits fmc (fst (discard_below fmc (discard_timers_map st))))
    as (Q1 & _).
  rewrite Q1, B1, filter_filter. reflexivity.
Qed.

Lemma acknowledged_not_redelivered_witness :
  let ctx := drb_am_ctx true 100 200 in
  let st := sample_entity [3; 4; 5; 7; 9] 10 in
  let fmc := 0 * 2 ^ 24 + 0 * 2 ^ 16 + 0 * 2 ^ 8 + 5 in
  let bits := flat_map byte_to_bits [0x50] in
  let st1 := snd (handle_status_report st [0x00; 0; 0; 0; 5; 0x50]) in
  new_pdus (fst (data_recovery ctx st1 [0; 0; 0; 0; 0]))
  = (if status_report_required (cfg ctx) then [control_pdu [0; 0; 0; 0; 0]] else [])
    ++ map (recovered_pdu ctx)
           (filter (fun e => negb (fst e <? fmc) && negb (acked bits fmc (fst e)))
                   (discard_timers_map st)).
Proof.
  intros ctx st.
  apply (acknowledged_not_redelivered ctx st 0 0 0 5 [0x50] [0; 0; 0; 0; 0]);
    try reflexivity; unfold is_byte; lia.
Defined.

(** X17. The discard timer callback for COUNT c tells the lower layer to
    discard c, once, counts one discard time-out and erases the entry of c:
    no entry with COUNT c is left, every other entry is kept as it is, and a
    data recovery after it re-delivers, on an AM DRB, the other cached PDUs
    only. *)
Theorem discard_callback_erases_one (ctx : pdcp_entity_tx_ctx) (st : pdcp_entity_tx)
    (c : Z) (report : byte_buffer) :
  let '(ev, st') := discard_callback st c in
  discarded_pdus ev = [c] /\
  new_pdus ev = [] /\
  num_discard_timeouts (metrics st') = num_discard_timeouts (metrics st) + 1 /\
  tx_next st' = tx_next st /\
  discard_timers_map st' = filter (fun e => negb (fst e =? c)) (discard_timers_map st) /\
  map_mem c (discard_timers_map st') = false /\
  (forall e, fst e <> c -> (In e (discard_timers_map st') <-> In e (discard_timers_map st))) /\
  (is_drb ctx && rlc_mode_is_am (rlc_mode (cfg ctx)) = true ->
   new_pdus (fst (data_recovery ctx st' report))
   = (if status_report_required (cfg ctx) then [control_pdu report] else [])
     ++ map (recovered_pdu ctx)
            (filter (fun e => negb (fst e =? c)) (discard_timers_map st))).
Proof.
  unfold discard_callback.
  cbn [discard_timers_map set_discard_timers_map metrics_add_discard_timouts set_metrics
       tx_next metrics num_discard_timeouts].
  rewrite map_erase_filter.
  split; [reflexivity|]. split; [reflexivity|]. split; [reflexivity|].
  split; [reflexivity|]. split; [reflexivity|]. split.
  { unfold map_mem, map_keys.
    destruct (existsb (Z.eqb c)
                (map fst (filter (fun e => negb (fst e =? c)) (discard_timers_map st))))
      eqn:E; [|reflexivity].
    apply existsb_exists in E. destruct E as (k & Hin & Hk).
    apply Z.eqb_eq in Hk. subst k.
    apply in_map_iff in Hin. destruct Hin as (e & He & Hin).
    apply filter_In in Hin. destruct Hin as [_ Hne].
    rewrite He, Z.eqb_refl in Hne. discriminate. }
  split.
  { intros e Hne. rewrite filter_In. apply Z.eqb_neq in Hne. rewrite Hne. tauto. }
  intros Hb.
  destruct (data_recovery_spec ctx
              (set_discard_timers_map (metrics_add_discard_timouts st 1)
                 (filter (fun e => negb (fst e =? c)) (discard_timers_map st)))
              report Hb) as (ev & st2 & He & Hp & _).
  rewrite He. cbn [fst]. rewrite Hp. reflexivity.
Qed.

(** X18. A data recovery does not use up the cache: on an AM DRB, a second
    data recovery hands down the same PDUs as the first. *)
Theorem data_recovery_repeatable (ctx : pdcp_entity_tx_ctx) (st : pdcp_entity_tx)
    (report : byte_buffer) :
  is_drb ctx && rlc_mode_is_am (rlc_mode (cfg ctx)) = true ->
  exists ev st1,
    data_recovery ctx st report = (ev, Some st1) /\
    new_pdus (fst (data_recovery ctx st1 report)) = new_pdus ev.
Proof.
  intros Hb.
  destruct (data_recovery_spec ctx st report Hb)
    as (ev & st1 & He & Hp & _ & _ & _ & (_ & _ & _ & Hmap & _) & _).
  destruct (data_recovery_spec ctx st1 report Hb) as (ev2 & st2 & He2 & Hp2 & _).
  exists ev, st1. split; [exact He|].
  rewrite He2. cbn [fst]. rewrite Hp2, Hp, Hmap. reflexivity.
Qed.

Lemma data_recovery_repeatable_witness :
  let ctx := drb_am_ctx true 100 200 in
  let st := sample_entity [3; 4; 5; 7; 9] 10 in
  exists ev st1,
    data_recovery ctx st [0; 0; 0; 0; 0] = (ev, Some st1) /\
    new_pdus (fst (data_recovery ctx st1 [0; 0; 0; 0; 0])) = new_pdus ev.
Proof.
  intros ctx st.
  apply (data_recovery_repeatable ctx st [0; 0; 0; 0; 0]). reflexivity.
Defined.

(* ================================================================= *)
(** ** COUNT on the PDUs, and TX_NEXT *)

Lemma step_pdu_counts_srb (ctx : pdcp_entity_tx_ctx) (st : pdcp_entity_tx)
    (o : op) (ev : list event) (r : option pdcp_entity_tx) :
  is_drb ctx = false ->
  step ctx st o = (ev, r) ->
  pdu_counts ev = [].
Proof.
  intros Hsrb Hs. destruct o as [sdu|status|report|report|c].
  - destruct (step_handle_sdu_pdus ctx st sdu ev r Hs) as (_ & Hc & _).
    rewrite Hc, Hsrb, andb_false_r. reflexivity.
  - cbn [step] in Hs.
    pose proof (handle_status_report_frame st status) as Hf.
    destruct (handle_status_report st status) as [ev' st'].
    injection Hs as <- _. destruct Hf as (Hp & _).
    unfold pdu_counts. rewrite Hp. reflexivity.
  - cbn [step] in Hs.
    pose proof (send_status_report_spec ctx st report) as Hf.
    destruct (send_status_report ctx st report) as [ev' st'].
    injection Hs as <- _. destruct Hf as (Hp & _).
    unfold pdu_counts. rewrite Hp.
    destruct (status_report_required (cfg ctx)); reflexivity.
  - cbn [step] in Hs.
    rewrite (data_recovery_fault ctx st report) in Hs
      by (rewrite Hsrb; reflexivity).
    injection Hs as <- _. reflexivity.
  - cbn [step] in Hs. destruct (map_mem c (discard_timers_map st));
      injection Hs as <- _; reflexivity.
Qed.

(** X19. On an SRB no PDU ever carries a COUNT: in every run, from any
    entity, [pdcp_count] is left unset on every PDU handed to
    [lower_dn.on_new_pdu]. *)
Theorem srb_pdus_carry_no_count (ctx : pdcp_entity_tx_ctx) (st : pdcp_entity_tx)
    (ops : list op) :
  rb_type (cfg ctx) = srb ->
  pdu_counts (trace_of (run ctx st ops)) = [] /\
  Forall (fun p => pdcp_count p = None) (new_pdus (trace_of (run ctx st ops))).
Proof.
  intros Hk.
  assert (Hsrb : is_drb ctx = false) by (unfold is_drb; rewrite Hk; reflexivity).
  assert (Hcounts : pdu_counts (trace_of (run ctx st ops)) = []).
  { revert st. induction ops as [|o ops IH]; intros st; [reflexivity|].
    cbn [run]. destruct (step ctx st o) as [ev r] eqn:Hs.
    change (trace_of (?e :: ?l)) with (le_events e ++ trace_of l).
    cbn [le_events]. rewrite pdu_counts_app, (step_pdu_counts_srb ctx st o ev r Hsrb Hs).
    destruct r as [st'|]; [apply IH | reflexivity]. }
  split; [exact Hcounts|].
  unfold pdu_counts in Hcounts.
  induction (new_pdus (trace_of (run ctx st ops))) as [|p l IH]; [constructor|].
  cbn [flat_map] in Hcounts. apply app_eq_nil in Hcounts. destruct Hcounts as [Hp Hl].
  constructor; [|auto].
  destruct (pdcp_count p); [discriminate | reflexivity].
Qed.

Lemma srb_pdus_carry_no_count_witness :
  let ctx := sample_ctx srb am size12bits (ms 10) true 1 5 nia2 nea1 true true in
  let ops := [op_handle_sdu [0xaa]; op_send_status_report [0; 0; 0; 0; 0];
              op_handle_sdu [0xbb]] in
  pdu_counts (trace_of (run ctx (init_entity 0) ops)) = [] /\
  Forall (fun p => pdcp_count p = None)
         (new_pdus (trace_of (run ctx (init_entity 0) ops))).
Proof.
  intros ctx ops.
  apply (srb_pdus_carry_no_count ctx (init_entity 0) ops). reflexivity.
Defined.

(** X20. TX_NEXT never passes the hard threshold and never wraps around: in
    every entity reached from the constructed one, TX_NEXT is at least the
    initial value, at most the larger of the initial value and
    [max_count.hard], and a 32-bit value. *)
Theorem tx_next_bounded (ctx : pdcp_entity_tx_ctx) (t0 : Z) (ops : list op)
    (st' : pdcp_entity_tx) :
  is_uint32 t0 ->
  is_uint32 (hard (max_count (cfg ctx))) ->
  final_state (init_entity t0) (run ctx (init_entity t0) ops) = Some st' ->
  t0 <= tx_next st' <= Z.max t0 (hard (max_count (cfg ctx))) /\
  is_uint32 (tx_next st').
Proof.
  intros Ht0 Hhard Hfin.
  assert (Hb : t0 <= tx_next st' <= Z.max t0 (hard (max_count (cfg ctx)))).
  { apply (run_final_invariant ctx
             (fun st => t0 <= tx_next st <= Z.max t0 (hard (max_count (cfg ctx)))))
      with (ops := ops) (st := init_entity t0); [|cbn; lia|exact Hfin].
    intros st o ev st1 Hst Hs.
    destruct (step_flags ctx st o ev _ Hs) as (_ & _ & Hpost).
    destruct (Hpost st1 eq_refl) as (Htx & _). rewrite Htx.
    destruct (is_handle_sdu o && negb (at_hard_limit ctx st)) eqn:Hc; [|exact Hst].
    apply andb_true_iff in Hc. destruct Hc as [_ Hc].
    apply negb_true_iff, at_hard_limit_false in Hc.
    rewrite (wrap32_succ (tx_next st) (hard (max_count (cfg ctx))));
      [lia | unfold is_uint32 in Ht0; lia | exact Hhard]. }
  split; [exact Hb|]. unfold is_uint32 in *. lia.
Qed.

Lemma tx_next_bounded_witness :
  let ctx := drb_am_ctx true 1 3 in
  let ops := [op_handle_sdu [0xaa]; op_handle_sdu [0xbb]; op_handle_sdu [0xcc];
              op_handle_sdu [0xdd]; op_handle_sdu [0xee]] in
  let st' := state_after ctx 0 ops in
  0 <= tx_next st' <= Z.max 0 (hard (max_count (cfg ctx))) /\
  is_uint32 (tx_next st').
Proof.
  intros ctx ops st'.
  apply (tx_next_bounded ctx 0 ops st').
  - unfold is_uint32. lia.
  - unfold is_uint32. cbn. lia.
  - vm_compute. reflexivity.
Defined.
